(** * Shallow embedding of the image import pipeline (import_worker.py)
    and of the catalog/progress helpers of app.py. *)

From Stdlib Require Import String Ascii List ZArith QArith Bool Lia.
From Stdlib Require Import Sorting.Sorted.
From Equations Require Import Equations.
Import ListNotations.
Open Scope string_scope.
Set Warnings "-register-all".

(* ================================================================= *)
(** ** Python string helpers *)

Module Py.

(** [str.isspace] on one character.  Characters are the code points
    0-255 (Latin-1): \t \n \v \f \r, the separators \x1c-\x1f, the
    space, NEL (U+0085) and NO-BREAK SPACE (U+00A0). *)
Definition isspace (c : ascii) : bool :=
  let n := nat_of_ascii c in
  ((9 <=? n)%nat && (n <=? 13)%nat) || ((28 <=? n)%nat && (n <=? 32)%nat)
  || (n =? 133)%nat || (n =? 160)%nat.

Fixpoint lstrip (s : string) : string :=
  match s with
  | EmptyString => EmptyString
  | String c r => if isspace c then lstrip r else s
  end.

Definition rstrip (s : string) : string :=
  string_of_list_ascii
    (rev (list_ascii_of_string (lstrip (string_of_list_ascii
      (rev (list_ascii_of_string s)))))).

(** [s.strip()] *)
Definition strip (s : string) : string := rstrip (lstrip s).

(** [s.split(sep)] for a one-character separator: always at least one
    piece, empty pieces kept. *)
Fixpoint split_acc (sep : ascii) (s : string) (cur : string) : list string :=
  match s with
  | EmptyString => [cur]
  | String c r =>
      if Ascii.eqb c sep then cur :: split_acc sep r EmptyString
      else split_acc sep r (cur ++ String c EmptyString)
  end.

Definition split (sep : ascii) (s : string) : list string :=
  split_acc sep s EmptyString.

(** [s.find(pat)]: index of the first occurrence, or -1 *)
Definition find (s pat : string) : Z :=
  match String.index 0 pat s with
  | Some i => Z.of_nat i
  | None => (-1)%Z
  end.

(** [s[i:]] for [0 <= i] *)
Definition slice_from (s : string) (i : nat) : string :=
  substring i (String.length s - i)%nat s.

(** [ch in s] *)
Definition contains (ch : ascii) (s : string) : bool :=
  existsb (fun c => Ascii.eqb c ch) (list_ascii_of_string s).

(** truthiness of a string *)
Definition truthy (s : string) : bool :=
  match s with EmptyString => false | _ => true end.

End Py.

(* ================================================================= *)
(** ** Classifier: response parsing (classify_image_with_ollama, 171-193) *)

Module Classifier.

(** [[tag.strip() for tag in text.split(',') if tag.strip()]] *)
Definition strip_split (text : string) : list string :=
  map Py.strip
    (filter (fun t => Py.truthy (Py.strip t)) (Py.split "," text)).

(** The parsing block of the status-200 branch, from
    [tags_start = response_text.find("TAGS:")] to [return tags]. *)
Definition parse_tags (response_text : string) : list string :=
  let tags_start := Py.find response_text "TAGS:" in
  let tags :=
    if (0 <=? tags_start)%Z then
      let tags_text :=
        Py.strip (Py.slice_from response_text (Z.to_nat tags_start + 5)%nat) in
      strip_split tags_text
    else strip_split response_text in
  let tags := filter (fun tag => Py.truthy tag && negb (Py.contains " " tag)) tags in
  match tags with
  | [] => ["uncategorized"]
  | _ => tags
  end.

End Classifier.


(* ================================================================= *)
(** ** Classifier: request and retry (classify_image_with_ollama) *)

Module Ollama.

(** The value stored under the ["response"] key of a JSON object. *)
Inductive json_val := JStr (s : string) | JOther.

(** The body of an HTTP reply as seen by [response.json()]. *)
Inductive body :=
| BodyNotJson                             (* not parseable as JSON *)
| BodyNotObject                           (* JSON, but not an object *)
| BodyObject (response : option json_val). (* object; the "response" entry *)

(** What [requests.post(...)] does on one call. *)
Inductive reply :=
| TransportError                       (* raises a RequestException *)
| HttpReply (status_code : Z) (b : body).

(** The environment of one call: whether [open(image_path, 'rb')]
    succeeds and what the endpoint does. *)
Record attempt := { image_readable : bool; reply_of : reply }.

(** Python exceptions, split as the two [except] clauses split them. *)
Inductive exc := RequestException | OtherException.

(** Observable effects of one classification. *)
Inductive event := Call | Sleep (secs : Z).

(** Result of the body of the [try] block, up to the recursive call. *)
Inductive try_result :=
| Parsed (tags : list string)   (* status 200, parsed *)
| NonSuccess                    (* status <> 200: the [else] branch *)
| Raised (e : exc).

Definition attempt_body (a : attempt) : try_result :=
  if negb (image_readable a) then Raised OtherException (* open(): OSError *)
  else
    match reply_of a with
    | TransportError => Raised RequestException
    | HttpReply st b =>
        if Z.eqb st 200 then
          match b with
          (* requests >= 2.27: Response.json() raises
             requests.exceptions.JSONDecodeError, a RequestException *)
          | BodyNotJson => Raised RequestException
          (* result.get(...) on a non-dict: AttributeError *)
          | BodyNotObject => Raised OtherException
          | BodyObject None => Parsed (Classifier.parse_tags "")
          | BodyObject (Some (JStr txt)) => Parsed (Classifier.parse_tags txt)
          (* response_text.find(...) on a non-string: AttributeError *)
          | BodyObject (Some JOther) => Raised OtherException
          end
        else NonSuccess
    end.

(** [classify_image_with_ollama(image_path, url, model, retries)];
    [env k] is the environment of the [k]-th call of the recursion. *)
Fixpoint classify (retries : nat) (env : nat -> attempt) (k : nat)
  : list string * list event :=
  match attempt_body (env k) with
  | Parsed tags => (tags, [Call])
  | NonSuccess =>
      match retries with
      | S r => let '(t, tr) := classify r env (S k) in (t, Call :: Sleep 2 :: tr)
      | O => (["uncategorized"], [Call])
      end
  | Raised RequestException =>
      match retries with
      | S r => let '(t, tr) := classify r env (S k) in (t, Call :: Sleep 2 :: tr)
      | O => (["error"], [Call])
      end
  | Raised OtherException => (["error"], [Call])
  end.

(** The call made by [process_images]: default [retries=2]. *)
Definition classify_image_with_ollama (env : nat -> attempt) :=
  classify 2 env 0.

(** An outcome that makes the classifier retry while budget remains. *)
Definition retriable (a : attempt) : bool :=
  match attempt_body a with
  | NonSuccess | Raised RequestException => true
  | _ => false
  end.

(** The answer of a call that ends the recursion without a retry: the
    parsed tags of a 200 reply, or ["error"] from [except Exception]. *)
Definition settled_tags (a : attempt) : list string :=
  match attempt_body a with
  | Parsed tags => tags
  | _ => ["error"]
  end.

(** The trace of [m] retries: a call, then [m] times a 2s sleep and a call. *)
Fixpoint retry_trace (m : nat) : list event :=
  match m with
  | O => [Call]
  | S m' => Call :: Sleep 2 :: retry_trace m'
  end.

End Ollama.


(* ================================================================= *)
(** ** Rendering of Python numbers *)

Module Num.

Fixpoint digits_acc (fuel : nat) (n : Z) (acc : string) : string :=
  match fuel with
  | O => acc
  | S f =>
      let acc' := String (ascii_of_nat (48 + Z.to_nat (n mod 10))) acc in
      if (n / 10 =? 0)%Z then acc' else digits_acc f (n / 10) acc'
  end.

(** [str(n)] for a Python int *)
Definition Z_str (n : Z) : string :=
  let body := digits_acc (S (Z.to_nat (Z.log2 (Z.abs n)))) (Z.abs n) "" in
  if (n <? 0)%Z then "-" ++ body else body.

Fixpoint zeros (k : nat) : string :=
  match k with O => "" | S k' => "0" ++ zeros k' end.

(** ** Binary64 floats *)

(** [2^e] and [10^e] as rationals *)
Definition pow2 (e : Z) : Q :=
  if (0 <=? e)%Z then inject_Z (2 ^ e) else 1 # Z.to_pos (2 ^ (- e)).
Definition pow10 (e : Z) : Q :=
  if (0 <=? e)%Z then inject_Z (10 ^ e) else 1 # Z.to_pos (10 ^ (- e)).

(** [base^k <= a/c], for [a, c > 0] *)
Definition pow_le (base k a c : Z) : bool :=
  if (0 <=? k)%Z then (c * base ^ k <=? a)%Z else (c <=? a * base ^ (- k))%Z.

(** [floor(log2(a/c))] and [floor(log10(a/c))], for [a, c > 0] *)
Definition flog2 (a c : Z) : Z :=
  let k := (Z.log2 a - Z.log2 c)%Z in if pow_le 2 k a c then k else (k - 1)%Z.
Definition ndigits (z : Z) : Z := Z.of_nat (String.length (Z_str z)).
Definition flog10 (a c : Z) : Z :=
  let k := (ndigits a - ndigits c)%Z in if pow_le 10 k a c then k else (k - 1)%Z.

(** [floor(q)] *)
Definition qfloor (q : Q) : Z := (Qnum q / Zpos (Qden q))%Z.

(** [n/d] rounded to the nearest integer, ties to even, for [n >= 0, d > 0] *)
Definition round_half_even (n d : Z) : Z :=
  let q := (n / d)%Z in
  match Z.compare (2 * (n mod d)) d with
  | Lt => q
  | Gt => (q + 1)%Z
  | Eq => if Z.even q then q else (q + 1)%Z
  end.

(** The binary64 value nearest to [a/c > 0], ties to an even mantissa,
    as [m * 2^e] with [m < 2^53] and [e >= -1074] (subnormals included);
    [None] when it rounds to [2^1024] or more (out of range). *)
Definition round_pos (a c : Z) : option (Z * Z) :=
  let e := Z.max (flog2 a c - 52) (-1074) in
  let m := if (0 <=? e)%Z then round_half_even a (c * 2 ^ e)
           else round_half_even (a * 2 ^ (- e)) c in
  let '(m, e) := if (m =? 2 ^ 53)%Z then (2 ^ 52, e + 1)%Z else (m, e) in
  if (971 <? e)%Z then None else Some (m, e).

(** A Python float: [Fl neg m e] is [(-1)^neg * m * 2^e] (signed zeros
    included), then the infinities and NaN. *)
Inductive flt := Fl (neg : bool) (m e : Z) | FInf (neg : bool) | FNaN.

Definition fl_mag (m e : Z) : Q := inject_Z m * pow2 e.

Definition fl_val (neg : bool) (m e : Z) : Q :=
  if neg then - fl_mag m e else fl_mag m e.

(** [float(x)] of an exact rational (an int or a Fraction): correctly
    rounded, ties to even; [None]: OverflowError. *)
Definition float_of_Q (q : Q) : option flt :=
  let a := Qnum q in
  if (a =? 0)%Z then Some (Fl false 0 0)
  else match round_pos (Z.abs a) (Zpos (Qden q)) with
       | Some (m, e) => Some (Fl (a <? 0)%Z m e)
       | None => None
       end.

(** [x + y] on floats: the exact sum rounded to nearest, ties to even,
    overflowing to an infinity; an exact zero sum is [-0.0] only when
    both operands are negative zeros. *)
Definition fadd (x y : flt) : flt :=
  match x, y with
  | FNaN, _ | _, FNaN => FNaN
  | FInf a, FInf b => if Bool.eqb a b then FInf a else FNaN
  | FInf a, _ => FInf a
  | _, FInf b => FInf b
  | Fl a m1 e1, Fl b m2 e2 =>
      let s := Qred (fl_val a m1 e1 + fl_val b m2 e2) in
      if (Qnum s =? 0)%Z then Fl (a && b) 0 0
      else match round_pos (Z.abs (Qnum s)) (Zpos (Qden s)) with
           | Some (m, e) => Fl (Qnum s <? 0)%Z m e
           | None => FInf (Qnum s <? 0)%Z
           end
  end.

(** [-x] on floats *)
Definition fneg (x : flt) : flt :=
  match x with
  | Fl a m e => Fl (negb a) m e
  | FInf a => FInf (negb a)
  | FNaN => FNaN
  end.

(** ** [repr] of a float (Python's [float_repr_style = 'short']) *)

(** The decimals that [float(.)] maps back to [m * 2^e]: the rounding
    interval, its ends included when [m] is even. *)
Definition in_window (m e : Z) (x : Q) : bool :=
  let low := (if ((m =? 2 ^ 52) && (-1074 <? e))%Z then (4 * m - 1) # 4
              else (2 * m - 1) # 2) * pow2 e in
  let high := ((2 * m + 1) # 2) * pow2 e in
  if Z.even m then Qle_bool low x && Qle_bool x high
  else negb (Qle_bool x low) && negb (Qle_bool high x).

(** the p-significant-digit decimals next to [v = m * 2^e] (at scale
    [10^s], s = floor(log10 v) - p + 1) that lie in the window: the one
    nearest to v, ties to an even last digit, as (digits, scale) *)
Definition pick (m e d10 p : Z) : option (Z * Z) :=
  let v := fl_mag m e in
  let s := (d10 - p + 1)%Z in
  let F := qfloor (v / pow10 s) in
  let xF := inject_Z F * pow10 s in
  let xC := inject_Z (F + 1) * pow10 s in
  match in_window m e xF, in_window m e xC with
  | true, true =>
      match Qcompare (v - xF) (xC - v) with
      | Lt => Some (F, s)
      | Gt => Some ((F + 1)%Z, s)
      | Eq => if Z.even F then Some (F, s) else Some ((F + 1)%Z, s)
      end
  | true, false => Some (F, s)
  | false, true => Some ((F + 1)%Z, s)
  | false, false => None
  end.

(** the shortest such decimal, trying 1, 2, ..., 17 significant digits
    (17 always suffice) *)
Fixpoint shortest (m e d10 : Z) (ps : list Z) : Z * Z :=
  match ps with
  | [] => (qfloor (fl_mag m e / pow10 (d10 - 16)), (d10 - 16)%Z)
  | p :: ps' =>
      match pick m e d10 p with
      | Some r => r
      | None => shortest m e d10 ps'
      end
  end.

Fixpoint rstrip_zeros_l (l : list ascii) : list ascii :=
  match l with
  | "0"%char :: r => rstrip_zeros_l r
  | _ => l
  end.

(** [_Py_dg_dtoa(x, 0, ...)] for [x = m * 2^e > 0]: the shortest digit
    string that reads back as x, without trailing zeros, and [decpt]
    with [x = 0.digits * 10^decpt] *)
Definition dtoa (m e : Z) : string * Z :=
  let v := fl_mag m e in
  let d10 := flog10 (Qnum v) (Zpos (Qden v)) in
  let '(X, s) := shortest m e d10 (map Z.of_nat (seq 1 17)) in
  let ds := Z_str X in
  (string_of_list_ascii (rev (rstrip_zeros_l (rev (list_ascii_of_string ds)))),
   (s + Z.of_nat (String.length ds))%Z).

(** [format_float_short] with type 'r' and [Py_DTSF_ADD_DOT_0]: exponent
    form when [decpt <= -4] or [decpt > 16], else positional with at
    least one digit after the point *)
Definition format_r (ds : string) (decpt : Z) : string :=
  let n := String.length ds in
  if ((decpt <=? -4) || (16 <? decpt))%Z then
    let x := (decpt - 1)%Z in
    substring 0 1 ds
    ++ (if (1 <? n)%nat then "." ++ substring 1 (n - 1) ds else "")
    ++ "e" ++ (if (x <? 0)%Z then "-" else "+")
    ++ (if (Z.abs x <? 10)%Z then "0" else "") ++ Z_str (Z.abs x)
  else if (decpt <=? 0)%Z then "0." ++ zeros (Z.to_nat (- decpt)) ++ ds
  else if (n <=? Z.to_nat decpt)%nat then ds ++ zeros (Z.to_nat decpt - n) ++ ".0"
  else substring 0 (Z.to_nat decpt) ds ++ "." ++ substring (Z.to_nat decpt) n ds.

(** [repr(x)] (and [str(x)]) of a float *)
Definition flt_repr (x : flt) : string :=
  match x with
  | FNaN => "nan"
  | FInf neg => if neg then "-inf" else "inf"
  | Fl neg m e =>
      (if neg then "-" else "")
      ++ (if (m =? 0)%Z then "0.0" else let '(ds, decpt) := dtoa m e in format_r ds decpt)
  end.

(** [str(float(q))] of an exact rational (an int or an IFDRational);
    [None]: OverflowError *)
Definition float_repr (q : Q) : option string := option_map flt_repr (float_of_Q q).

(** [int(q)]: truncation toward zero *)
Definition trunc (q : Q) : Z := Z.quot (Qnum q) (Zpos (Qden q)).

End Num.

Example float_repr_2 : Num.float_repr 2 = Some "2.0".
Proof. vm_compute. reflexivity. Qed.

Example float_repr_2_8 : Num.float_repr (28 # 10) = Some "2.8".
Proof. vm_compute. reflexivity. Qed.

Example float_repr_4_3 : Num.float_repr (4 # 3) = Some "1.3333333333333333".
Proof. vm_compute. reflexivity. Qed.

Example float_repr_1e16 : Num.float_repr (inject_Z (10 ^ 16)) = Some "1e+16".
Proof. vm_compute. reflexivity. Qed.


(* ================================================================= *)
(** ** Metadata extraction (extract_image_metadata) *)

Module Meta.

(** EXIF values as PIL hands them out: strings, ints, rationals
    ([IFDRational], exact), bytes, tuples, and the GPS sub-dictionary. *)
Inductive pyval :=
| PyStr (s : string)
| PyInt (z : Z)
| PyRat (q : Q)
| PyBytes (s : string)
| PyTuple (vs : list pyval)
| PyDict (kvs : list (Z * pyval)).

(** Numeric value for comparisons and arithmetic; [None]: TypeError. *)
Definition py_num (v : pyval) : option Q :=
  match v with
  | PyInt z => Some (inject_Z z)
  | PyRat q => Some q
  | _ => None
  end.

(** The EXIF dictionary, keyed by tag name ([ExifTags.TAGS[k]]). *)
Definition exif_dict := list (string * pyval).

Definition lookup (k : string) (e : exif_dict) : option pyval :=
  match find (fun kv => String.eqb (fst kv) k) e with
  | Some (_, v) => Some v
  | None => None
  end.

Definition dlookup (k : Z) (d : list (Z * pyval)) : option pyval :=
  match find (fun kv => Z.eqb (fst kv) k) d with
  | Some (_, v) => Some v
  | None => None
  end.

(** Helpers of [repr]: two lowercase hex digits *)
Definition hexdigit (n : nat) : ascii :=
  if (n <? 10)%nat then ascii_of_nat (48 + n) else ascii_of_nat (87 + n).
Definition hex2 (c : ascii) : string :=
  let n := nat_of_ascii c in
  String "\"%char (String "x"%char
    (String (hexdigit (n / 16)) (String (hexdigit (n mod 16)) EmptyString))).

Definition dquote : ascii := "034"%char.
Definition squote : ascii := "039"%char.

Definition has_char (c : ascii) (s : string) : bool :=
  existsb (Ascii.eqb c) (list_ascii_of_string s).

(** the quote [repr] puts around [s]: a double quote when [s] holds a
    single quote and no double quote, a single quote otherwise *)
Definition repr_quote (s : string) : ascii :=
  if has_char squote s && negb (has_char dquote s) then dquote else squote.

(** [str.isprintable] on a Latin-1 code point: the C0 controls, DEL, the
    C1 controls, NO-BREAK SPACE and SOFT HYPHEN are not printable *)
Definition latin1_printable (n : nat) : bool :=
  negb ((n <? 32)%nat || ((127 <=? n)%nat && (n <=? 160)%nat) || (n =? 173)%nat).

(** [repr(s)] of a str *)
Definition str_repr (s : string) : string :=
  let q := repr_quote s in
  let esc c :=
    let n := nat_of_ascii c in
    if Ascii.eqb c q || Ascii.eqb c "\"%char then String "\"%char (String c EmptyString)
    else if (n =? 9)%nat then "\t"
    else if (n =? 10)%nat then "\n"
    else if (n =? 13)%nat then "\r"
    else if latin1_printable n then String c EmptyString
    else hex2 c in
  String q (String.concat "" (map esc (list_ascii_of_string s)) ++ String q EmptyString).

(** [repr(b)] of a bytes object *)
Definition bytes_repr (s : string) : string :=
  let q := repr_quote s in
  let esc c :=
    let n := nat_of_ascii c in
    if Ascii.eqb c q || Ascii.eqb c "\"%char then String "\"%char (String c EmptyString)
    else if (n =? 9)%nat then "\t"
    else if (n =? 10)%nat then "\n"
    else if (n =? 13)%nat then "\r"
    else if (n <? 32)%nat || (127 <=? n)%nat then hex2 c
    else String c EmptyString in
  "b" ++ String q (String.concat "" (map esc (list_ascii_of_string s)) ++ String q EmptyString).

Fixpoint all_some {A : Type} (l : list (option A)) : option (list A) :=
  match l with
  | [] => Some []
  | Some x :: r => option_map (cons x) (all_some r)
  | None :: _ => None
  end.

(** [repr(v)]; [None] when it raises (the float conversion of a rational
    of [2^1024] or more: OverflowError) *)
Fixpoint py_repr (v : pyval) : option string :=
  match v with
  | PyStr s => Some (str_repr s)
  | PyInt z => Some (Num.Z_str z)
  | PyRat q => Num.float_repr q (* IFDRational.__repr__: str(float(self._val)) *)
  | PyBytes s => Some (bytes_repr s)
  | PyTuple vs =>
      option_map (fun ss => "(" ++ String.concat ", " ss
                              ++ (match vs with [_] => "," | _ => "" end) ++ ")")
                 (all_some (map py_repr vs))
  | PyDict kvs =>
      option_map (fun ss => "{" ++ String.concat ", " ss ++ "}")
                 (all_some (map (fun kv => match kv with
                                           | (k, x) => option_map (fun r => Num.Z_str k ++ ": " ++ r) (py_repr x)
                                           end) kvs))
  end.

(** [str(v)] / [f"{v}"]: the str itself for a str, [repr] otherwise *)
Definition py_str (v : pyval) : option string :=
  match v with
  | PyStr s => Some s
  | _ => py_repr v
  end.

(** What [img._getexif()] gives. *)
Inductive exif_data :=
| NoExif                    (* no _getexif, or it returns None / {} *)
| ExifRaises                (* _getexif() raises on corrupt data *)
| Exif (e : exif_dict).

(** The image file: [img.size] when [Image.open] succeeds, and its EXIF. *)
Record image_file := { img_size : option (Z * Z); img_exif : exif_data }.

Record metadata := {
  date_taken : option string;
  camera_model : option pyval;
  lens : option pyval;
  aperture : option string;
  shutter_speed : option string;
  iso : option string;
  focal_length : option string;
  gps : option string;
  width : option Z;
  height : option Z }.

Definition empty_metadata : metadata :=
  {| date_taken := None; camera_model := None; lens := None; aperture := None;
     shutter_speed := None; iso := None; focal_length := None; gps := None;
     width := None; height := None |}.

(** One statement of the [try] block: [Some m'] when it completes with the
    dictionary [m'], [None] when it raises. *)
Definition stmt := metadata -> option metadata.

(** A [try] block whose [except Exception] only logs: the statements run
    in order and the first exception ends the block, keeping [metadata]
    as it was then. *)
Fixpoint run_try (ss : list stmt) (m : metadata) : metadata :=
  match ss with
  | [] => m
  | s :: ss' =>
      match s m with
      | Some m' => run_try ss' m'
      | None => m
      end
  end.

Section Extract.

(** [datetime.datetime.strptime(s, "%Y:%m:%d %H:%M:%S").isoformat()];
    [None] when strptime raises ValueError. *)
Variable strptime_iso : string -> option string.

Definition set_date m x :=
  {| date_taken := x; camera_model := camera_model m; lens := lens m;
     aperture := aperture m; shutter_speed := shutter_speed m; iso := iso m;
     focal_length := focal_length m; gps := gps m; width := width m;
     height := height m |}.
Definition set_camera m x :=
  {| date_taken := date_taken m; camera_model := x; lens := lens m;
     aperture := aperture m; shutter_speed := shutter_speed m; iso := iso m;
     focal_length := focal_length m; gps := gps m; width := width m;
     height := height m |}.
Definition set_lens m x :=
  {| date_taken := date_taken m; camera_model := camera_model m; lens := x;
     aperture := aperture m; shutter_speed := shutter_speed m; iso := iso m;
     focal_length := focal_length m; gps := gps m; width := width m;
     height := height m |}.
Definition set_aperture m x :=
  {| date_taken := date_taken m; camera_model := camera_model m; lens := lens m;
     aperture := x; shutter_speed := shutter_speed m; iso := iso m;
     focal_length := focal_length m; gps := gps m; width := width m;
     height := height m |}.
Definition set_shutter m x :=
  {| date_taken := date_taken m; camera_model := camera_model m; lens := lens m;
     aperture := aperture m; shutter_speed := x; iso := iso m;
     focal_length := focal_length m; gps := gps m; width := width m;
     height := height m |}.
Definition set_iso m x :=
  {| date_taken := date_taken m; camera_model := camera_model m; lens := lens m;
     aperture := aperture m; shutter_speed := shutter_speed m; iso := x;
     focal_length := focal_length m; gps := gps m; width := width m;
     height := height m |}.
Definition set_focal m x :=
  {| date_taken := date_taken m; camera_model := camera_model m; lens := lens m;
     aperture := aperture m; shutter_speed := shutter_speed m; iso := iso m;
     focal_length := x; gps := gps m; width := width m;
     height := height m |}.
Definition set_gps m x :=
  {| date_taken := date_taken m; camera_model := camera_model m; lens := lens m;
     aperture := aperture m; shutter_speed := shutter_speed m; iso := iso m;
     focal_length := focal_length m; gps := x; width := width m;
     height := height m |}.

(** lines 77-84: the inner [try] catches only ValueError *)
Definition step_date (e : exif_dict) : stmt := fun m =>
  match lookup "DateTimeOriginal" e with
  | None => Some m
  | Some (PyStr s) =>
      match strptime_iso s with
      | Some iso_s => Some (set_date m (Some iso_s))
      | None => Some m
      end
  | Some _ => None (* strptime on a non-str: TypeError *)
  end.

(** lines 87-90 *)
Definition step_camera (e : exif_dict) : stmt := fun m =>
  match lookup "Make" e, lookup "Model" e with
  | Some mk, Some md =>
      match py_str mk, py_str md with
      | Some a, Some b => Some (set_camera m (Some (PyStr (Py.strip (a ++ " " ++ b)))))
      | _, _ => None (* str() raises *)
      end
  | None, Some md => Some (set_camera m (Some md))
  | _, None => Some m
  end.

(** lines 93-94 *)
Definition step_lens (e : exif_dict) : stmt := fun m =>
  match lookup "LensModel" e with
  | Some v => Some (set_lens m (Some v))
  | None => Some m
  end.

(** lines 97-98 *)
Definition step_aperture (e : exif_dict) : stmt := fun m =>
  match lookup "FNumber" e with
  | None => Some m
  | Some v =>
      match py_num v with
      | None => None (* '>' not supported: TypeError *)
      | Some q =>
          if Qlt_le_dec 0 q then
            match py_str v with
            | Some a => Some (set_aperture m (Some ("f/" ++ a)))
            | None => None
            end
          else Some m
      end
  end.

(** lines 100-105 *)
Definition step_exposure (e : exif_dict) : stmt := fun m =>
  match lookup "ExposureTime" e with
  | None => Some m
  | Some v =>
      match py_num v with
      | None => None (* '<' not supported: TypeError *)
      | Some t =>
          if Qlt_le_dec t 1 then
            if Qeq_bool t 0 then None (* 1/exp_time: ZeroDivisionError *)
            else Some (set_shutter m (Some ("1/" ++ Num.Z_str (Num.trunc (/ t)) ++ "s")))
          else match py_str v with
               | Some a => Some (set_shutter m (Some (a ++ "s")))
               | None => None (* str(float(t)): OverflowError *)
               end
      end
  end.

(** lines 107-108 *)
Definition step_iso (e : exif_dict) : stmt := fun m =>
  match lookup "ISOSpeedRatings" e with
  | Some v =>
      match py_str v with
      | Some a => Some (set_iso m (Some ("ISO " ++ a)))
      | None => None
      end
  | None => Some m
  end.

(** lines 110-111 *)
Definition step_focal (e : exif_dict) : stmt := fun m =>
  match lookup "FocalLength" e with
  | Some v =>
      match py_str v with
      | Some a => Some (set_focal m (Some (a ++ "mm")))
      | None => None
      end
  | None => Some m
  end.

(** [x == k] for an int [k], as [in] compares tuple elements *)
Definition eq_int (k : Z) (v : pyval) : bool :=
  match v with
  | PyInt z => Z.eqb z k
  | PyRat q => Qeq_bool q (inject_Z k)
  | _ => false
  end.

(** [k in v] for an int [k]; [None]: TypeError *)
Definition contains (v : pyval) (k : Z) : option bool :=
  match v with
  | PyDict kvs => Some (if dlookup k kvs then true else false)
  | PyTuple vs => Some (existsb (eq_int k) vs)
  | PyBytes s =>
      if ((0 <=? k) && (k <? 256))%Z
      then Some (existsb (fun c => Z.eqb (Z.of_nat (nat_of_ascii c)) k) (list_ascii_of_string s))
      else None (* ValueError: byte must be in range(0, 256) *)
  | _ => None
  end.

(** [v[k]] for an int [k]; [None]: IndexError, KeyError or TypeError *)
Definition index (v : pyval) (k : Z) : option pyval :=
  let pos n := if (k <? 0)%Z then (k + Z.of_nat n)%Z else k in
  let inb n := ((0 <=? pos n) && (pos n <? Z.of_nat n))%Z in
  match v with
  | PyDict kvs => dlookup k kvs
  | PyTuple vs =>
      if inb (length vs) then nth_error vs (Z.to_nat (pos (length vs))) else None
  | PyBytes s =>
      if inb (String.length s) then
        option_map (fun c => PyInt (Z.of_nat (nat_of_ascii c)))
                   (String.get (Z.to_nat (pos (String.length s))) s)
      else None
  | PyStr s =>
      if inb (String.length s) then
        option_map (fun c => PyStr (String c EmptyString))
                   (String.get (Z.to_nat (pos (String.length s))) s)
      else None
  | _ => None
  end.

(** The numbers of the GPS arithmetic: an int, a [Fraction] (what
    arithmetic on an IFDRational gives), or a float. *)
Inductive pnum := NInt (z : Z) | NFrac (q : Q) | NFlt (x : Num.flt).

Definition to_pnum (v : pyval) : option pnum :=
  match v with
  | PyInt z => Some (NInt z)
  | PyRat q => Some (NFrac q)
  | _ => None (* '/' on a str, bytes, tuple or dict: TypeError *)
  end.

(** [float(x)]; [None]: OverflowError *)
Definition to_float (x : pnum) : option Num.flt :=
  match x with
  | NInt z => Num.float_of_Q (inject_Z z)
  | NFrac q => Num.float_of_Q q
  | NFlt f => Some f
  end.

(** [x / k] for a positive int [k]: int / int is the correctly rounded
    float quotient, a Fraction divided by an int stays a Fraction *)
Definition div_const (x : pnum) (k : positive) : option pnum :=
  match x with
  | NInt z => option_map NFlt (Num.float_of_Q (z # k))
  | NFrac q => Some (NFrac (q / inject_Z (Zpos k)))
  | NFlt f =>
      match f with
      | Num.Fl neg m e =>
          match Num.float_of_Q (Num.fl_mag m e / inject_Z (Zpos k)) with
          | Some (Num.Fl _ m' e') => Some (NFlt (Num.Fl neg m' e'))
          | _ => Some (NFlt (Num.FInf neg))
          end
      | _ => Some (NFlt f) (* inf / k, nan / k *)
      end
  end.

(** [x + y]: exact on ints and Fractions, a float as soon as one side is
    a float (the other converted with [float()], which may overflow) *)
Definition padd (x y : pnum) : option pnum :=
  match x, y with
  | NInt a, NInt b => Some (NInt (a + b))
  | NInt a, NFrac b => Some (NFrac (inject_Z a + b))
  | NFrac a, NInt b => Some (NFrac (a + inject_Z b))
  | NFrac a, NFrac b => Some (NFrac (a + b))
  | _, _ =>
      match to_float x, to_float y with
      | Some fx, Some fy => Some (NFlt (Num.fadd fx fy))
      | _, _ => None
      end
  end.

Definition pneg (x : pnum) : pnum :=
  match x with
  | NInt z => NInt (- z)
  | NFrac q => NFrac (- q)
  | NFlt f => NFlt (Num.fneg f)
  end.

(** [f"{x}"]: a Fraction prints as "n" or "n/d" in lowest terms *)
Definition pstr (x : pnum) : string :=
  match x with
  | NInt z => Num.Z_str z
  | NFrac q =>
      let q := Qred q in
      if (Zpos (Qden q) =? 1)%Z then Num.Z_str (Qnum q)
      else Num.Z_str (Qnum q) ++ "/" ++ Num.Z_str (Zpos (Qden q))
  | NFlt f => Num.flt_repr f
  end.

(** [c[0] + c[1]/60 + c[2]/3600]; [None] when indexing or arithmetic
    raises *)
Definition dms (c : pyval) : option pnum :=
  match index c 0, index c 1, index c 2 with
  | Some c0, Some c1, Some c2 =>
      match to_pnum c0, to_pnum c1, to_pnum c2 with
      | Some a, Some b, Some d =>
          match div_const b 60, div_const d 3600 with
          | Some b', Some d' =>
              match padd a b' with
              | Some s => padd s d'
              | None => None
              end
          | _, _ => None
          end
      | _, _, _ => None
      end
  | _, _, _ => None
  end.

Definition is_str (v : option pyval) (s : string) : bool :=
  match v with Some (PyStr s') => String.eqb s' s | _ => false end.

(** lines 114-127 *)
Definition step_gps (e : exif_dict) : stmt := fun m =>
  match lookup "GPSInfo" e with
  | None => Some m
  | Some g =>
      match contains g 2 with
      | None => None (* 'in' on a non-container: TypeError *)
      | Some false => Some m
      | Some true =>
          match contains g 4 with
          | None => None
          | Some false => Some m
          | Some true =>
              match index g 2, index g 4, index g 1, index g 3 with
              | Some lat, Some lon, Some lat_ref, Some lon_ref =>
                  match dms lat, dms lon with
                  | Some la, Some lo =>
                      let la := if is_str (Some lat_ref) "S" then pneg la else la in
                      let lo := if is_str (Some lon_ref) "W" then pneg lo else lo in
                      Some (set_gps m (Some (pstr la ++ "," ++ pstr lo)))
                  | _, _ => None
                  end
              | _, _, _, _ => None (* KeyError / IndexError *)
              end
          end
      end
  end.

Definition exif_steps (e : exif_dict) : list stmt :=
  [step_date e; step_camera e; step_lens e; step_aperture e;
   step_exposure e; step_iso e; step_focal e; step_gps e].

Definition extract_image_metadata (img : image_file) : metadata :=
  match img_size img with
  | None => empty_metadata (* Image.open raises: all fields stay None *)
  | Some (w, h) =>
      let m := {| date_taken := None; camera_model := None; lens := None;
                  aperture := None; shutter_speed := None; iso := None;
                  focal_length := None; gps := None;
                  width := Some w; height := Some h |} in
      match img_exif img with
      | NoExif | ExifRaises => m
      | Exif [] => m (* an empty dict is falsy *)
      | Exif e => run_try (exif_steps e) m
      end
  end.

End Extract.

Local Open Scope nat_scope.

(** A concrete strptime for examples: exactly "YYYY:MM:DD HH:MM:SS" with
    digits, months 1-12, days 1-31, hours < 24, minutes and seconds < 60. *)
Definition digit (c : ascii) : option Z :=
  let n := nat_of_ascii c in
  if ((48 <=? n) && (n <=? 57))%nat then Some (Z.of_nat n - 48)%Z else None.

Fixpoint num_of (l : list ascii) : option Z :=
  match l with
  | [] => Some 0%Z
  | c :: r =>
      match digit c, num_of r with
      | Some d, Some v => Some (d * 10 ^ Z.of_nat (length r) + v)%Z
      | _, _ => None
      end
  end.

Definition strptime_strict (s : string) : option string :=
  let f i n := num_of (list_ascii_of_string (substring i n s)) in
  if (String.length s =? 19)%nat
     && String.eqb (substring 4 1 s) ":" && String.eqb (substring 7 1 s) ":"
     && String.eqb (substring 10 1 s) " " && String.eqb (substring 13 1 s) ":"
     && String.eqb (substring 16 1 s) ":" then
    match f 0 4, f 5 2, f 8 2, f 11 2, f 14 2, f 17 2 with
    | Some _, Some mo, Some d, Some hh, Some mi, Some ss =>
        if ((1 <=? mo) && (mo <=? 12) && (1 <=? d) && (d <=? 31) && (hh <? 24)
            && (mi <? 60) && (ss <? 60))%Z then
          Some (substring 0 4 s ++ "-" ++ substring 5 2 s ++ "-" ++ substring 8 2 s
                ++ "T" ++ substring 11 8 s)
        else None
    | _, _, _, _, _, _ => None
    end
  else None.

(** Helpers for stating properties of the extractor. *)

(** an image that opens with size [w]x[h] and has the EXIF dictionary [e] *)
Definition exif_image (w h : Z) (e : exif_dict) : image_file :=
  {| img_size := Some (w, h); img_exif := Exif e |}.

(** the dictionary [metadata] right after [img.size] is read *)
Definition start_meta (w h : Z) : metadata :=
  {| date_taken := None; camera_model := None; lens := None; aperture := None;
     shutter_speed := None; iso := None; focal_length := None; gps := None;
     width := Some w; height := Some h |}.

(** the field set by the [j]-th statement of the EXIF part is absent *)
Definition field_absent (j : nat) (m : metadata) : Prop :=
  match j with
  | 0 => date_taken m = None
  | 1 => camera_model m = None
  | 2 => lens m = None
  | 3 => aperture m = None
  | 4 => shutter_speed m = None
  | 5 => iso m = None
  | 6 => focal_length m = None
  | 7 => gps m = None
  | _ => True
  end.

(** the EXIF dictionary without the tag [k] *)
Definition remove_key (k : string) (e : exif_dict) : exif_dict :=
  filter (fun kv => negb (String.eqb (fst kv) k)) e.

(** [Some m'] when every statement completes, [None] when one raises *)
Fixpoint run_all (ss : list stmt) (m : metadata) : option metadata :=
  match ss with
  | [] => Some m
  | s :: ss' =>
      match s m with
      | Some m' => run_all ss' m'
      | None => None
      end
  end.


End Meta.


(* ================================================================= *)
(** ** Catalog tables and the import pipeline (process_images) *)

Module Pipeline.

(** A row of the [images] table; [tags] is the decoded JSON list. *)
Record image_row := {
  row_id : Z;
  filename : string;
  original_path : string;
  hash : string;
  thumbnail_path : string;
  tags : list string;
  meta : Meta.metadata }.

(** The database: the [images] rows in insertion order, the [tags] table
    as (name, count) pairs, and the next AUTOINCREMENT id. *)
Record db := {
  images : list image_row;
  tags_tbl : list (string * Z);
  next_id : Z }.

Definition empty_db : db := {| images := []; tags_tbl := []; next_id := 1 |}.

Definition hash_exists (h : string) (d : db) : bool :=
  existsb (fun r => String.eqb (hash r) h) (images d).

(** [INSERT INTO images ...]: [None] is the IntegrityError of the
    UNIQUE constraint on [hash]. *)
Definition insert_image (d : db) (mk : Z -> image_row) : option db :=
  let r := mk (next_id d) in
  if hash_exists (hash r) d then None
  else Some {| images := (images d ++ [r])%list; tags_tbl := tags_tbl d;
               next_id := next_id d + 1 |}.

Definition tag_exists (t : string) (tbl : list (string * Z)) : bool :=
  existsb (fun kv => String.eqb (fst kv) t) tbl.

(** [UPDATE tags SET count = count + delta WHERE name = ?] *)
Definition tag_add (t : string) (delta : Z) (tbl : list (string * Z)) :=
  map (fun kv => if String.eqb (fst kv) t then (fst kv, snd kv + delta)%Z else kv) tbl.

(** [try: INSERT INTO tags (name, count) VALUES (?, 1)
     except IntegrityError: UPDATE tags SET count = count + 1 ...] *)
Definition bump_tag (tbl : list (string * Z)) (t : string) :=
  if tag_exists t tbl then tag_add t 1 tbl else (tbl ++ [(t, 1%Z)])%list.

(** the stored count of a tag; a missing row counts 0 *)
Definition tag_count (t : string) (tbl : list (string * Z)) : Z :=
  match find (fun kv => String.eqb (fst kv) t) tbl with
  | Some (_, c) => c
  | None => 0%Z
  end.

(** number of image rows whose tag list contains [t] *)
Definition records_with (t : string) (d : db) : Z :=
  Z.of_nat (length (filter (fun r => existsb (String.eqb t) (tags r)) (images d))).

(** [os.path.basename] on a POSIX host ([posixpath]): what follows the
    last '/'.  The pipeline below is modelled on such a host; the Windows
    variant is [nt_basename]. *)
Fixpoint basename_acc (s cur : string) : string :=
  match s with
  | EmptyString => cur
  | String c r =>
      if Ascii.eqb c "/" then basename_acc r "" else basename_acc r (cur ++ String c "")
  end.
Definition basename (s : string) : string := basename_acc s "".

(** [ntpath]: both slashes separate, and [splitroot] takes off a drive
    ("X:" or a UNC "\\server\share") before the last component is taken. *)
Definition nt_sep (c : ascii) : bool := Ascii.eqb c "/" || Ascii.eqb c "\".

Definition ascii_upper (c : ascii) : ascii :=
  let n := nat_of_ascii c in
  if ((97 <=? n) && (n <=? 122))%nat then ascii_of_nat (n - 32) else c.

(** first separator at an index [>= start] *)
Fixpoint find_sep_from (l : list ascii) (i start : nat) : option nat :=
  match l with
  | [] => None
  | c :: r => if (start <=? i)%nat && nt_sep c then Some i else find_sep_from r (S i) start
  end.

(** length of the drive and root that [ntpath.splitroot] splits off;
    [None] when the whole path is a UNC drive *)
Definition nt_root_len (l : list ascii) : option nat :=
  match l with
  | c0 :: c1 :: _ =>
      if nt_sep c0 then
        if nt_sep c1 then
          let start :=
            if String.eqb (string_of_list_ascii (map ascii_upper (map (fun c => if nt_sep c then "\"%char else c) (firstn 8 l))))
                          "\\?\UNC\" then 8%nat else 2%nat in
          match find_sep_from l 0 start with
          | None => None
          | Some i =>
              match find_sep_from l 0 (S i) with
              | None => None
              | Some j => Some (S j)
              end
          end
        else Some 1%nat
      else if Ascii.eqb c1 ":" then Some 2%nat
      else Some 0%nat
  | [c0] => if nt_sep c0 then Some 1%nat else Some 0%nat
  | [] => Some 0%nat
  end.

(** [ntpath.basename] *)
Definition nt_basename (s : string) : string :=
  let l := list_ascii_of_string s in
  match nt_root_len l with
  | None => ""
  | Some k =>
      string_of_list_ascii (rev (List.fold_left (fun acc c => if nt_sep c then [] else c :: acc)
                                                (skipn k l) []))
  end.

(** A file found by [find_images_in_directory], with what the world does
    with it: its bytes ([None]: open/read raises, so
    [calculate_file_hash] returns None), the image PIL sees in the copy,
    whether [shutil.copy2] raises, and the classifier's environment. *)
Record source_file := {
  path : string;
  content : option string;
  image : Meta.image_file;
  copy_fails : bool;
  ollama_env : nat -> Ollama.attempt }.

(** One call of [update_progress(total, current, status)] (the
    [timestamp] field, [time.time()], is left out). *)
Record progress_write := { w_total : Z; w_current : Z; w_status : string }.

(** The per-item log line of [process_images]. *)
Inductive outcome :=
| HashFailed        (* "Could not hash file" *)
| SkippedDuplicate  (* "Skipping duplicate" *)
| Imported          (* "Processed i/n" *)
| ItemError.        (* "Error processing" *)

Record run_state := {
  st_db : db;
  processed : Z;
  skipped : Z;
  writes : list progress_write;
  outcomes : list (string * outcome) }.

Section Run.

(** [hashlib.sha256(...).hexdigest()] of a file's bytes *)
Variable sha256_hex : string -> string.
Variable strptime_iso : string -> option string.

Definition calculate_file_hash (f : source_file) : option string :=
  option_map sha256_hex (content f).

(** [processed += 1; update_progress(total, processed, "processing")]
    with the item's log line. *)
Definition count_item (total : Z) (f : source_file) (o : outcome) (d : db)
  (skip : Z) (st : run_state) : run_state :=
  {| st_db := d; processed := processed st + 1; skipped := skipped st + skip;
     writes := (writes st ++ [{| w_total := total; w_current := processed st + 1;
                                w_status := "processing" |}])%list;
     outcomes := (outcomes st ++ [(path f, o)])%list |}.

(** The body of [for original_path in batch:] (lines 295-375). *)
Definition process_file (total : Z) (st : run_state) (f : source_file) : run_state :=
  match calculate_file_hash f with
  | None =>
      (* lines 298-300: log and continue *)
      {| st_db := st_db st; processed := processed st; skipped := skipped st;
         writes := writes st; outcomes := (outcomes st ++ [(path f, HashFailed)])%list |}
  | Some file_hash =>
      let secure_name := substring 0 10 file_hash ++ "_" ++ basename (path f) in
      if hash_exists file_hash (st_db st) then
        count_item total f SkippedDuplicate (st_db st) 1 st
      else if copy_fails f then
        count_item total f ItemError (st_db st) 0 st
      else
        let metadata := Meta.extract_image_metadata strptime_iso (image f) in
        let tags := fst (Ollama.classify_image_with_ollama (ollama_env f)) in
        match insert_image (st_db st)
                (fun id => {| row_id := id; filename := secure_name;
                              original_path := path f; hash := file_hash;
                              thumbnail_path := secure_name; tags := tags;
                              meta := metadata |}) with
        | None => count_item total f ItemError (st_db st) 0 st
        | Some d =>
            let d := {| images := images d;
                        tags_tbl := fold_left bump_tag tags (tags_tbl d);
                        next_id := next_id d |} in
            count_item total f Imported d 0 st
        end
  end.

(** [image_files[i:i+batch_size] for i in range(0, total, batch_size)] *)
Fixpoint chunks (fuel bs : nat) (l : list source_file) : list (list source_file) :=
  match fuel with
  | O => []
  | S f =>
      match l with
      | [] => []
      | _ => firstn bs l :: chunks f bs (skipn bs l)
      end
  end.

(** [None]: [range(0, total, 0)] raises ValueError (batch_size = 0), and
    the run dies after the "starting" write. *)
Definition batches (batch_size : Z) (l : list source_file)
  : option (list (list source_file)) :=
  if (0 <? batch_size)%Z then Some (chunks (length l) (Z.to_nat batch_size) l)
  else if (batch_size =? 0)%Z then None
  else Some []. (* a negative step: empty range *)

(** [process_images(...)] on the files found and the existing database. *)
Definition process_images (batch_size : Z) (image_files : list source_file)
  (d0 : db) : run_state :=
  let total_images := Z.of_nat (length image_files) in
  let st0 := {| st_db := d0; processed := 0; skipped := 0;
                writes := [{| w_total := total_images; w_current := 0;
                              w_status := "starting" |}];
                outcomes := [] |} in
  match batches batch_size image_files with
  | None => st0
  | Some bs =>
      let st := fold_left (fun st batch => fold_left (process_file total_images) batch st)
                  bs st0 in
      {| st_db := st_db st; processed := processed st; skipped := skipped st;
         writes := (writes st ++ [{| w_total := total_images; w_current := total_images;
                                     w_status := "completed" |}])%list;
         outcomes := outcomes st |}
  end.


End Run.

(** [update_image_tags(image_id, tags)] of app.py (lines 135-165). *)
Definition update_image_tags (d : db) (image_id : Z) (new_tags : list string) : db :=
  let cur := find (fun r => Z.eqb (row_id r) image_id) (images d) in
  let tbl1 :=
    match cur with
    | Some r =>
        fold_left (fun tbl t => if existsb (String.eqb t) new_tags then tbl
                                else tag_add t (-1) tbl) (tags r) (tags_tbl d)
    | None => tags_tbl d
    end in
  let imgs :=
    map (fun r => if Z.eqb (row_id r) image_id then
                    {| row_id := row_id r; filename := filename r;
                       original_path := original_path r; hash := hash r;
                       thumbnail_path := thumbnail_path r; tags := new_tags;
                       meta := meta r |}
                  else r) (images d) in
  let tbl2 :=
    fold_left (fun tbl t =>
      if tag_exists t tbl then
        match cur with
        | Some r => if existsb (String.eqb t) (tags r) then tbl else tag_add t 1 tbl
        | None => tbl
        end
      else (tbl ++ [(t, 1%Z)])%list) new_tags tbl1 in
  {| images := imgs; tags_tbl := tbl2; next_id := next_id d |}.

(** Stand-in digest for concrete runs; the lemmas about [process_images]
    hold for every digest function. *)
Definition toy_hex (s : string) : string := s.

(** The invariant of the item loop on the progress writes: current
    values sorted and bounded by [processed], none "completed". *)
Definition loop_inv (total : Z) (st : run_state) : Prop :=
  StronglySorted Z.le (map w_current (writes st)) /\
  Forall (fun w => (0 <= w_current w <= processed st)%Z /\ w_total w = total /\
                   w_status w <> "completed") (writes st) /\
  (0 <= processed st)%Z.

(** the outcomes that reach [processed += 1], and [skipped += 1] *)
Definition counts_item (o : outcome) : bool :=
  match o with HashFailed => false | _ => true end.
Definition is_skip (o : outcome) : bool :=
  match o with SkippedDuplicate => true | _ => false end.

(** the row of [u] as seen through [tag_count] and [tag_exists] *)
Definition view (u : string) (tbl : list (string * Z)) : Z * bool :=
  (tag_count u tbl, tag_exists u tbl).

End Pipeline.


(* ================================================================= *)
(** ** File hashing by chunks (calculate_file_hash) *)

Module Hashing.

(** [chunk = f.read(8192); while chunk: file_hash.update(chunk);
    chunk = f.read(8192)]: the chunks handed to [update], in order, for
    the bytes [rest] still unread; the chunk size is [S k'] (8192). *)
Equations read_chunks (k' : nat) (rest : list ascii) : list (list ascii)
  by wf (length rest) lt :=
read_chunks k' [] := [];
read_chunks k' (b :: r) :=
  firstn (S k') (b :: r) :: read_chunks k' (skipn (S k') (b :: r)).
Next Obligation. rewrite length_skipn. simpl. lia. Qed.

Section Digest.

(** [hashlib.sha256()] holds the bytes fed to it so far; [update(chunk)]
    appends [chunk] and [hexdigest()] is the digest of all of them. *)
Variable sha256_hex : list ascii -> string.

Definition update (msg chunk : list ascii) : list ascii := msg ++ chunk.

(** lines 25-37; [None] for a file that cannot be opened or read *)
Definition calculate_file_hash (content : option string) : option string :=
  match content with
  | None => None
  | Some c =>
      Some (sha256_hex (fold_left update (read_chunks 8191 (list_ascii_of_string c)) []))
  end.

End Digest.

End Hashing.

(* ================================================================= *)
(** ** Progress file and liveness check (app.py, is_import_running) *)

Module Progress.

(** The JSON object of import_progress.json; [status] and [timestamp] are
    read with [.get], hence optional. *)
Record progress := {
  total : Z;
  current : Z;
  status : option string;
  timestamp : option Q }.

Inductive progress_file := NoFile | Corrupt | Present (p : progress).

(** [progress.get('status') != 'completed'] *)
Definition not_completed (p : progress) : bool :=
  match status p with
  | Some st => negb (String.eqb st "completed")
  | None => true
  end.

(** [progress.get('timestamp', 0)] *)
Definition last_update (p : progress) : Q :=
  match timestamp p with Some t => t | None => 0 end.

(** [is_import_running()] at time [now]: the answer and the file after. *)
Definition is_import_running (file : progress_file) (now : Q)
  : bool * progress_file :=
  match file with
  | NoFile => (false, NoFile)
  | Corrupt => (false, Corrupt) (* json.load raises: printed, False *)
  | Present p =>
      if not_completed p then
        if Qlt_le_dec (now - last_update p) 300 then (true, Present p)
        else (false, Present {| total := total p; current := current p;
                                status := Some "completed";
                                timestamp := Some now |})
      else (false, Present p)
  end.

(** the file an [update_progress] call writes at time [t] *)
Definition written (w : Pipeline.progress_write) (t : Q) : progress_file :=
  Present {| total := Pipeline.w_total w; current := Pipeline.w_current w;
             status := Some (Pipeline.w_status w); timestamp := Some t |}.

(** the file left by the last of a run's writes, made at time [t] *)
Definition final_file (ws : list Pipeline.progress_write) (t : Q) : progress_file :=
  match rev ws with
  | w :: _ => written w t
  | [] => NoFile
  end.

End Progress.

(* ================================================================= *)
(** ** Catalog queries and pages of app.py, and the file scan *)

Module Catalog.
Import Pipeline.

(** The catalog invariant: each stored tag count is the number of
    records whose tag list holds the tag, record ids are distinct and
    below the next AUTOINCREMENT id, and no record lists a tag twice. *)
Definition catalog_ok (d : db) : Prop :=
  (forall t, tag_count t (tags_tbl d) = records_with t d) /\
  NoDup (map row_id (images d)) /\
  Forall (fun r => (row_id r < next_id d)%Z /\ NoDup (tags r)) (images d).

(** A tag as the parser shapes it: non-empty, no comma, no space, and
    equal to its own [strip()]. *)
Definition tag_ok (t : string) : bool :=
  Py.truthy t && negb (Py.contains "," t) && negb (Py.contains " " t)
  && String.eqb (Py.strip t) t.

(** *** Find Duplicates page *)

(** [hash_groups[hash_val].append((original_path, filename))], creating
    the entry first when missing; a dict keeps insertion order. *)
Fixpoint group_add (h : string) (v : string * string)
  (g : list (string * list (string * string))) : list (string * list (string * string)) :=
  match g with
  | [] => [(h, [v])]
  | (k, vs) :: rest =>
      if String.eqb k h then (k, (vs ++ [v])%list) :: rest else (k, vs) :: group_add h v rest
  end.

(** the loop over [SELECT hash, original_path, filename FROM images] *)
Definition hash_groups (rows : list image_row) : list (string * list (string * string)) :=
  fold_left (fun g r => group_add (hash r) (original_path r, filename r) g) rows [].

(** [{h: files for h, files in hash_groups.items() if len(files) > 1}] *)
Definition duplicates (rows : list image_row) : list (string * list (string * string)) :=
  filter (fun kv => (1 <? length (snd kv))%nat) (hash_groups rows).

(** [hash_groups.get(h, [])] *)
Definition group_of (h : string) (g : list (string * list (string * string)))
  : list (string * string) :=
  match find (fun kv => String.eqb (fst kv) h) g with
  | Some (_, vs) => vs
  | None => []
  end.

(** the keys of the grouping dict are distinct and no group is empty *)
Definition groups_ok (g : list (string * list (string * string))) : Prop :=
  NoDup (map fst g) /\ Forall (fun kv => snd kv <> []) g.

(** *** Gallery pagination *)

(** [LIMIT per_page OFFSET page * per_page] on the ordered result rows
    ([page_num] never goes below 0, [images_per_page] is 60). *)
Definition page_rows {A : Type} (rows : list A) (page per_page : nat) : list A :=
  firstn per_page (skipn (page * per_page) rows).

(** [math.ceil(total_count / per_page)]; the float quotient of two ints
    below 2^53 never rounds across an integer, so this is the exact
    ceiling. *)
Definition total_pages (total_count per_page : Z) : Z :=
  (- ((- total_count) / per_page))%Z.

(** *** SQL text of get_images *)

Inductive param := PText (s : string) | PInt (n : Z).

Definition dq : string := String (ascii_of_nat 34) EmptyString.

Definition opt_truthy (o : option string) : bool :=
  match o with Some s => Py.truthy s | None => false end.

Definition opt_str (o : option string) : string :=
  match o with Some s => s | None => "" end.

(** [s.split(sep, 1)]: [None] when [sep] does not occur (one piece) *)
Definition split_once (s sep : string) : option (string * string) :=
  let i := Py.find s sep in
  if (i <? 0)%Z then None
  else Some (substring 0 (Z.to_nat i) s,
             Py.slice_from s (Z.to_nat i + String.length sep)%nat).

(** [get_images(tag, search_query, page, per_page)] up to the two
    [execute] calls: the query and its parameters, and the count query
    with the parameters it is executed with; [None] is an exception. *)
Definition get_images_query (tag search_query : option string) (page per_page : Z)
  : option (string * list param * string * list param) :=
  let query := "SELECT * FROM images" in
  let params := @nil param in
  let '(query, params) :=
    if opt_truthy tag then
      (query ++ " WHERE tags LIKE ?",
       (params ++ [PText ("%" ++ dq ++ opt_str tag ++ dq ++ "%")])%list)
    else (query, params) in
  let '(query, params) :=
    if opt_truthy search_query then
      (query ++ (if opt_truthy tag then " AND tags LIKE ?" else " WHERE tags LIKE ?"),
       (params ++ [PText ("%" ++ opt_str search_query ++ "%")])%list)
    else (query, params) in
  let query := query ++ " ORDER BY date_taken DESC NULLS LAST, created_at DESC" in
  let count_query :=
    if opt_truthy tag || opt_truthy search_query then
      match split_once query "WHERE" with
      | None => None (* [1] on a one-piece list: IndexError *)
      | Some (_, after) =>
          let before := match split_once after "ORDER BY" with
                        | Some (b, _) => b
                        | None => after
                        end in
          Some ("SELECT COUNT(*) FROM images" ++ " WHERE " ++ before)
      end
    else Some "SELECT COUNT(*) FROM images" in
  match count_query with
  | None => None
  | Some cq =>
      Some (query ++ " LIMIT ? OFFSET ?",
            (params ++ [PInt per_page; PInt (page * per_page)])%list, cq, params)
  end.

(** number of [?] placeholders of an SQL text *)
Definition placeholders (sql : string) : nat :=
  length (filter (fun c => Ascii.eqb c "?") (list_ascii_of_string sql)).

(** *** The tag filter: json.dumps of the tag list and SQLite LIKE *)

(** ASCII case folding ([str.lower], and SQLite's LIKE folding) *)
Definition lower_char (c : ascii) : ascii :=
  let n := nat_of_ascii c in
  if ((65 <=? n) && (n <=? 90))%nat then ascii_of_nat (n + 32) else c.

Definition lower (s : string) : string :=
  string_of_list_ascii (map lower_char (list_ascii_of_string s)).

Definition hex_digit (n : nat) : ascii :=
  if (n <? 10)%nat then ascii_of_nat (48 + n) else ascii_of_nat (87 + n).

(** one character as [json.dumps] writes it inside a string
    (ensure_ascii: everything outside space..tilde is escaped) *)
Definition json_char (c : ascii) : string :=
  let n := nat_of_ascii c in
  if Ascii.eqb c "\" then "\\"
  else if (n =? 34)%nat then "\" ++ dq
  else if ((32 <=? n) && (n <=? 126))%nat then String c EmptyString
  else if (n =? 8)%nat then "\b"
  else if (n =? 12)%nat then "\f"
  else if (n =? 10)%nat then "\n"
  else if (n =? 13)%nat then "\r"
  else if (n =? 9)%nat then "\t"
  else "\u00" ++ String (hex_digit (n / 16)) (String (hex_digit (n mod 16)) EmptyString).

Definition json_str (s : string) : string :=
  dq ++ String.concat "" (map json_char (list_ascii_of_string s)) ++ dq.

(** [json.dumps(tags)] for a list of strings *)
Definition json_dumps (l : list string) : string :=
  "[" ++ String.concat ", " (map json_str l) ++ "]".

(** SQLite [s LIKE p] (no ESCAPE, ASCII text): [%] any run of
    characters, [_] any one character, letters compared without case. *)
Fixpoint like (p s : list ascii) : bool :=
  match p with
  | [] => match s with [] => true | _ => false end
  | c :: p' =>
      if Ascii.eqb c "%" then
        (fix any (s : list ascii) : bool :=
           like p' s || match s with [] => false | _ :: s' => any s' end) s
      else
        match s with
        | [] => false
        | x :: s' =>
            (Ascii.eqb c "_" || Ascii.eqb (lower_char c) (lower_char x)) && like p' s'
        end
  end.

(** the gallery's tag filter [tags LIKE '%"tag"%'] on a stored record *)
Definition tag_filter (tag : string) (r : image_row) : bool :=
  like (list_ascii_of_string ("%" ++ dq ++ tag ++ dq ++ "%"))
       (list_ascii_of_string (json_dumps (tags r))).

(** a tag that [json.dumps] writes as it is: printable ASCII other than
    the double quote and the backslash *)
Definition json_plain (t : string) : bool :=
  forallb (fun c => let n := nat_of_ascii c in
                    ((32 <=? n) && (n <=? 126) && negb (n =? 34)
                     && negb (Ascii.eqb c "\"))%nat)
          (list_ascii_of_string t).

(** *** find_images_in_directory *)

Fixpoint rfind_acc (c : ascii) (l : list ascii) (i best : Z) : Z :=
  match l with
  | [] => best
  | x :: r => rfind_acc c r (i + 1) (if Ascii.eqb x c then i else best)
  end.

(** [s.rfind(c)] *)
Definition rfind (s : string) (c : ascii) : Z :=
  rfind_acc c (list_ascii_of_string s) 0 (-1).

(** [os.path.splitext] (ntpath: [genericpath._splitext(p, '\\', '/', '.')]);
    the [while] loop returns at the first non-dot between the last
    separator and the last dot. *)
Definition splitext (p : string) : string * string :=
  let sepIndex := Z.max (rfind p "\") (rfind p "/") in
  let dotIndex := rfind p "." in
  if (sepIndex <? dotIndex)%Z then
    let mid := substring (Z.to_nat (sepIndex + 1)) (Z.to_nat (dotIndex - sepIndex - 1)) p in
    if existsb (fun c => negb (Ascii.eqb c ".")) (list_ascii_of_string mid) then
      (substring 0 (Z.to_nat dotIndex) p,
       substring (Z.to_nat dotIndex) (String.length p - Z.to_nat dotIndex) p)
    else (p, "")
  else (p, "").

Definition image_extensions : list string :=
  [".jpg"; ".jpeg"; ".png"; ".gif"; ".bmp"; ".tiff"; ".webp"].

(** [os.path.splitext(file.lower())[1] in image_extensions] *)
Definition is_image_name (file : string) : bool :=
  existsb (String.eqb (snd (splitext (lower file)))) image_extensions.

Section Scan.
(** [os.path.join] *)
Variable join : string -> string -> string.

(** [find_images_in_directory]: [walk] lists the [(root, files)] pairs
    that [os.walk(source_dir)] yields. *)
Definition find_images_in_directory (walk : list (string * list string)) : list string :=
  concat (map (fun rf => map (join (fst rf)) (filter is_image_name (snd rf))) walk).
End Scan.

(** *** get_date_ranges *)

Section DateRanges.
(** [datetime.fromisoformat] ([None]: raises) and the two [strftime]
    calls, on the library's own datetime type [D]. *)
Variable D : Type.
Variable fromisoformat : string -> option D.
Variable strftime_ym : D -> string.       (* "%Y-%m" *)
Variable strftime_display : D -> string.  (* "%B %Y" *)

(** one iteration of [for date in dates:] on [date_ranges] *)
Definition add_range (acc : list (string * (string * Z))) (date_taken : string)
  : list (string * (string * Z)) :=
  if Py.truthy date_taken then
    match fromisoformat date_taken with
    | None => acc (* except: pass *)
    | Some date_obj =>
        let year_month := strftime_ym date_obj in
        if existsb (fun kv => String.eqb (fst kv) year_month) acc then
          map (fun kv => if String.eqb (fst kv) year_month
                         then (fst kv, (fst (snd kv), snd (snd kv) + 1)%Z) else kv) acc
        else (acc ++ [(year_month, (strftime_display date_obj, 1%Z))])%list
    end
  else acc.

Definition range_key (x : string * string * Z) : string := fst (fst x).
Definition range_count (x : string * string * Z) : Z := snd x.

Fixpoint insert_desc (x : string * string * Z) (l : list (string * string * Z)) :=
  match l with
  | [] => [x]
  | y :: l' =>
      match String.compare (range_key x) (range_key y) with
      | Gt => x :: l
      | _ => y :: insert_desc x l'
      end
  end.

(** [sorted(..., key=lambda x: x["key"], reverse=True)]: the keys are
    distinct dict keys, so every sort gives this order. *)
Definition sort_desc (l : list (string * string * Z)) : list (string * string * Z) :=
  fold_right insert_desc [] l.

(** [get_date_ranges()] on the non-NULL [date_taken] values in
    [ORDER BY date_taken] order. *)
Definition get_date_ranges (dates : list string) : list (string * string * Z) :=
  match dates with
  | [] => []
  | _ =>
      sort_desc (map (fun kv => (fst kv, fst (snd kv), snd (snd kv)))
                     (fold_left add_range dates []))
  end.

(** the dates that reach [date_ranges[year_month]["count"] += 1] for the
    key [k] *)
Definition dated_with (k : string) (dates : list string) : nat :=
  length (filter (fun s => Py.truthy s &&
                    match fromisoformat s with
                    | Some dt => String.eqb (strftime_ym dt) k
                    | None => false
                    end) dates).
End DateRanges.

End Catalog.

Example parse_ex1 :
  Classifier.parse_tags "blah TAGS: cat, dog, red car, , sunny" = ["cat"; "dog"; "sunny"].
Proof. vm_compute. reflexivity. Qed.

Example parse_ex2 : Classifier.parse_tags "cat, dog" = ["cat"; "dog"].
Proof. vm_compute. reflexivity. Qed.

(* ================================================================= *)
(** ** Concrete inputs used by the examples below *)

Module Samples.

Definition transport_env : nat -> Ollama.attempt :=
  fun _ => {| Ollama.image_readable := true; Ollama.reply_of := Ollama.TransportError |}.

(** A status-200 reply whose body is not JSON, then a good reply. *)
Definition malformed_then_ok_env : nat -> Ollama.attempt :=
  fun k => match k with
           | O => {| Ollama.image_readable := true;
                     Ollama.reply_of := Ollama.HttpReply 200 Ollama.BodyNotJson |}
           | _ => {| Ollama.image_readable := true;
                     Ollama.reply_of :=
                       Ollama.HttpReply 200 (Ollama.BodyObject (Some (Ollama.JStr "TAGS: cat"))) |}
           end.

(** A 503 reply, then a good reply. *)
Definition busy_then_ok_env : nat -> Ollama.attempt :=
  fun k => match k with
           | O => {| Ollama.image_readable := true;
                     Ollama.reply_of := Ollama.HttpReply 503 (Ollama.BodyObject None) |}
           | _ => {| Ollama.image_readable := true;
                     Ollama.reply_of :=
                       Ollama.HttpReply 200 (Ollama.BodyObject (Some (Ollama.JStr "TAGS: cat"))) |}
           end.

Definition unreadable_env : nat -> Ollama.attempt :=
  fun _ => {| Ollama.image_readable := false; Ollama.reply_of := Ollama.TransportError |}.

Definition stale_record : Progress.progress :=
  {| Progress.total := 10; Progress.current := 4;
     Progress.status := Some "processing"; Progress.timestamp := Some 1000 |}.

(** an endpoint that always answers 200 with [{"response": txt}] *)
Definition ok_env (txt : string) : nat -> Ollama.attempt :=
  fun _ => {| Ollama.image_readable := true;
              Ollama.reply_of :=
                Ollama.HttpReply 200 (Ollama.BodyObject (Some (Ollama.JStr txt))) |}.

Definition plain_image : Meta.image_file :=
  {| Meta.img_size := Some (640%Z, 480%Z); Meta.img_exif := Meta.NoExif |}.

(** a readable file the model tags "TAGS: cat, cat" *)
Definition cat_cat_file : Pipeline.source_file :=
  {| Pipeline.path := "/photos/a.jpg"; Pipeline.content := Some "bytes-a";
     Pipeline.image := plain_image; Pipeline.copy_fails := false;
     Pipeline.ollama_env := ok_env "TAGS: cat, cat" |}.

(** a readable file tagged "TAGS: cat, dog" *)
Definition ok_file : Pipeline.source_file :=
  {| Pipeline.path := "/photos/b.jpg"; Pipeline.content := Some "bytes-b";
     Pipeline.image := plain_image; Pipeline.copy_fails := false;
     Pipeline.ollama_env := ok_env "TAGS: cat, dog" |}.

(** a file whose bytes cannot be read *)
Definition unreadable_file : Pipeline.source_file :=
  {| Pipeline.path := "/photos/locked.jpg"; Pipeline.content := None;
     Pipeline.image := plain_image; Pipeline.copy_fails := false;
     Pipeline.ollama_env := ok_env "TAGS: cat" |}.


(** a stored record tagged "cat", and the catalog holding only it *)
Definition sample_row : Pipeline.image_row :=
  {| Pipeline.row_id := 1; Pipeline.filename := "a1b2c3d4e5_a.jpg";
     Pipeline.original_path := "/photos/a.jpg"; Pipeline.hash := "a1b2c3d4e5f6";
     Pipeline.thumbnail_path := "a1b2c3d4e5_a.jpg"; Pipeline.tags := ["cat"];
     Pipeline.meta := Meta.empty_metadata |}.

Definition sample_db : Pipeline.db :=
  {| Pipeline.images := ([] ++ [sample_row])%list;
     Pipeline.tags_tbl := fold_left Pipeline.bump_tag ["cat"] [];
     Pipeline.next_id := (1 + 1)%Z |}.

End Samples.

(** Every statement either raises or changes only its own field. *)
Ltac step_preserves :=
  let m := fresh "m" in let m' := fresh "m'" in
  let Hm := fresh "Hm" in let E := fresh "E" in
  intros m m' Hm E;
  repeat (match type of E with
          | context [match ?x with _ => _ end] => destruct x
          | context [if ?x then _ else _] => destruct x
          end; try discriminate);
  injection E as <-; simpl; intuition congruence.

(* ================================================================= *)
(** * Properties *)

(** ** Classifier parsing *)

Lemma parse_tags_nonempty : forall txt, Classifier.parse_tags txt <> [].
Proof.
  intros txt. unfold Classifier.parse_tags.
  match goal with |- match ?l with _ => _ end <> [] => destruct l end;
    discriminate.
Qed.

(** C3: a token holding a line break but no space character survives the
    filter [' ' not in tag]: on ["TAGS: cat, dog\nsunny"] the parser
    returns ["cat"; "dog\nsunny"], keeping the two-word token. *)
Theorem parse_tags_keeps_newline_token :
  Classifier.parse_tags ("TAGS: cat, dog" ++ String (ascii_of_nat 10) "sunny")
  = ["cat"; "dog" ++ String (ascii_of_nat 10) "sunny"].
Proof. vm_compute. reflexivity. Qed.

(** ** Classifier retries *)

Section Retries.
Import Ollama.

Lemma classify_unfold_S : forall n env k,
  classify (S n) env k =
  match attempt_body (env k) with
  | Parsed tags => (tags, [Call])
  | NonSuccess | Raised RequestException =>
      let '(t, tr) := classify n env (S k) in (t, Call :: Sleep 2 :: tr)
  | Raised OtherException => (["error"], [Call])
  end.
Proof. intros n env k. simpl. destruct (attempt_body (env k)) as [| |[|]]; reflexivity. Qed.

Lemma classify_shape : forall n env k,
  (exists m, (m <= n)%nat /\ snd (classify n env k) = retry_trace m) /\
  fst (classify n env k) <> [].
Proof.
  induction n as [|n IH]; intros env k; simpl.
  - destruct (attempt_body (env k)) as [tg| |[|]] eqn:E; simpl.
    all: split; [exists O; split; [lia | reflexivity] | ].
    all: try discriminate.
    unfold attempt_body in E.
    destruct (negb (image_readable (env k))); [discriminate|].
    destruct (reply_of (env k)) as [|st b]; [discriminate|].
    destruct (Z.eqb st 200); [|discriminate].
    destruct b as [| |[[txt|]|]]; inversion E; subst; apply parse_tags_nonempty.
  - destruct (IH env (S k)) as [[m [Hm Ht]] Hne].
    destruct (attempt_body (env k)) as [tg| |[|]] eqn:E.
    + simpl. split; [exists O; split; [lia | reflexivity] |].
      unfold attempt_body in E.
      destruct (negb (image_readable (env k))); [discriminate|].
      destruct (reply_of (env k)) as [|st b]; [discriminate|].
      destruct (Z.eqb st 200); [|discriminate].
      destruct b as [| |[[txt|]|]]; inversion E; subst; apply parse_tags_nonempty.
    + destruct (classify n env (S k)) as [t tr] eqn:Ec; simpl in *.
      split; [exists (S m); split; [lia | rewrite Ht; reflexivity] | exact Hne].
    + destruct (classify n env (S k)) as [t tr] eqn:Ec; simpl in *.
      split; [exists (S m); split; [lia | rewrite Ht; reflexivity] | exact Hne].
    + simpl. split; [exists O; split; [lia | reflexivity] | discriminate].
Qed.

Lemma classify_prefix : forall m n env k,
  (m <= n)%nat ->
  (forall i, (i < m)%nat -> retriable (env (k + i)%nat) = true) ->
  retriable (env (k + m)%nat) = false ->
  classify n env k = (settled_tags (env (k + m)%nat), retry_trace m).
Proof.
  induction m as [|m IH]; intros n env k Hmn Hr Hlast.
  - rewrite Nat.add_0_r in Hlast |- *. unfold retriable in Hlast. unfold settled_tags.
    destruct n as [|n]; [simpl | rewrite classify_unfold_S];
      destruct (attempt_body (env k)) as [tg| |[|]]; try discriminate; reflexivity.
  - destruct n as [|n]; [lia|]. rewrite classify_unfold_S.
    assert (H0 := Hr O ltac:(lia)). rewrite Nat.add_0_r in H0.
    rewrite (IH n env (S k)); [| lia | |].
    + unfold retriable in H0. replace (S k + m)%nat with (k + S m)%nat by lia.
      destruct (attempt_body (env k)) as [tg| |[|]]; try discriminate; reflexivity.
    + intros i Hi. replace (S k + i)%nat with (k + S i)%nat by lia. apply Hr. lia.
    + replace (S k + m)%nat with (k + S m)%nat by lia. exact Hlast.
Qed.

Lemma classify_exhausted : forall n env k,
  (forall i, (i < n)%nat -> retriable (env (k + i)%nat) = true) ->
  snd (classify n env k) = retry_trace n /\
  (image_readable (env (k + n)%nat) = true ->
   reply_of (env (k + n)%nat) = TransportError ->
   fst (classify n env k) = ["error"]) /\
  (forall st b, image_readable (env (k + n)%nat) = true ->
   reply_of (env (k + n)%nat) = HttpReply st b -> st <> 200%Z ->
   fst (classify n env k) = ["uncategorized"]).
Proof.
  induction n as [|n IH]; intros env k Hr.
  - rewrite Nat.add_0_r. simpl. split; [|split].
    + unfold retriable in *.
      destruct (attempt_body (env k)) as [tg| |[|]] eqn:E; try reflexivity.
    + intros Hread Htr. unfold attempt_body. rewrite Hread, Htr. reflexivity.
    + intros st b Hread Hrep Hst. unfold attempt_body. rewrite Hread, Hrep.
      simpl. apply Z.eqb_neq in Hst. rewrite Hst. reflexivity.
  - assert (H0 := Hr O ltac:(lia)). rewrite Nat.add_0_r in H0.
    assert (Hr' : forall i, (i < n)%nat -> retriable (env (S k + i)%nat) = true).
    { intros i Hi. replace (S k + i)%nat with (k + S i)%nat by lia. apply Hr. lia. }
    destruct (IH env (S k) Hr') as [Ht [He Hu]].
    replace (S k + n)%nat with (k + S n)%nat in He, Hu by lia.
    unfold retriable in H0. simpl.
    destruct (attempt_body (env k)) as [tg| |[|]]; try discriminate;
      destruct (classify n env (S k)) as [t tr]; simpl in *;
      (split; [rewrite Ht; reflexivity | split; assumption]).
Qed.

End Retries.

(** C4: with the default budget of 2 retries the classifier makes at most
    three calls, sleeping 2 seconds before each retry; it always returns a
    non-empty tag list; when the first two calls are retried failures, it
    makes exactly three calls and returns ["error"] if the third is a
    transport failure and ["uncategorized"] if the third gets a
    non-success status. When the first m < 2 calls are retried failures
    (a non-success status or a transport failure) and call m is not, the
    classifier makes m + 1 calls with a 2s sleep before each retry and
    returns call m's answer: its parsed tags, or ["error"] for a failure
    outside the retry path. *)
Theorem classify_retry_budget : forall env,
  let r := Ollama.classify_image_with_ollama env in
  (exists m, (m <= 2)%nat /\ snd r = Ollama.retry_trace m) /\
  fst r <> [] /\
  (Ollama.retriable (env 0%nat) = true -> Ollama.retriable (env 1%nat) = true ->
   snd r = Ollama.retry_trace 2 /\
   (Ollama.image_readable (env 2%nat) = true ->
    Ollama.reply_of (env 2%nat) = Ollama.TransportError -> fst r = ["error"]) /\
   (forall st b, Ollama.image_readable (env 2%nat) = true ->
    Ollama.reply_of (env 2%nat) = Ollama.HttpReply st b -> st <> 200%Z ->
    fst r = ["uncategorized"])) /\
  (forall m, (m < 2)%nat ->
   (forall i, (i < m)%nat -> Ollama.retriable (env i) = true) ->
   Ollama.retriable (env m) = false ->
   r = (Ollama.settled_tags (env m), Ollama.retry_trace m)).
Proof.
  intros env r. unfold r, Ollama.classify_image_with_ollama.
  destruct (classify_shape 2 env 0) as [Hs Hne].
  split; [exact Hs | split; [exact Hne | split]].
  - intros H0 H1.
    apply (classify_exhausted 2 env 0).
    intros i Hi. destruct i as [|[|i]]; [exact H0 | exact H1 | lia].
  - intros m Hm Hr Hlast. apply (classify_prefix m 2 env 0); [lia | exact Hr | exact Hlast].
Qed.


Lemma classify_retry_budget_witness :
  Ollama.retriable (Samples.transport_env 0%nat) = true /\
  Ollama.retriable (Samples.transport_env 1%nat) = true /\
  fst (Ollama.classify_image_with_ollama Samples.transport_env) = ["error"] /\
  Ollama.retriable (Samples.busy_then_ok_env 0%nat) = true /\
  Ollama.retriable (Samples.busy_then_ok_env 1%nat) = false /\
  Ollama.classify_image_with_ollama Samples.busy_then_ok_env
    = (["cat"], [Ollama.Call; Ollama.Sleep 2; Ollama.Call]).
Proof.
  split; [reflexivity | split; [reflexivity | split]].
  - apply (proj1 (proj2 (proj1 (proj2 (proj2 (classify_retry_budget Samples.transport_env)))
                  eq_refl eq_refl)) eq_refl eq_refl).
  - split; [reflexivity | split; [reflexivity |]].
    exact (proj2 (proj2 (proj2 (classify_retry_budget Samples.busy_then_ok_env))) 1%nat
             ltac:(lia)
             (fun i Hi => match i as i0 return (i0 < 1)%nat ->
                            Ollama.retriable (Samples.busy_then_ok_env i0) = true with
                          | O => fun _ => eq_refl
                          | S j => fun H => False_ind _ (Nat.nlt_0_r j (proj2 (Nat.succ_lt_mono j 0) H))
                          end Hi)
             eq_refl).
Defined.

(** ** Failures outside the retry path *)


(** C10 (counterexample): a malformed (non-JSON) 200 body is not answered
    with an immediate ["error"]: [response.json()] raises requests'
    JSONDecodeError, a RequestException, so the classifier sleeps 2s,
    retries, and here returns ["cat"]. *)
Lemma malformed_body_is_retried :
  Ollama.classify_image_with_ollama Samples.malformed_then_ok_env
    = (["cat"], [Ollama.Call; Ollama.Sleep 2; Ollama.Call]) /\
  Ollama.classify_image_with_ollama Samples.malformed_then_ok_env <> (["error"], [Ollama.Call]).
Proof. split; vm_compute; [reflexivity | discriminate]. Qed.

(** C10 (amended): an unreadable image file, a 200 body that is JSON but
    not an object, or an object whose "response" is not a string makes the
    classifier return ["error"] after one call, with no retry and no sleep;
    a 200 body that is not JSON is handled like a transport failure: a 2s
    sleep and a retry with the budget lowered by one. *)
Theorem classify_other_failure_immediate : forall env,
  ((Ollama.image_readable (env 0%nat) = false \/
    Ollama.reply_of (env 0%nat) = Ollama.HttpReply 200 Ollama.BodyNotObject \/
    Ollama.reply_of (env 0%nat) = Ollama.HttpReply 200 (Ollama.BodyObject (Some Ollama.JOther))) ->
   Ollama.classify_image_with_ollama env = (["error"], [Ollama.Call])) /\
  (Ollama.image_readable (env 0%nat) = true ->
   Ollama.reply_of (env 0%nat) = Ollama.HttpReply 200 Ollama.BodyNotJson ->
   Ollama.classify_image_with_ollama env =
     (fst (Ollama.classify 1 env 1),
      Ollama.Call :: Ollama.Sleep 2 :: snd (Ollama.classify 1 env 1))).
Proof.
  intros env. unfold Ollama.classify_image_with_ollama. split.
  - intros H. simpl. unfold Ollama.attempt_body.
    destruct (Ollama.image_readable (env 0%nat)) eqn:Hr; [|reflexivity].
    destruct H as [H|[H|H]]; [discriminate | rewrite H; reflexivity | rewrite H; reflexivity].
  - intros Hr Hb.
    assert (E : Ollama.attempt_body (env 0%nat) = Ollama.Raised Ollama.RequestException).
    { unfold Ollama.attempt_body. rewrite Hr, Hb. reflexivity. }
    rewrite classify_unfold_S, E.
    destruct (Ollama.classify 1 env 1); reflexivity.
Qed.


Lemma classify_other_failure_immediate_witness :
  Ollama.image_readable (Samples.unreadable_env 0%nat) = false /\
  Ollama.classify_image_with_ollama Samples.unreadable_env = (["error"], [Ollama.Call]) /\
  Ollama.classify_image_with_ollama Samples.malformed_then_ok_env =
    (fst (Ollama.classify 1 Samples.malformed_then_ok_env 1),
     Ollama.Call :: Ollama.Sleep 2 :: snd (Ollama.classify 1 Samples.malformed_then_ok_env 1)).
Proof.
  split; [reflexivity | split].
  - apply (proj1 (classify_other_failure_immediate Samples.unreadable_env)).
    left. reflexivity.
  - apply (proj2 (classify_other_failure_immediate Samples.malformed_then_ok_env));
      reflexivity.
Defined.

(** ** Liveness check *)

(** C7: for a record whose status is not "completed", the check answers
    running and leaves the file as it is when [now - timestamp < 300];
    when [now - timestamp >= 300] it answers not-running and rewrites the
    record with status "completed" (total and current kept); for a
    "completed" record it answers not-running. *)
Theorem liveness_self_heal : forall p now,
  (Progress.not_completed p = true ->
   ((now - Progress.last_update p < 300)%Q ->
    Progress.is_import_running (Progress.Present p) now = (true, Progress.Present p)) /\
   ((300 <= now - Progress.last_update p)%Q ->
    exists p', Progress.is_import_running (Progress.Present p) now
                 = (false, Progress.Present p') /\
               Progress.status p' = Some "completed" /\
               Progress.total p' = Progress.total p /\
               Progress.current p' = Progress.current p)) /\
  (Progress.status p = Some "completed" ->
   fst (Progress.is_import_running (Progress.Present p) now) = false).
Proof.
  intros p now. split.
  - intros Hnc. simpl. rewrite Hnc. split.
    + intros Hlt. destruct (Qlt_le_dec (now - Progress.last_update p) 300) as [_|Hge].
      * reflexivity.
      * exfalso. apply (Qlt_not_le _ _ Hlt Hge).
    + intros Hge. destruct (Qlt_le_dec (now - Progress.last_update p) 300) as [Hlt|_].
      * exfalso. apply (Qlt_not_le _ _ Hlt Hge).
      * eexists. split; [reflexivity | repeat split].
  - intros Hs. simpl. unfold Progress.not_completed. rewrite Hs. reflexivity.
Qed.


Lemma liveness_self_heal_witness :
  Progress.not_completed Samples.stale_record = true /\
  Progress.is_import_running (Progress.Present Samples.stale_record) 1100
    = (true, Progress.Present Samples.stale_record) /\
  (exists p', Progress.is_import_running (Progress.Present Samples.stale_record) 1400
                = (false, Progress.Present p') /\
              Progress.status p' = Some "completed" /\
              Progress.total p' = 10%Z /\ Progress.current p' = 4%Z).
Proof.
  split; [reflexivity | split].
  - apply (proj1 (proj1 (liveness_self_heal Samples.stale_record 1100) eq_refl)).
    vm_compute. reflexivity.
  - apply (proj2 (proj1 (liveness_self_heal Samples.stale_record 1400) eq_refl)).
    vm_compute. discriminate.
Defined.

(** ** Metadata extraction *)

Section Extraction.
Import Meta.

Lemma run_try_preserve : forall (P : metadata -> Prop) ss m,
  P m ->
  Forall (fun s : stmt => forall m m', P m -> s m = Some m' -> P m') ss ->
  P (run_try ss m).
Proof.
  intros P ss. induction ss as [|s ss IH]; intros m Hm Hall; simpl; [exact Hm|].
  inversion Hall as [|? ? Hs Hrest]; subst.
  destruct (s m) as [m'|] eqn:E; [|exact Hm].
  apply IH; [apply (Hs m m' Hm E) | exact Hrest].
Qed.

Lemma run_all_preserve : forall (P : metadata -> Prop) ss m m',
  P m ->
  Forall (fun s : stmt => forall m m', P m -> s m = Some m' -> P m') ss ->
  run_all ss m = Some m' -> P m'.
Proof.
  intros P ss. induction ss as [|s ss IH]; intros m m' Hm Hall Hr; simpl in Hr.
  - injection Hr as <-. exact Hm.
  - inversion Hall as [|? ? Hs Hrest]; subst.
    destruct (s m) as [m1|] eqn:E; [|discriminate].
    apply (IH m1); [apply (Hs m m1 Hm E) | exact Hrest | exact Hr].
Qed.

Lemma run_try_app : forall l1 l2 m,
  run_try (l1 ++ l2) m =
  match run_all l1 m with
  | Some m' => run_try l2 m'
  | None => run_try l1 m
  end.
Proof.
  induction l1 as [|s l1 IH]; intros l2 m; simpl; [reflexivity|].
  destruct (s m) as [m'|]; [apply IH | reflexivity].
Qed.

Lemma lookup_remove : forall k k' e,
  lookup k (remove_key k' e) = if String.eqb k k' then None else lookup k e.
Proof.
  intros k k' e. induction e as [|[k0 v0] e IH]; simpl.
  - destruct (String.eqb k k'); reflexivity.
  - destruct (String.eqb k0 k') eqn:E0; simpl.
    + rewrite IH. apply String.eqb_eq in E0. subst k0.
      unfold lookup; simpl.
      destruct (String.eqb k k') eqn:E1; [reflexivity|].
      rewrite String.eqb_sym, E1. reflexivity.
    + unfold lookup in *; simpl.
      destruct (String.eqb k0 k) eqn:E1.
      * apply String.eqb_eq in E1. subst k0. rewrite E0. reflexivity.
      * exact IH.
Qed.

Lemma extract_exif_run : forall strp w h e,
  extract_image_metadata strp {| img_size := Some (w, h); img_exif := Exif e |} =
  run_try (exif_steps strp e)
    {| date_taken := None; camera_model := None; lens := None; aperture := None;
       shutter_speed := None; iso := None; focal_length := None; gps := None;
       width := Some w; height := Some h |}.
Proof. intros strp w h [|kv e]; reflexivity. Qed.

Lemma width_height_steps : forall strp e w h,
  Forall (fun s : stmt => forall m m', width m = w /\ height m = h ->
            s m = Some m' -> width m' = w /\ height m' = h) (exif_steps strp e).
Proof.
  intros strp e w h. unfold exif_steps.
  repeat apply Forall_cons; try apply Forall_nil;
    unfold step_date, step_camera, step_lens, step_aperture,
    step_exposure, step_iso, step_focal, step_gps; step_preserves.
Qed.

(** the fields computed after the exposure time leave the earlier ones *)
Lemma tail_steps_keep_head : forall e m0,
  Forall (fun s : stmt => forall m m',
            date_taken m = date_taken m0 /\ camera_model m = camera_model m0 /\
            lens m = lens m0 /\ aperture m = aperture m0 ->
            s m = Some m' ->
            date_taken m' = date_taken m0 /\ camera_model m' = camera_model m0 /\
            lens m' = lens m0 /\ aperture m' = aperture m0)
    [step_iso e; step_focal e; step_gps e].
Proof.
  intros e m0. repeat apply Forall_cons; try apply Forall_nil;
    unfold step_iso, step_focal, step_gps; step_preserves.
Qed.

(** the fields computed before the exposure time leave the later ones *)
Lemma head_steps_keep_tail : forall strp e,
  Forall (fun s : stmt => forall m m',
            shutter_speed m = None /\ iso m = None /\ focal_length m = None /\
            gps m = None ->
            s m = Some m' ->
            shutter_speed m' = None /\ iso m' = None /\ focal_length m' = None /\
            gps m' = None)
    [step_date strp e; step_camera e; step_lens e; step_aperture e].
Proof.
  intros strp e. repeat apply Forall_cons; try apply Forall_nil;
    unfold step_date, step_camera, step_lens, step_aperture; step_preserves.
Qed.

End Extraction.

Section Extraction2.
Import Meta.

Lemma run_try_cons_some : forall (s : stmt) ss m m',
  s m = Some m' -> run_try (s :: ss) m = run_try ss m'.
Proof. intros s ss m m' E. simpl. rewrite E. reflexivity. Qed.

Lemma run_try_cons_none : forall (s : stmt) ss m,
  s m = None -> run_try (s :: ss) m = m.
Proof. intros s ss m E. simpl. rewrite E. reflexivity. Qed.

Lemma exif_steps_split : forall strp e,
  exif_steps strp e =
  ([step_date strp e; step_camera e; step_lens e; step_aperture e]
    ++ step_exposure e :: [step_iso e; step_focal e; step_gps e])%list.
Proof. reflexivity. Qed.

Lemma exif_steps_remove_exposure : forall strp e,
  exif_steps strp (remove_key "ExposureTime" e) =
  ([step_date strp e; step_camera e; step_lens e; step_aperture e]
    ++ step_exposure (remove_key "ExposureTime" e)
    :: [step_iso e; step_focal e; step_gps e])%list.
Proof.
  intros strp e. unfold exif_steps, step_date, step_camera, step_lens,
    step_aperture, step_iso, step_focal, step_gps.
  rewrite !lookup_remove. reflexivity.
Qed.

Lemma exif_steps_remove_date : forall strp e,
  exif_steps strp (remove_key "DateTimeOriginal" e) =
  step_date strp (remove_key "DateTimeOriginal" e)
    :: [step_camera e; step_lens e; step_aperture e; step_exposure e;
        step_iso e; step_focal e; step_gps e].
Proof.
  intros strp e. unfold exif_steps, step_camera, step_lens,
    step_aperture, step_exposure, step_iso, step_focal, step_gps.
  rewrite !lookup_remove. reflexivity.
Qed.

Lemma step_exposure_zero : forall e v t m,
  lookup "ExposureTime" e = Some v -> py_num v = Some t -> (t == 0)%Q ->
  step_exposure e m = None.
Proof.
  intros e v t m Hl Hn Hz. unfold step_exposure. rewrite Hl, Hn.
  destruct (Qlt_le_dec t 1) as [_|Hge].
  - apply Qeq_bool_iff in Hz. rewrite Hz. reflexivity.
  - exfalso. unfold Qeq, Qle in *. simpl in *.
    pose proof (Pos2Z.is_pos (Qden t)). lia.
Qed.

Lemma step_exposure_absent : forall e m,
  step_exposure (remove_key "ExposureTime" e) m = Some m.
Proof. intros e m. unfold step_exposure. rewrite lookup_remove. reflexivity. Qed.


Lemma run_try_stop : forall l1 (s : stmt) l2 m0 m,
  run_all l1 m0 = Some m -> s m = None -> run_try (l1 ++ s :: l2) m0 = m.
Proof.
  intros l1 s l2 m0 m H1 Hs. rewrite run_try_app, H1. apply run_try_cons_none. exact Hs.
Qed.

Lemma list_split_at : forall {A : Type} (l : list A) j d,
  (j < length l)%nat -> l = (firstn j l ++ nth j l d :: skipn (S j) l)%list.
Proof.
  intros A l. induction l as [|x l IH]; intros j d Hj; [simpl in Hj; lia|].
  destruct j as [|j]; [reflexivity|]. simpl. f_equal. apply IH. simpl in Hj. lia.
Qed.

Lemma Forall_firstn_of : forall {A : Type} (P : A -> Prop) n l,
  Forall P l -> Forall P (firstn n l).
Proof.
  intros A P n. induction n as [|n IH]; intros l H; [constructor|].
  destruct l as [|x l]; [constructor|]. inversion H; subst. constructor; auto.
Qed.

(** the statements before the [i]-th leave its field as it was *)
Lemma earlier_steps_keep_field : forall strp e i,
  (i < 8)%nat ->
  Forall (fun s : stmt => forall m m', field_absent i m -> s m = Some m' -> field_absent i m')
    (firstn i (exif_steps strp e)).
Proof.
  intros strp e i Hi.
  do 8 (destruct i as [|i]; [cbn [firstn exif_steps field_absent];
    repeat apply Forall_cons; try apply Forall_nil;
    unfold step_date, step_camera, step_lens, step_aperture,
      step_exposure, step_iso, step_focal, step_gps; step_preserves|]).
  lia.
Qed.

Lemma start_meta_absent : forall w h i, field_absent i (start_meta w h).
Proof. intros w h i. do 8 (destruct i as [|i]; [reflexivity|]). exact I. Qed.

Lemma extract_stops_at : forall strp w h e j m,
  run_all (firstn j (exif_steps strp e)) (start_meta w h) = Some m ->
  nth j (exif_steps strp e) (fun m => Some m) m = None ->
  extract_image_metadata strp (exif_image w h e) = m /\
  (forall i, (j <= i)%nat -> field_absent i m).
Proof.
  intros strp w h e j m Hrun Hraise.
  destruct (Nat.lt_ge_cases j 8) as [Hj|Hj];
    [|rewrite nth_overflow in Hraise by (unfold exif_steps; simpl; lia); discriminate].
  split.
  - unfold exif_image. rewrite extract_exif_run.
    rewrite (list_split_at (exif_steps strp e) j (fun m => Some m))
      by (unfold exif_steps; simpl; lia).
    apply run_try_stop; [exact Hrun | exact Hraise].
  - intros i Hji. destruct (Nat.lt_ge_cases i 8) as [Hi|Hi].
    + apply (run_all_preserve (field_absent i) (firstn j (exif_steps strp e))
               (start_meta w h) m); [apply start_meta_absent | | exact Hrun].
      replace (firstn j (exif_steps strp e)) with (firstn j (firstn i (exif_steps strp e)))
        by (rewrite firstn_firstn; f_equal; lia).
      apply Forall_firstn_of, earlier_steps_keep_field, Hi.
    + do 8 (destruct i as [|i]; [lia|]). exact I.
Qed.

End Extraction2.

(** C8 (counterexample): a zero exposure time makes [1/exp_time] raise
    ZeroDivisionError inside the single [try] block, so the ISO and focal
    length, derivable on their own, are absent too. *)
Lemma zero_exposure_drops_later_fields :
  let r := Meta.extract_image_metadata Meta.strptime_strict
             (Meta.exif_image 100 50
                [("ExposureTime", Meta.PyRat 0); ("ISOSpeedRatings", Meta.PyInt 100);
                 ("FocalLength", Meta.PyRat 50)]) in
  Meta.shutter_speed r = None /\ Meta.iso r = None /\ Meta.focal_length r = None /\
  Meta.iso r <> Some "ISO 100".
Proof. vm_compute. repeat split; discriminate. Qed.

(** C8 (amended): the extractor returns a record for every input (it has
    no error result). An unparsable capture timestamp leaves only
    [date_taken] absent: the record equals the one for the same EXIF without
    the timestamp. A zero exposure time stops extraction at that line:
    shutter speed, ISO, focal length and GPS are absent, and date, camera,
    lens and aperture are as they would be without the exposure time.
    [width]/[height] are present exactly when the image opens. In
    general, when the j-th derivation of the EXIF part raises (date,
    camera, lens, aperture, exposure, ISO, focal length, GPS, in this
    order: a non-str timestamp, a non-numeric f-number or exposure time,
    a zero exposure time, a [str] that raises, a GPSInfo that is not a
    container, a missing GPS reference, a bad GPS triple, ...), the result is the dictionary as the derivations before it left
    it: their fields keep their values, and the field of the failing
    derivation and of every later one is absent. *)
Theorem extract_failure_granularity : forall strp w h e,
  (forall s, Meta.lookup "DateTimeOriginal" e = Some (Meta.PyStr s) -> strp s = None ->
   Meta.extract_image_metadata strp (Meta.exif_image w h e) =
   Meta.extract_image_metadata strp
     (Meta.exif_image w h (Meta.remove_key "DateTimeOriginal" e)) /\
   Meta.date_taken (Meta.extract_image_metadata strp (Meta.exif_image w h e)) = None) /\
  (forall v t, Meta.lookup "ExposureTime" e = Some v -> Meta.py_num v = Some t ->
   (t == 0)%Q ->
   let r := Meta.extract_image_metadata strp (Meta.exif_image w h e) in
   let r' := Meta.extract_image_metadata strp
               (Meta.exif_image w h (Meta.remove_key "ExposureTime" e)) in
   Meta.shutter_speed r = None /\ Meta.iso r = None /\
   Meta.focal_length r = None /\ Meta.gps r = None /\
   Meta.date_taken r = Meta.date_taken r' /\ Meta.camera_model r = Meta.camera_model r' /\
   Meta.lens r = Meta.lens r' /\ Meta.aperture r = Meta.aperture r') /\
  (forall img,
   Meta.width (Meta.extract_image_metadata strp img) = option_map fst (Meta.img_size img) /\
   Meta.height (Meta.extract_image_metadata strp img) = option_map snd (Meta.img_size img)) /\
  (forall j m,
   Meta.run_all (firstn j (Meta.exif_steps strp e)) (Meta.start_meta w h) = Some m ->
   nth j (Meta.exif_steps strp e) (fun m => Some m) m = None ->
   Meta.extract_image_metadata strp (Meta.exif_image w h e) = m /\
   (forall i, (j <= i)%nat -> Meta.field_absent i m)).
Proof.
  intros strp w h e. split; [|split; [|split]].
  - intros s Hl Hs. unfold Meta.exif_image. rewrite !extract_exif_run.
    rewrite exif_steps_remove_date.
    assert (E1 : forall m, Meta.step_date strp e m = Some m).
    { intros m. unfold Meta.step_date. rewrite Hl, Hs. reflexivity. }
    assert (E2 : forall m, Meta.step_date strp (Meta.remove_key "DateTimeOriginal" e) m
                           = Some m).
    { intros m. unfold Meta.step_date. rewrite lookup_remove. reflexivity. }
    unfold Meta.exif_steps.
    rewrite (run_try_cons_some _ _ _ _ (E1 _)), (run_try_cons_some _ _ _ _ (E2 _)).
    split; [reflexivity|].
    apply (run_try_preserve (fun m => Meta.date_taken m = None)); [reflexivity|].
    repeat apply Forall_cons; try apply Forall_nil;
      unfold Meta.step_camera, Meta.step_lens, Meta.step_aperture, Meta.step_exposure,
        Meta.step_iso, Meta.step_focal, Meta.step_gps; step_preserves.
  - intros v t Hl Hn Hz. cbv zeta. unfold Meta.exif_image. rewrite !extract_exif_run.
    rewrite exif_steps_remove_exposure, exif_steps_split, !run_try_app.
    set (m0 := {| Meta.date_taken := None; Meta.camera_model := None; Meta.lens := None;
                  Meta.aperture := None; Meta.shutter_speed := None; Meta.iso := None;
                  Meta.focal_length := None; Meta.gps := None;
                  Meta.width := Some w; Meta.height := Some h |}).
    destruct (Meta.run_all _ m0) as [m4|] eqn:E4.
    + rewrite run_try_cons_none by (apply (step_exposure_zero e v t); assumption).
      rewrite run_try_cons_some with (m' := m4) by apply step_exposure_absent.
      assert (Ht : Meta.shutter_speed m4 = None /\ Meta.iso m4 = None /\
                   Meta.focal_length m4 = None /\ Meta.gps m4 = None).
      { apply (run_all_preserve (fun m => Meta.shutter_speed m = None /\ Meta.iso m = None /\
                 Meta.focal_length m = None /\ Meta.gps m = None)
                 [Meta.step_date strp e; Meta.step_camera e; Meta.step_lens e;
                  Meta.step_aperture e] m0 m4);
          [repeat split | apply head_steps_keep_tail | exact E4]. }
      assert (Hh := run_try_preserve (fun m => Meta.date_taken m = Meta.date_taken m4 /\
                      Meta.camera_model m = Meta.camera_model m4 /\
                      Meta.lens m = Meta.lens m4 /\ Meta.aperture m = Meta.aperture m4) _ m4
                      (conj eq_refl (conj eq_refl (conj eq_refl eq_refl)))
                      (tail_steps_keep_head e m4)).
      destruct Ht as [? [? [? ?]]]. destruct Hh as [? [? [? ?]]].
      repeat split; congruence.
    + assert (Ht := run_try_preserve (fun m => Meta.shutter_speed m = None /\ Meta.iso m = None /\
                      Meta.focal_length m = None /\ Meta.gps m = None) _ m0
                      (conj eq_refl (conj eq_refl (conj eq_refl eq_refl)))
                      (head_steps_keep_tail strp e)).
      simpl in Ht. destruct Ht as [? [? [? ?]]]. repeat split; assumption.
  - intros [[[w' h']|] ex]; [|split; reflexivity].
    destruct ex as [| |[|kv e']]; try (split; reflexivity).
    apply (run_try_preserve (fun m => Meta.width m = Some w' /\ Meta.height m = Some h'));
      [split; reflexivity | apply width_height_steps].
  - apply extract_stops_at.
Qed.

Lemma extract_failure_granularity_witness :
  Meta.lookup "DateTimeOriginal" [("DateTimeOriginal", Meta.PyStr "garbage")]
    = Some (Meta.PyStr "garbage") /\
  Meta.strptime_strict "garbage" = None /\
  Meta.date_taken (Meta.extract_image_metadata Meta.strptime_strict
    (Meta.exif_image 10 10 [("DateTimeOriginal", Meta.PyStr "garbage")])) = None /\
  Meta.iso (Meta.extract_image_metadata Meta.strptime_strict
    (Meta.exif_image 10 10 [("ExposureTime", Meta.PyRat 0); ("ISOSpeedRatings", Meta.PyInt 100)]))
    = None /\
  Meta.iso (Meta.extract_image_metadata Meta.strptime_strict
    (Meta.exif_image 10 10 [("LensModel", Meta.PyStr "50mm"); ("FNumber", Meta.PyStr "f2.8");
                            ("ISOSpeedRatings", Meta.PyInt 100)])) = None /\
  Meta.gps (Meta.extract_image_metadata Meta.strptime_strict
    (Meta.exif_image 10 10 [("FocalLength", Meta.PyRat 50);
      ("GPSInfo", Meta.PyDict [(2%Z, Meta.PyTuple [Meta.PyRat 1; Meta.PyRat 2; Meta.PyRat 3]);
                               (4%Z, Meta.PyTuple [Meta.PyRat 1; Meta.PyRat 2; Meta.PyRat 3])])]))
    = None /\
  Meta.focal_length (Meta.extract_image_metadata Meta.strptime_strict
    (Meta.exif_image 10 10 [("FocalLength", Meta.PyRat 50);
      ("GPSInfo", Meta.PyDict [(2%Z, Meta.PyTuple [Meta.PyRat 1; Meta.PyRat 2; Meta.PyRat 3]);
                               (4%Z, Meta.PyTuple [Meta.PyRat 1; Meta.PyRat 2; Meta.PyRat 3])])]))
    = Some "50.0mm" /\
  Meta.gps (Meta.extract_image_metadata Meta.strptime_strict
    (Meta.exif_image 10 10 [("GPSInfo", Meta.PyInt 5)])) = None.
Proof.
  split; [reflexivity | split; [vm_compute; reflexivity | split; [| split; [| split]]]].
  4: {
    pose proof (proj2 (proj2 (proj2 (extract_failure_granularity Meta.strptime_strict 10 10
      [("FocalLength", Meta.PyRat 50);
       ("GPSInfo", Meta.PyDict [(2%Z, Meta.PyTuple [Meta.PyRat 1; Meta.PyRat 2; Meta.PyRat 3]);
                                (4%Z, Meta.PyTuple [Meta.PyRat 1; Meta.PyRat 2; Meta.PyRat 3])])])))
      7%nat
      {| Meta.date_taken := None; Meta.camera_model := None; Meta.lens := None;
         Meta.aperture := None; Meta.shutter_speed := None; Meta.iso := None;
         Meta.focal_length := Some "50.0mm"; Meta.gps := None;
         Meta.width := Some 10%Z; Meta.height := Some 10%Z |}
      ltac:(vm_compute; reflexivity) ltac:(vm_compute; reflexivity)) as [Hr Ha].
    rewrite Hr. split; [exact (Ha 7%nat (le_n 7)) | split; [reflexivity|]].
    pose proof (proj2 (proj2 (proj2 (extract_failure_granularity Meta.strptime_strict 10 10
      [("GPSInfo", Meta.PyInt 5)])))
      7%nat (Meta.start_meta 10 10)
      ltac:(vm_compute; reflexivity) ltac:(vm_compute; reflexivity)) as [Hr2 Ha2].
    rewrite Hr2. exact (Ha2 7%nat (le_n 7)). }
  3: {
    pose proof (proj2 (proj2 (proj2 (extract_failure_granularity Meta.strptime_strict 10 10
      [("LensModel", Meta.PyStr "50mm"); ("FNumber", Meta.PyStr "f2.8");
       ("ISOSpeedRatings", Meta.PyInt 100)])))
      3%nat
      {| Meta.date_taken := None; Meta.camera_model := None;
         Meta.lens := Some (Meta.PyStr "50mm"); Meta.aperture := None;
         Meta.shutter_speed := None; Meta.iso := None; Meta.focal_length := None;
         Meta.gps := None; Meta.width := Some 10%Z; Meta.height := Some 10%Z |}
      ltac:(vm_compute; reflexivity) ltac:(vm_compute; reflexivity)) as [Hr Ha].
    rewrite Hr. exact (Ha 5%nat ltac:(lia)). }
  - apply (proj2 (proj1 (extract_failure_granularity Meta.strptime_strict 10 10
             [("DateTimeOriginal", Meta.PyStr "garbage")]) "garbage" eq_refl
             ltac:(vm_compute; reflexivity))).
  - pose proof (proj1 (proj2 (extract_failure_granularity Meta.strptime_strict
             10 10 [("ExposureTime", Meta.PyRat 0); ("ISOSpeedRatings", Meta.PyInt 100)]))
             (Meta.PyRat 0) 0 eq_refl eq_refl ltac:(reflexivity)) as H.
    cbv zeta in H. apply (proj1 (proj2 H)).
Defined.




(** ** Tag counts *)

(** C2: a classifier answer that repeats a tag makes the insert loop
    count the tag once per occurrence: one imported record tagged
    ["cat"; "cat"] leaves the stored count of "cat" at 2 while one record
    holds the tag. *)
Theorem duplicate_tags_double_count :
  let d := Pipeline.st_db (Pipeline.process_images Pipeline.toy_hex Meta.strptime_strict 20
                             [Samples.cat_cat_file] Pipeline.empty_db) in
  map Pipeline.tags (Pipeline.images d) = [["cat"; "cat"]] /\
  Pipeline.tag_count "cat" (Pipeline.tags_tbl d) = 2%Z /\
  Pipeline.records_with "cat" d = 1%Z.
Proof. vm_compute. repeat split; reflexivity. Qed.

(** [update_image_tags] on an id that has no row still creates the rows of
    its new tags with count 1, with no record holding them. *)
Example update_unknown_id_creates_tag :
  let d := Pipeline.update_image_tags Pipeline.empty_db 7 ["dog"] in
  Pipeline.tag_count "dog" (Pipeline.tags_tbl d) = 1%Z /\
  Pipeline.records_with "dog" d = 0%Z.
Proof. vm_compute. split; reflexivity. Qed.

(** ** Progress counting *)

Section Counting.
Import Pipeline.
Variable sha : string -> string.
Variable strp : string -> option string.

(** Every path but the hashing failure counts the item and writes the
    progress record once. *)
Lemma process_file_step : forall total st f,
  let st' := process_file sha strp total st f in
  (calculate_file_hash sha f = None /\ processed st' = processed st /\
   writes st' = writes st /\ st_db st' = st_db st) \/
  (calculate_file_hash sha f <> None /\ processed st' = (processed st + 1)%Z /\
   writes st' = (writes st ++ [{| w_total := total; w_current := processed st + 1;
                                  w_status := "processing" |}])%list).
Proof.
  intros total st f. cbv zeta. unfold process_file.
  destruct (calculate_file_hash sha f) as [h|] eqn:Eh.
  - right. split; [discriminate|].
    destruct (hash_exists h (st_db st)); [split; reflexivity|].
    destruct (copy_fails f); [split; reflexivity|].
    destruct (insert_image _ _); split; reflexivity.
  - left. repeat split; reflexivity.
Qed.

Lemma StronglySorted_snoc : forall (l : list Z) x,
  StronglySorted Z.le l -> Forall (fun y => (y <= x)%Z) l ->
  StronglySorted Z.le (l ++ [x])%list.
Proof.
  induction l as [|a l IH]; intros x Hs Hf; simpl.
  - constructor; constructor.
  - inversion Hs as [|? ? Hs' Ha]; subst. inversion Hf as [|? ? Hax Hf']; subst.
    constructor; [apply IH; assumption|].
    apply Forall_app. split; [assumption|]. constructor; [assumption | constructor].
Qed.

Lemma fold_inv : forall total fs st,
  loop_inv total st ->
  loop_inv total (fold_left (process_file sha strp total) fs st) /\
  (processed (fold_left (process_file sha strp total) fs st)
     <= processed st + Z.of_nat (length fs))%Z /\
  exists ws, writes (fold_left (process_file sha strp total) fs st) = (writes st ++ ws)%list.
Proof.
  intros total fs. induction fs as [|f fs IH]; intros st Hi; simpl.
  - split; [exact Hi | split; [lia | exists []; rewrite app_nil_r; reflexivity]].
  - assert (Hi' : loop_inv total (process_file sha strp total st f) /\
                  (processed (process_file sha strp total st f) <= processed st + 1)%Z /\
                  exists ws, writes (process_file sha strp total st f) = (writes st ++ ws)%list).
    { destruct Hi as [Hs [Hf Hp]].
      destruct (process_file_step total st f) as [[_ [Ep [Ew _]]]|[_ [Ep Ew]]];
        rewrite Ep; (split; [|split]).
      - unfold loop_inv. rewrite Ep, Ew. auto.
      - lia.
      - exists []. rewrite Ew, app_nil_r. reflexivity.
      - unfold loop_inv. rewrite Ep, Ew, map_app. simpl. split; [|split; [|lia]].
        + apply StronglySorted_snoc; [exact Hs|].
          apply Forall_map. eapply Forall_impl; [|exact Hf]. simpl. intros w Hw. lia.
        + apply Forall_app. split.
          * eapply Forall_impl; [|exact Hf]. simpl. intros w Hw. intuition lia.
          * constructor; [simpl; split; [lia | split; [reflexivity | discriminate]] | constructor].
      - lia.
      - eexists. exact Ew. }
    destruct Hi' as [Hi1 [Hp1 [ws1 Hw1]]].
    destruct (IH _ Hi1) as [Hi2 [Hp2 [ws2 Hw2]]].
    split; [exact Hi2 | split; [lia|]].
    exists (ws1 ++ ws2)%list. rewrite Hw2, Hw1, app_assoc. reflexivity.
Qed.

Lemma chunks_concat : forall bs fuel (l : list source_file),
  (0 < bs)%nat -> (length l <= fuel)%nat -> concat (chunks fuel bs l) = l.
Proof.
  intros bs fuel. induction fuel as [|fuel IH]; intros l Hbs Hlen.
  - destruct l; [reflexivity | simpl in Hlen; lia].
  - destruct l as [|x l']; [reflexivity|].
    cbn [chunks concat]. rewrite IH; [apply firstn_skipn | exact Hbs |].
    rewrite length_skipn. cbn [length] in *. lia.
Qed.

Lemma fold_batches : forall (g : run_state -> source_file -> run_state) L st,
  fold_left (fun st b => fold_left g b st) L st = fold_left g (concat L) st.
Proof.
  intros g L. induction L as [|b L IH]; intros st; simpl; [reflexivity|].
  rewrite IH, fold_left_app. reflexivity.
Qed.

(** When every file hashes, each one is counted, and the last one's
    "processing" write carries the final count. *)
Lemma fold_all_counted : forall total fs st,
  Forall (fun f => calculate_file_hash sha f <> None) fs ->
  processed (fold_left (process_file sha strp total) fs st)
    = (processed st + Z.of_nat (length fs))%Z /\
  (fs <> [] -> exists ws,
     writes (fold_left (process_file sha strp total) fs st)
     = (ws ++ [{| w_total := total; w_current := processed st + Z.of_nat (length fs);
                  w_status := "processing" |}])%list).
Proof.
  intros total fs. induction fs as [|f fs IH]; intros st Hall.
  - simpl. split; [lia | intros H; congruence].
  - inversion Hall as [|? ? Hf Hall']; subst.
    destruct (process_file_step total st f) as [[Hn _]|[_ [Hp Hw]]]; [congruence|].
    destruct (IH (process_file sha strp total st f) Hall') as [Hp' Hw'].
    cbn [fold_left length]. rewrite Hp', Hp. split; [lia|].
    intros _. destruct fs as [|g gs].
    + exists (writes st). cbn [fold_left length]. rewrite Hw.
      replace (processed st + Z.of_nat 1)%Z with (processed st + 1)%Z by lia. reflexivity.
    + destruct (Hw' ltac:(discriminate)) as [ws Hws]. exists ws. rewrite Hws, Hp.
      replace (processed st + 1 + Z.of_nat (length (g :: gs)))%Z
        with (processed st + Z.of_nat (length (f :: g :: gs)))%Z
        by (cbn [length]; lia).
      reflexivity.
Qed.

(** [process_images] with a nonzero batch size is the item loop over the
    files (none for a negative size), then the final write. *)
Lemma process_images_loop : forall bs files d0,
  bs <> 0%Z ->
  let n := Z.of_nat (length files) in
  let st0 := {| st_db := d0; processed := 0; skipped := 0;
                writes := [{| w_total := n; w_current := 0; w_status := "starting" |}];
                outcomes := [] |} in
  let st := fold_left (process_file sha strp n) (if (0 <? bs)%Z then files else []) st0 in
  process_images sha strp bs files d0 =
  {| st_db := st_db st; processed := processed st; skipped := skipped st;
     writes := (writes st ++ [{| w_total := n; w_current := n; w_status := "completed" |}])%list;
     outcomes := outcomes st |}.
Proof.
  intros bs files d0 Hbs. cbv zeta. unfold process_images, batches.
  destruct (0 <? bs)%Z eqn:Hpos.
  - rewrite fold_batches, chunks_concat; [reflexivity | | lia].
    apply Z.ltb_lt in Hpos. lia.
  - apply Z.eqb_neq in Hbs. rewrite Hbs. reflexivity.
Qed.

End Counting.

(** C5: hashing failure is not counted.  A run over one file that cannot
    be read logs the hashing failure but never advances [processed]: the
    only progress writes are "starting" at 0 and the final "completed",
    and the run ends with [processed = 0] for one scanned file. *)
Theorem hash_failure_not_counted :
  let r := Pipeline.process_images Pipeline.toy_hex Meta.strptime_strict 20
             [Samples.unreadable_file] Pipeline.empty_db in
  Pipeline.processed r = 0%Z /\
  Pipeline.outcomes r = [(Pipeline.path Samples.unreadable_file, Pipeline.HashFailed)] /\
  Pipeline.images (Pipeline.st_db r) = [] /\
  map (fun w => (Pipeline.w_current w, Pipeline.w_status w)) (Pipeline.writes r)
    = [(0%Z, "starting"); (1%Z, "completed")].
Proof. vm_compute. repeat split; reflexivity. Qed.

(** C6 (counterexample): with one file imported, the "processing" write
    of the last item already carries current = total = 1. *)
Theorem processing_write_reaches_total :
  In {| Pipeline.w_total := 1; Pipeline.w_current := 1; Pipeline.w_status := "processing" |}
     (Pipeline.writes (Pipeline.process_images Pipeline.toy_hex Meta.strptime_strict 20
                         [Samples.ok_file] Pipeline.empty_db)).
Proof. vm_compute. right. left. reflexivity. Qed.

(** C6 (amended): for a nonzero batch size, the progress writes of a run
    over n files start with "starting" at 0, carry non-decreasing current
    values between 0 and n, all with total n, and end with the one
    "completed" write at current n; no earlier write is "completed".
    A "processing" write can carry current = n: when the batch size is
    positive and every one of the n > 0 files is counted (each hashes),
    the write just before "completed" is the last item's "processing"
    write at current n. *)
Theorem progress_writes_monotone :
  forall (sha : string -> string) (strp : string -> option string)
         (bs : Z) (files : list Pipeline.source_file) (d0 : Pipeline.db),
  bs <> 0%Z ->
  let n := Z.of_nat (length files) in
  let ws := Pipeline.writes (Pipeline.process_images sha strp bs files d0) in
  hd_error ws = Some {| Pipeline.w_total := n; Pipeline.w_current := 0;
                       Pipeline.w_status := "starting" |} /\
  StronglySorted Z.le (map Pipeline.w_current ws) /\
  Forall (fun w => (0 <= Pipeline.w_current w <= n)%Z /\ Pipeline.w_total w = n) ws /\
  (exists ws', ws = (ws' ++ [{| Pipeline.w_total := n; Pipeline.w_current := n;
                                Pipeline.w_status := "completed" |}])%list /\
               Forall (fun w => Pipeline.w_status w <> "completed") ws') /\
  ((0 < bs)%Z -> files <> [] ->
   Forall (fun f => Pipeline.calculate_file_hash sha f <> None) files ->
   exists ws', ws = (ws' ++ [{| Pipeline.w_total := n; Pipeline.w_current := n;
                                Pipeline.w_status := "processing" |};
                             {| Pipeline.w_total := n; Pipeline.w_current := n;
                                Pipeline.w_status := "completed" |}])%list).
Proof.
  intros sha strp bs files d0 Hbs n ws. subst ws.
  rewrite (process_images_loop sha strp bs files d0 Hbs). cbv zeta. fold n.
  set (st0 := {| Pipeline.st_db := d0; Pipeline.processed := 0; Pipeline.skipped := 0;
                 Pipeline.writes := [{| Pipeline.w_total := n; Pipeline.w_current := 0;
                                        Pipeline.w_status := "starting" |}];
                 Pipeline.outcomes := [] |}).
  set (fs := if (0 <? bs)%Z then files else []).
  assert (Hfs : (length fs <= length files)%nat)
    by (subst fs; destruct (0 <? bs)%Z; simpl; lia).
  assert (H0 : Pipeline.loop_inv n st0).
  { unfold Pipeline.loop_inv, st0; split; [|split]; simpl.
    - repeat constructor.
    - constructor; [simpl; split; [lia | split; [reflexivity | discriminate]] | constructor].
    - lia. }
  destruct (fold_inv sha strp n fs st0 H0) as [[Hs [Hf Hp]] [Hle [ws Hw]]].
  set (st := fold_left (Pipeline.process_file sha strp n) fs st0) in *.
  simpl Pipeline.processed in Hle.
  assert (Hpn : (Pipeline.processed st <= n)%Z) by (unfold n; lia).
  simpl Pipeline.writes. split; [|split; [|split; [|split]]].
  - rewrite Hw. reflexivity.
  - rewrite map_app. apply StronglySorted_snoc; [exact Hs|].
    apply Forall_map. eapply Forall_impl; [|exact Hf]. simpl. intros w Hw'. lia.
  - apply Forall_app. split.
    + eapply Forall_impl; [|exact Hf]. simpl. intros w Hw'. intuition lia.
    + constructor; [simpl; unfold n; lia | constructor].
  - exists (Pipeline.writes st). split; [reflexivity|].
    eapply Forall_impl; [|exact Hf]. simpl. intros w Hw'. tauto.
  - intros Hpos Hne Hall.
    assert (Efs : fs = files)
      by (subst fs; replace (0 <? bs)%Z with true by (symmetry; apply Z.ltb_lt; exact Hpos);
          reflexivity).
    rewrite <- Efs in Hall, Hne.
    destruct (fold_all_counted sha strp n fs st0 Hall) as [_ Hw2].
    destruct (Hw2 Hne) as [ws' Hws']. exists ws'. fold st in Hws'. rewrite Hws'.
    rewrite <- app_assoc. cbn [app]. rewrite Efs. subst n. cbn [st0 Pipeline.processed].
    rewrite Z.add_0_l. reflexivity.
Qed.

Lemma progress_writes_monotone_witness :
  (3 <> 0)%Z /\
  hd_error (Pipeline.writes (Pipeline.process_images Pipeline.toy_hex Meta.strptime_strict 3
              [Samples.ok_file; Samples.unreadable_file] Pipeline.empty_db))
  = Some {| Pipeline.w_total := 2; Pipeline.w_current := 0; Pipeline.w_status := "starting" |} /\
  Forall (fun f => Pipeline.calculate_file_hash Pipeline.toy_hex f <> None)
    [Samples.ok_file; Samples.cat_cat_file] /\
  exists ws', Pipeline.writes (Pipeline.process_images Pipeline.toy_hex Meta.strptime_strict 3
                [Samples.ok_file; Samples.cat_cat_file] Pipeline.empty_db)
              = (ws' ++ [{| Pipeline.w_total := 2; Pipeline.w_current := 2;
                            Pipeline.w_status := "processing" |};
                         {| Pipeline.w_total := 2; Pipeline.w_current := 2;
                            Pipeline.w_status := "completed" |}])%list.
Proof.
  assert (Hh : Forall (fun f => Pipeline.calculate_file_hash Pipeline.toy_hex f <> None)
                 [Samples.ok_file; Samples.cat_cat_file])
    by (repeat constructor; discriminate).
  split; [discriminate | split; [| split; [exact Hh |]]].
  - exact (proj1 (progress_writes_monotone Pipeline.toy_hex Meta.strptime_strict 3
                    [Samples.ok_file; Samples.unreadable_file] Pipeline.empty_db
                    ltac:(discriminate))).
  - exact (proj2 (proj2 (proj2 (proj2 (progress_writes_monotone Pipeline.toy_hex
             Meta.strptime_strict 3 [Samples.ok_file; Samples.cat_cat_file] Pipeline.empty_db
             ltac:(discriminate))))) ltac:(reflexivity) ltac:(discriminate) Hh).
Defined.

(** ** Re-importing a directory *)

Section Reimport.
Import Pipeline.
Variable sha : string -> string.
Variable strp : string -> option string.



Lemma NoDup_snoc : forall (A : Type) (l : list A) x,
  NoDup l -> ~ In x l -> NoDup (l ++ [x])%list.
Proof.
  intros A l. induction l as [|a l IH]; intros x Hnd Hx; simpl.
  - constructor; [intros [] | constructor].
  - inversion Hnd as [|? ? Ha Hnd']; subst. constructor.
    + rewrite in_app_iff. intros [H1|[H1|[]]]; [contradiction|].
      subst. apply Hx. left. reflexivity.
    + apply IH; [exact Hnd'|]. intros H1. apply Hx. right. exact H1.
Qed.




End Reimport.




(* ================================================================= *)
(** * Further properties of the pipeline and the catalog pages *)

(** ** Per-run accounting *)

Section Accounting.
Import Pipeline.
Variable sha : string -> string.
Variable strp : string -> option string.

Lemma process_file_outcome : forall total st f,
  exists o, outcomes (process_file sha strp total st f) = (outcomes st ++ [(path f, o)])%list /\
    processed (process_file sha strp total st f)
      = (processed st + if counts_item o then 1 else 0)%Z /\
    skipped (process_file sha strp total st f)
      = (skipped st + if is_skip o then 1 else 0)%Z.
Proof.
  intros total st f. unfold process_file.
  destruct (calculate_file_hash sha f) as [h|].
  - destruct (hash_exists h (st_db st)); [exists SkippedDuplicate|].
    + unfold count_item; cbn. repeat split; first [reflexivity | lia].
    + destruct (copy_fails f); [exists ItemError|].
      * unfold count_item; cbn. repeat split; first [reflexivity | lia].
      * destruct (insert_image _ _); [exists Imported | exists ItemError];
          unfold count_item; cbn; repeat split; first [reflexivity | lia].
  - exists HashFailed. cbn. repeat split; first [reflexivity | lia].
Qed.

Lemma fold_outcomes : forall total fs st,
  exists L, outcomes (fold_left (process_file sha strp total) fs st) = (outcomes st ++ L)%list /\
    map fst L = map path fs /\
    processed (fold_left (process_file sha strp total) fs st)
      = (processed st + Z.of_nat (length (filter (fun po => counts_item (snd po)) L)))%Z /\
    skipped (fold_left (process_file sha strp total) fs st)
      = (skipped st + Z.of_nat (length (filter (fun po => is_skip (snd po)) L)))%Z.
Proof.
  intros total fs. induction fs as [|f fs IH]; intros st; simpl.
  - exists []. rewrite app_nil_r. repeat split; simpl; lia.
  - destruct (process_file_outcome total st f) as [o [Ho [Hp Hs]]].
    destruct (IH (process_file sha strp total st f)) as [L [HL [Hm [Hp' Hs']]]].
    exists ((path f, o) :: L). rewrite HL, Ho, <- app_assoc. split; [reflexivity|].
    split; [simpl; rewrite Hm; reflexivity|].
    rewrite Hp', Hp, Hs', Hs. simpl.
    destruct (counts_item o), (is_skip o); simpl; split; lia.
Qed.

End Accounting.

(** A run with a positive batch size logs one outcome per scanned file,
    in scan order; [processed] counts every outcome but a hashing
    failure and [skipped] counts the duplicate skips. *)
Theorem run_accounting :
  forall (sha : string -> string) (strp : string -> option string)
         (bs : Z) (files : list Pipeline.source_file) (d0 : Pipeline.db),
  (0 < bs)%Z ->
  let r := Pipeline.process_images sha strp bs files d0 in
  map fst (Pipeline.outcomes r) = map Pipeline.path files /\
  Pipeline.processed r
    = Z.of_nat (length (filter (fun po => Pipeline.counts_item (snd po)) (Pipeline.outcomes r))) /\
  Pipeline.skipped r
    = Z.of_nat (length (filter (fun po => Pipeline.is_skip (snd po)) (Pipeline.outcomes r))).
Proof.
  intros sha strp bs files d0 Hbs r. subst r.
  rewrite (process_images_loop sha strp bs files d0 ltac:(lia)). cbv zeta.
  replace (0 <? bs)%Z with true by (symmetry; apply Z.ltb_lt; exact Hbs).
  match goal with |- context [fold_left ?g files ?st0] =>
    destruct (fold_outcomes sha strp (Z.of_nat (length files)) files st0) as [L [HL [Hm [Hp Hs]]]];
    set (st := fold_left g files st0) in * end.
  cbn [Pipeline.outcomes Pipeline.processed Pipeline.skipped] in *.
  rewrite HL, Hp, Hs. simpl. split; [exact Hm | split; reflexivity].
Qed.

Lemma run_accounting_witness :
  (0 < 20)%Z /\
  map fst (Pipeline.outcomes (Pipeline.process_images Pipeline.toy_hex Meta.strptime_strict 20
             [Samples.ok_file; Samples.unreadable_file; Samples.ok_file] Pipeline.empty_db))
  = map Pipeline.path [Samples.ok_file; Samples.unreadable_file; Samples.ok_file].
Proof.
  split; [lia|].
  exact (proj1 (run_accounting Pipeline.toy_hex Meta.strptime_strict 20
                  [Samples.ok_file; Samples.unreadable_file; Samples.ok_file] Pipeline.empty_db
                  ltac:(lia))).
Defined.

(** A negative batch size gives an empty [range]: no file is looked at,
    the catalog is untouched, and the run still reports "completed" with
    current = total right after "starting". *)
Theorem negative_batch_size_skips_all :
  forall (sha : string -> string) (strp : string -> option string)
         (bs : Z) (files : list Pipeline.source_file) (d0 : Pipeline.db),
  (bs < 0)%Z ->
  let r := Pipeline.process_images sha strp bs files d0 in
  let n := Z.of_nat (length files) in
  Pipeline.st_db r = d0 /\ Pipeline.outcomes r = [] /\ Pipeline.processed r = 0%Z /\
  Pipeline.writes r =
    [{| Pipeline.w_total := n; Pipeline.w_current := 0; Pipeline.w_status := "starting" |};
     {| Pipeline.w_total := n; Pipeline.w_current := n; Pipeline.w_status := "completed" |}].
Proof.
  intros sha strp bs files d0 Hbs r n. subst r n.
  unfold Pipeline.process_images, Pipeline.batches.
  replace (0 <? bs)%Z with false by (symmetry; apply Z.ltb_ge; lia).
  replace (bs =? 0)%Z with false by (symmetry; apply Z.eqb_neq; lia).
  repeat split; reflexivity.
Qed.

Lemma negative_batch_size_skips_all_witness :
  (-5 < 0)%Z /\
  Pipeline.outcomes (Pipeline.process_images Pipeline.toy_hex Meta.strptime_strict (-5)
                       [Samples.ok_file] Pipeline.empty_db) = [].
Proof.
  split; [lia|].
  exact (proj1 (proj2 (negative_batch_size_skips_all Pipeline.toy_hex Meta.strptime_strict (-5)
                  [Samples.ok_file] Pipeline.empty_db ltac:(lia)))).
Defined.

(** A batch size of 0 makes [range] raise before any file is looked at:
    the run's only progress write is "starting" at 0, and the UI's
    liveness check reports an import running for the 300 seconds after
    that write. *)
Theorem zero_batch_size_stops_at_start :
  forall (sha : string -> string) (strp : string -> option string)
         (files : list Pipeline.source_file) (d0 : Pipeline.db) (t now : Q),
  (now - t < 300)%Q ->
  let r := Pipeline.process_images sha strp 0 files d0 in
  Pipeline.st_db r = d0 /\ Pipeline.outcomes r = [] /\
  Pipeline.writes r =
    [{| Pipeline.w_total := Z.of_nat (length files); Pipeline.w_current := 0;
        Pipeline.w_status := "starting" |}] /\
  fst (Progress.is_import_running (Progress.final_file (Pipeline.writes r) t) now) = true.
Proof.
  intros sha strp files d0 t now Hlt r. subst r.
  repeat split; try reflexivity.
  cbn. destruct (Qlt_le_dec (now - t) 300) as [_|Hge]; [reflexivity|].
  exfalso. apply (Qlt_not_le _ _ Hlt Hge).
Qed.

Lemma zero_batch_size_stops_at_start_witness :
  (10 - 0 < 300)%Q /\
  fst (Progress.is_import_running
         (Progress.final_file (Pipeline.writes (Pipeline.process_images Pipeline.toy_hex
            Meta.strptime_strict 0 [Samples.ok_file] Pipeline.empty_db)) 0) 10) = true.
Proof.
  split; [reflexivity|].
  exact (proj2 (proj2 (proj2 (zero_batch_size_stops_at_start Pipeline.toy_hex Meta.strptime_strict
                  [Samples.ok_file] Pipeline.empty_db 0 10 ltac:(reflexivity))))).
Defined.

(** With a nonzero batch size the run's last write is "completed", so
    from then on the UI's liveness check reports no import running and
    leaves the file as it is. *)
Theorem finished_run_not_running :
  forall (sha : string -> string) (strp : string -> option string)
         (bs : Z) (files : list Pipeline.source_file) (d0 : Pipeline.db) (t now : Q),
  bs <> 0%Z ->
  let f := Progress.final_file
             (Pipeline.writes (Pipeline.process_images sha strp bs files d0)) t in
  Progress.is_import_running f now = (false, f).
Proof.
  intros sha strp bs files d0 t now Hbs f. subst f.
  rewrite (process_images_loop sha strp bs files d0 Hbs). cbv zeta.
  unfold Progress.final_file. cbn [Pipeline.writes]. rewrite rev_app_distr. reflexivity.
Qed.

Lemma finished_run_not_running_witness :
  (20 <> 0)%Z /\
  Progress.is_import_running
    (Progress.final_file (Pipeline.writes (Pipeline.process_images Pipeline.toy_hex
       Meta.strptime_strict 20 [Samples.ok_file] Pipeline.empty_db)) 0) 1000
  = (false, Progress.final_file (Pipeline.writes (Pipeline.process_images Pipeline.toy_hex
       Meta.strptime_strict 20 [Samples.ok_file] Pipeline.empty_db)) 0).
Proof.
  split; [discriminate|].
  exact (finished_run_not_running Pipeline.toy_hex Meta.strptime_strict 20
           [Samples.ok_file] Pipeline.empty_db 0 1000 ltac:(discriminate)).
Defined.

(** ** The tag table *)

Section TagTable.
Import Pipeline.

Lemma tag_count_missing : forall u tbl, tag_exists u tbl = false -> tag_count u tbl = 0%Z.
Proof.
  intros u tbl. unfold tag_exists, tag_count. induction tbl as [|[k v] rest IH]; simpl; [reflexivity|].
  destruct (String.eqb k u); [discriminate | exact IH].
Qed.

Lemma tag_exists_add : forall u t delta tbl,
  tag_exists u (tag_add t delta tbl) = tag_exists u tbl.
Proof.
  intros u t delta tbl. unfold tag_exists, tag_add.
  induction tbl as [|[k v] rest IH]; simpl; [reflexivity|].
  destruct (String.eqb k t); simpl; rewrite IH; reflexivity.
Qed.

Lemma tag_count_add : forall u t delta tbl,
  tag_count u (tag_add t delta tbl)
  = (tag_count u tbl + if String.eqb t u then (if tag_exists u tbl then delta else 0) else 0)%Z.
Proof.
  intros u t delta tbl. unfold tag_count, tag_exists, tag_add.
  induction tbl as [|[k v] rest IH]; simpl.
  - destruct (String.eqb t u); reflexivity.
  - destruct (String.eqb k t) eqn:Ekt; simpl.
    + apply String.eqb_eq in Ekt. subst k.
      destruct (String.eqb t u) eqn:Etu; simpl; [reflexivity|]. exact IH.
    + destruct (String.eqb k u) eqn:Eku; simpl.
      * apply String.eqb_eq in Eku. subst k. rewrite String.eqb_sym, Ekt. lia.
      * exact IH.
Qed.

Lemma tag_exists_snoc : forall u t c tbl,
  tag_exists u (tbl ++ [(t, c)])%list = (tag_exists u tbl || String.eqb t u)%bool.
Proof.
  intros u t c tbl. unfold tag_exists. rewrite existsb_app. simpl. rewrite orb_false_r. reflexivity.
Qed.

Lemma tag_count_snoc : forall u t c tbl,
  tag_count u (tbl ++ [(t, c)])%list
  = if tag_exists u tbl then tag_count u tbl else if String.eqb t u then c else 0%Z.
Proof.
  intros u t c tbl. unfold tag_count, tag_exists.
  induction tbl as [|[k v] rest IH]; simpl.
  - destruct (String.eqb t u); reflexivity.
  - destruct (String.eqb k u); simpl; [reflexivity | exact IH].
Qed.

(** A loop over distinct tags whose step touches only the row of its own
    tag changes the row of [u] once, when it reaches [u]. *)
Lemma fold_view : forall (s : list (string * Z) -> string -> list (string * Z)) u
                         (F : Z * bool -> Z * bool),
  (forall tbl t, t <> u -> view u (s tbl t) = view u tbl) ->
  (forall tbl, view u (s tbl u) = F (view u tbl)) ->
  forall l tbl, NoDup l ->
  view u (fold_left s l tbl) = if existsb (String.eqb u) l then F (view u tbl) else view u tbl.
Proof.
  intros s u F Hoth Hown l. induction l as [|t l IH]; intros tbl Hnd; simpl; [reflexivity|].
  inversion Hnd as [|? ? Hnin Hnd']; subst.
  rewrite IH by exact Hnd'.
  destruct (String.eqb u t) eqn:Eut; simpl.
  - apply String.eqb_eq in Eut. subst t.
    assert (Hn : existsb (String.eqb u) l = false).
    { destruct (existsb (String.eqb u) l) eqn:E; [|reflexivity].
      apply existsb_exists in E as [x [Hx Ex]]. apply String.eqb_eq in Ex. subst x.
      contradiction. }
    rewrite Hn. apply Hown.
  - assert (Htu : t <> u) by (intro; subst; rewrite String.eqb_refl in Eut; discriminate).
    destruct (existsb (String.eqb u) l).
    + rewrite (Hoth tbl t Htu). reflexivity.
    + apply Hoth. exact Htu.
Qed.

Lemma view_add_other : forall u t delta tbl, t <> u -> view u (tag_add t delta tbl) = view u tbl.
Proof.
  intros u t delta tbl Htu. unfold view. rewrite tag_count_add, tag_exists_add.
  replace (String.eqb t u) with false by (symmetry; apply String.eqb_neq; exact Htu).
  f_equal. lia.
Qed.

Lemma view_snoc_other : forall u t c tbl, t <> u -> view u (tbl ++ [(t, c)])%list = view u tbl.
Proof.
  intros u t c tbl Htu. unfold view. rewrite tag_count_snoc, tag_exists_snoc.
  replace (String.eqb t u) with false by (symmetry; apply String.eqb_neq; exact Htu).
  rewrite orb_false_r. destruct (tag_exists u tbl) eqn:E; [reflexivity|].
  rewrite (tag_count_missing u tbl E). reflexivity.
Qed.

Lemma view_bump : forall u tbl,
  view u (bump_tag tbl u) = ((tag_count u tbl + 1)%Z, true).
Proof.
  intros u tbl. unfold view, bump_tag.
  destruct (tag_exists u tbl) eqn:E.
  - rewrite tag_count_add, tag_exists_add, String.eqb_refl, E. reflexivity.
  - rewrite tag_count_snoc, tag_exists_snoc, E, String.eqb_refl, (tag_count_missing u tbl E).
    reflexivity.
Qed.

Lemma view_bump_other : forall u t tbl, t <> u -> view u (bump_tag tbl t) = view u tbl.
Proof.
  intros u t tbl Htu. unfold bump_tag. destruct (tag_exists t tbl).
  - apply view_add_other. exact Htu.
  - apply view_snoc_other. exact Htu.
Qed.

(** The insert loop of [process_images] over distinct tags adds one to
    the count of each of them. *)
Lemma tag_count_bumps : forall u ts tbl, NoDup ts ->
  tag_count u (fold_left bump_tag ts tbl)
  = (tag_count u tbl + if existsb (String.eqb u) ts then 1 else 0)%Z.
Proof.
  intros u ts tbl Hnd.
  pose proof (fold_view bump_tag u (fun v => ((fst v + 1)%Z, true))
                (fun tbl t Ht => view_bump_other u t tbl Ht) (view_bump u) ts tbl Hnd) as H.
  unfold view at 1 in H. destruct (existsb (String.eqb u) ts); simpl in H;
    injection H as H _; rewrite H; unfold view; simpl; lia.
Qed.

Lemma records_with_snoc : forall u d d' r,
  images d' = (images d ++ [r])%list ->
  records_with u d' = (records_with u d + if existsb (String.eqb u) (tags r) then 1 else 0)%Z.
Proof.
  intros u d d' r He. unfold records_with. rewrite He, filter_app, length_app. simpl.
  destruct (existsb (String.eqb u) (tags r)); simpl; lia.
Qed.

Lemma records_with_pos : forall u d r,
  In r (images d) -> existsb (String.eqb u) (tags r) = true -> (1 <= records_with u d)%Z.
Proof.
  intros u d r Hin Hu. unfold records_with.
  assert (Hf : In r (filter (fun r => existsb (String.eqb u) (tags r)) (images d)))
    by (apply filter_In; split; assumption).
  destruct (filter _ _); [contradiction | simpl; lia].
Qed.

End TagTable.

(** ** The catalog invariant under imports and tag edits *)

Section CatalogImport.
Import Pipeline.
Variable sha : string -> string.
Variable strp : string -> option string.

Lemma catalog_ok_insert : forall d r ts,
  Catalog.catalog_ok d -> row_id r = next_id d -> tags r = ts -> NoDup ts ->
  Catalog.catalog_ok {| images := (images d ++ [r])%list;
                        tags_tbl := fold_left bump_tag ts (tags_tbl d);
                        next_id := (next_id d + 1)%Z |}.
Proof.
  intros d r ts [Hc [Hid Hall]] Hr Ht Hnd. split; [|split].
  - intros u. cbn [tags_tbl]. rewrite tag_count_bumps by exact Hnd.
    erewrite (records_with_snoc u d _ r) by reflexivity. rewrite Hc, Ht. reflexivity.
  - cbn [images]. rewrite map_app. apply NoDup_snoc; [exact Hid|]. cbn [map].
    intros Hin. apply in_map_iff in Hin as [r' [Hr' Hin']].
    rewrite Forall_forall in Hall. destruct (Hall r' Hin') as [Hlt _]. lia.
  - cbn [images next_id]. apply Forall_app. split.
    + eapply Forall_impl; [|exact Hall]. simpl. intros r' [Hlt Hn]. split; [lia | exact Hn].
    + constructor; [split; [lia | rewrite Ht; exact Hnd] | constructor].
Qed.

Lemma process_file_catalog_ok : forall total st f,
  Catalog.catalog_ok (st_db st) ->
  NoDup (fst (Ollama.classify_image_with_ollama (ollama_env f))) ->
  Catalog.catalog_ok (st_db (process_file sha strp total st f)).
Proof.
  intros total st f Hok Hnd. unfold process_file.
  destruct (calculate_file_hash sha f) as [h|]; [|exact Hok].
  destruct (hash_exists h (st_db st)) eqn:He; [exact Hok|].
  destruct (copy_fails f); [exact Hok|].
  unfold insert_image. cbn [hash]. rewrite He.
  unfold count_item. cbn [st_db images tags_tbl next_id].
  apply catalog_ok_insert; [exact Hok | reflexivity | reflexivity | exact Hnd].
Qed.

Lemma fold_catalog_ok : forall total fs st,
  Catalog.catalog_ok (st_db st) ->
  (forall f, In f fs -> NoDup (fst (Ollama.classify_image_with_ollama (ollama_env f)))) ->
  Catalog.catalog_ok (st_db (fold_left (process_file sha strp total) fs st)).
Proof.
  intros total fs. induction fs as [|f fs IH]; intros st Hok Hall; simpl; [exact Hok|].
  apply IH.
  - apply process_file_catalog_ok; [exact Hok | apply Hall; left; reflexivity].
  - intros g Hg. apply Hall. right. exact Hg.
Qed.

End CatalogImport.

(** An import run keeps the catalog invariant (every stored tag count
    equals the number of records holding the tag, record ids distinct
    and below the next id, no record listing a tag twice) whenever the
    classifier's answer for each file repeats no tag. *)
Theorem import_keeps_catalog_ok :
  forall (sha : string -> string) (strp : string -> option string)
         (bs : Z) (files : list Pipeline.source_file) (d0 : Pipeline.db),
  Catalog.catalog_ok d0 ->
  (forall f, In f files ->
     NoDup (fst (Ollama.classify_image_with_ollama (Pipeline.ollama_env f)))) ->
  Catalog.catalog_ok (Pipeline.st_db (Pipeline.process_images sha strp bs files d0)).
Proof.
  intros sha strp bs files d0 Hok Hall.
  destruct (Z.eq_dec bs 0) as [->|Hbs]; [exact Hok|].
  rewrite (process_images_loop sha strp bs files d0 Hbs). cbv zeta. cbn [Pipeline.st_db].
  apply fold_catalog_ok; [exact Hok|].
  intros f Hf. apply Hall. destruct (0 <? bs)%Z; [exact Hf | destruct Hf].
Qed.

Section CatalogEdit.
Import Pipeline.

Lemma records_with_update : forall u image_id new_tags (L : list image_row) r,
  NoDup (map row_id L) -> In r L -> row_id r = image_id ->
  Z.of_nat (length (filter (fun r => existsb (String.eqb u) (tags r))
    (map (fun r => if Z.eqb (row_id r) image_id then
                     {| row_id := row_id r; filename := filename r;
                        original_path := original_path r; hash := hash r;
                        thumbnail_path := thumbnail_path r; tags := new_tags;
                        meta := meta r |}
                   else r) L)))
  = (Z.of_nat (length (filter (fun r => existsb (String.eqb u) (tags r)) L))
     - (if existsb (String.eqb u) (tags r) then 1 else 0)
     + (if existsb (String.eqb u) new_tags then 1 else 0))%Z.
Proof.
  intros u image_id new_tags L. induction L as [|r0 L IH]; intros r Hnd Hin Hr; [destruct Hin|].
  inversion Hnd as [|? ? Hn0 Hnd']; subst.
  simpl. destruct (Z.eqb (row_id r0) (row_id r)) eqn:E.
  - apply Z.eqb_eq in E.
    assert (Hrr : r0 = r).
    { destruct Hin as [Hin|Hin]; [exact Hin|].
      exfalso. apply Hn0. rewrite E. apply in_map. exact Hin. }
    subst r0.
    rewrite map_ext_in with (g := fun x => x).
    2: { intros x Hx. destruct (Z.eqb (row_id x) (row_id r)) eqn:Ex; [|reflexivity].
         apply Z.eqb_eq in Ex. exfalso. apply Hn0. rewrite <- Ex. apply in_map. exact Hx. }
    rewrite map_id. cbn [filter tags].
    destruct (existsb (String.eqb u) new_tags), (existsb (String.eqb u) (tags r));
      cbn [length]; lia.
  - destruct Hin as [Hin|Hin]; [subst r0; rewrite Z.eqb_refl in E; discriminate|].
    destruct (existsb (String.eqb u) (tags r0)); cbn [length];
      [rewrite Nat2Z.inj_succ, Nat2Z.inj_succ|]; rewrite (IH r Hnd' Hin eq_refl); lia.
Qed.

End CatalogEdit.

(** Editing the tags of a stored record with [update_image_tags] keeps
    the catalog invariant when the new tag list repeats no tag (the
    detail view's multiselect gives distinct tags): every stored count
    still equals the number of records holding the tag. *)
Theorem update_tags_keeps_catalog_ok :
  forall (d : Pipeline.db) (image_id : Z) (new_tags : list string),
  Catalog.catalog_ok d -> In image_id (map Pipeline.row_id (Pipeline.images d)) ->
  NoDup new_tags ->
  Catalog.catalog_ok (Pipeline.update_image_tags d image_id new_tags).
Proof.
  intros d id nt [Hc [Hid Hall]] Hin Hnd.
  destruct (find (fun r => Z.eqb (Pipeline.row_id r) id) (Pipeline.images d)) as [r|] eqn:Hf.
  2: { exfalso. apply in_map_iff in Hin as [r [Hr Hr']].
       pose proof (find_none _ _ Hf r Hr') as H. cbv beta in H.
       rewrite Hr, Z.eqb_refl in H. discriminate. }
  destruct (find_some _ _ Hf) as [Hrin Hrid]. apply Z.eqb_eq in Hrid.
  assert (Hndr : NoDup (Pipeline.tags r))
    by (rewrite Forall_forall in Hall; exact (proj2 (Hall r Hrin))).
  unfold Pipeline.update_image_tags. cbv zeta. rewrite Hf. cbn beta iota.
  split; [|split].
  - intros u. cbn [Pipeline.tags_tbl].
    set (h := fun tbl t => if existsb (String.eqb t) nt then tbl
                           else Pipeline.tag_add t (-1) tbl).
    set (g := fun tbl t => if Pipeline.tag_exists t tbl then
                             if existsb (String.eqb t) (Pipeline.tags r) then tbl
                             else Pipeline.tag_add t 1 tbl
                           else (tbl ++ [(t, 1%Z)])%list).
    set (tbl0 := Pipeline.tags_tbl d).
    assert (V1 := fold_view h u
      (fun v => if existsb (String.eqb u) nt then v
                else ((fst v + if snd v then -1 else 0)%Z, snd v))).
    assert (V2 := fold_view g u
      (fun v => if snd v then
                  (if existsb (String.eqb u) (Pipeline.tags r) then v
                   else ((fst v + 1)%Z, true))
                else (1%Z, true))).
    specialize (V1 ltac:(intros tbl t Htu; unfold h;
                         destruct (existsb (String.eqb t) nt);
                         [reflexivity | apply view_add_other; exact Htu])).
    specialize (V1 ltac:(intros tbl; unfold h;
                         destruct (existsb (String.eqb u) nt); [reflexivity|];
                         unfold Pipeline.view; rewrite tag_count_add, tag_exists_add, String.eqb_refl;
                         reflexivity)).
    specialize (V2 ltac:(intros tbl t Htu; unfold g;
                         destruct (Pipeline.tag_exists t tbl);
                         [destruct (existsb (String.eqb t) (Pipeline.tags r));
                          [reflexivity | apply view_add_other; exact Htu]
                         | apply view_snoc_other; exact Htu])).
    specialize (V2 ltac:(intros tbl; unfold g, Pipeline.view at 2; cbn [fst snd];
                         destruct (Pipeline.tag_exists u tbl) eqn:Eu;
                         [destruct (existsb (String.eqb u) (Pipeline.tags r));
                          [reflexivity|];
                          unfold Pipeline.view; rewrite tag_count_add, tag_exists_add,
                            String.eqb_refl, Eu; reflexivity
                         | unfold Pipeline.view; rewrite tag_count_snoc, tag_exists_snoc, Eu,
                             String.eqb_refl; reflexivity])).
    specialize (V1 (Pipeline.tags r) tbl0 Hndr).
    specialize (V2 nt (fold_left h (Pipeline.tags r) tbl0) Hnd).
    assert (Hcount : Pipeline.tag_count u
                       (fold_left g nt (fold_left h (Pipeline.tags r) tbl0))
                     = fst (Pipeline.view u (fold_left g nt (fold_left h (Pipeline.tags r) tbl0))))
      by reflexivity.
    rewrite Hcount, V2. clear Hcount V2.
    unfold Pipeline.records_with. cbn [Pipeline.images].
    rewrite (records_with_update u id nt (Pipeline.images d) r Hid Hrin Hrid).
    fold (Pipeline.records_with u d). rewrite <- Hc. fold tbl0.
    assert (Hex : existsb (String.eqb u) (Pipeline.tags r) = true ->
                  Pipeline.tag_exists u tbl0 = true).
    { intros Hu. destruct (Pipeline.tag_exists u tbl0) eqn:E; [reflexivity|].
      pose proof (records_with_pos u d r Hrin Hu) as Hp.
      rewrite <- Hc in Hp. fold tbl0 in Hp. rewrite (tag_count_missing u tbl0 E) in Hp. lia. }
    destruct (Pipeline.view u (fold_left h (Pipeline.tags r) tbl0)) as [c1 e1] eqn:Ev1.
    try rewrite Ev1 in V1. unfold Pipeline.view in V1.
    destruct (existsb (String.eqb u) (Pipeline.tags r)) eqn:Ea;
      destruct (existsb (String.eqb u) nt) eqn:Eb;
      destruct (Pipeline.tag_exists u tbl0) eqn:Ee;
      try (specialize (Hex eq_refl); discriminate);
      injection V1 as V1a V1b; subst c1 e1; cbn [fst snd];
      first [lia | rewrite (tag_count_missing u tbl0 Ee); lia].
  - cbn [Pipeline.images]. rewrite map_map.
    erewrite map_ext; [exact Hid|].
    intros x. destruct (Z.eqb (Pipeline.row_id x) id); reflexivity.
  - cbn [Pipeline.images Pipeline.next_id]. apply Forall_map.
    eapply Forall_impl; [|exact Hall]. intros x [Hlt Hn].
    destruct (Z.eqb (Pipeline.row_id x) id); cbn [Pipeline.row_id Pipeline.tags];
      split; assumption.
Qed.

Lemma update_tags_keeps_catalog_ok_witness :
  Catalog.catalog_ok Samples.sample_db /\
  In 1%Z (map Pipeline.row_id (Pipeline.images Samples.sample_db)) /\
  NoDup ["dog"; "sunny"] /\
  Catalog.catalog_ok (Pipeline.update_image_tags Samples.sample_db 1 ["dog"; "sunny"]).
Proof.
  assert (H0 : Catalog.catalog_ok Pipeline.empty_db).
  { split; [intros t; reflexivity | split; constructor]. }
  assert (H1 : Catalog.catalog_ok Samples.sample_db).
  { exact (catalog_ok_insert Pipeline.empty_db Samples.sample_row ["cat"] H0
             eq_refl eq_refl ltac:(repeat constructor; simpl; tauto)). }
  assert (H2 : In 1%Z (map Pipeline.row_id (Pipeline.images Samples.sample_db)))
    by (simpl; left; reflexivity).
  assert (H3 : NoDup ["dog"; "sunny"])
    by (repeat constructor; simpl; intuition discriminate).
  split; [exact H1 | split; [exact H2 | split; [exact H3|]]].
  exact (update_tags_keeps_catalog_ok Samples.sample_db 1 ["dog"; "sunny"] H1 H2 H3).
Defined.

Lemma import_keeps_catalog_ok_witness :
  Catalog.catalog_ok Pipeline.empty_db /\
  (forall f, In f [Samples.ok_file; Samples.unreadable_file] ->
     NoDup (fst (Ollama.classify_image_with_ollama (Pipeline.ollama_env f)))) /\
  Catalog.catalog_ok (Pipeline.st_db (Pipeline.process_images Pipeline.toy_hex
     Meta.strptime_strict 20 [Samples.ok_file; Samples.unreadable_file] Pipeline.empty_db)).
Proof.
  assert (H0 : Catalog.catalog_ok Pipeline.empty_db).
  { split; [intros t; reflexivity | split; constructor]. }
  assert (H1 : forall f, In f [Samples.ok_file; Samples.unreadable_file] ->
     NoDup (fst (Ollama.classify_image_with_ollama (Pipeline.ollama_env f)))).
  { intros f [<-|[<-|[]]]; vm_compute; repeat constructor; simpl; intuition discriminate. }
  split; [exact H0 | split; [exact H1|]].
  exact (import_keeps_catalog_ok Pipeline.toy_hex Meta.strptime_strict 20
           [Samples.ok_file; Samples.unreadable_file] Pipeline.empty_db H0 H1).
Defined.

(** ** The Find Duplicates page *)

Section Duplicates.
Import Pipeline.

Lemma group_of_cons : forall h k vs g,
  Catalog.group_of h ((k, vs) :: g) = if String.eqb k h then vs else Catalog.group_of h g.
Proof.
  intros h k vs g. unfold Catalog.group_of. simpl. destruct (String.eqb k h); reflexivity.
Qed.

Lemma group_of_add : forall h k v g,
  Catalog.group_of h (Catalog.group_add k v g)
  = if String.eqb k h then (Catalog.group_of h g ++ [v])%list else Catalog.group_of h g.
Proof.
  intros h k v g. induction g as [|[k' vs] rest IH]; simpl.
  - rewrite group_of_cons. destruct (String.eqb k h); reflexivity.
  - destruct (String.eqb_spec k' k) as [->|Hne].
    + rewrite !group_of_cons. destruct (String.eqb k h); reflexivity.
    + rewrite !group_of_cons, IH.
      destruct (String.eqb_spec k' h) as [->|Hne'];
        destruct (String.eqb_spec k h) as [->|Hne'']; congruence.
Qed.

Lemma fold_groups : forall h rows g,
  Catalog.group_of h
    (fold_left (fun g r => Catalog.group_add (hash r) (original_path r, filename r) g) rows g)
  = (Catalog.group_of h g ++
     map (fun r => (original_path r, filename r))
         (filter (fun r => String.eqb (hash r) h) rows))%list.
Proof.
  intros h rows. induction rows as [|r rows IH]; intros g; simpl.
  - rewrite app_nil_r. reflexivity.
  - rewrite IH, group_of_add. destruct (String.eqb (hash r) h); simpl;
      [rewrite <- app_assoc; reflexivity | reflexivity].
Qed.

Lemma keys_group_add : forall k v g,
  map fst (Catalog.group_add k v g)
  = if existsb (fun kv => String.eqb (fst kv) k) g then map fst g else (map fst g ++ [k])%list.
Proof.
  intros k v g. induction g as [|[k' vs] rest IH]; simpl; [reflexivity|].
  destruct (String.eqb k' k); simpl; [reflexivity|].
  rewrite IH. destruct (existsb _ rest); reflexivity.
Qed.

Lemma groups_ok_add : forall k v g, Catalog.groups_ok g -> Catalog.groups_ok (Catalog.group_add k v g).
Proof.
  intros k v g [Hk Hne]. split.
  - rewrite keys_group_add. destruct (existsb (fun kv => String.eqb (fst kv) k) g) eqn:E;
      [exact Hk|].
    apply NoDup_snoc; [exact Hk|]. intros Hin. apply in_map_iff in Hin as [[k' vs] [Hk' Hin]].
    simpl in Hk'. subst k'.
    assert (existsb (fun kv => String.eqb (fst kv) k) g = true)
      by (apply existsb_exists; exists (k, vs); split; [exact Hin | apply String.eqb_refl]).
    congruence.
  - clear Hk. induction g as [|[k' vs] rest IH]; simpl.
    + constructor; [simpl; discriminate | constructor].
    + inversion Hne as [|? ? Hvs Hrest]; subst. destruct (String.eqb k' k).
      * constructor; [simpl; destruct vs; simpl; discriminate | exact Hrest].
      * constructor; [exact Hvs | exact (IH Hrest)].
Qed.

Lemma hash_groups_ok : forall rows, Catalog.groups_ok (Catalog.hash_groups rows).
Proof.
  intros rows. unfold Catalog.hash_groups.
  assert (H : forall g, Catalog.groups_ok g -> Catalog.groups_ok
    (fold_left (fun g r => Catalog.group_add (hash r) (original_path r, filename r) g) rows g)).
  { induction rows as [|r rows IH]; intros g Hg; simpl; [exact Hg|].
    apply IH, groups_ok_add, Hg. }
  apply H. split; constructor.
Qed.

Lemma groups_ok_in : forall g h vs,
  Catalog.groups_ok g -> (In (h, vs) g <-> Catalog.group_of h g = vs /\ vs <> []).
Proof.
  intros g h vs [Hk Hne]. induction g as [|[k ws] rest IH]; simpl.
  - unfold Catalog.group_of. simpl. split; [intros [] | intros [<- H]; apply H; reflexivity].
  - inversion Hk as [|? ? Hk0 Hk']; subst. inversion Hne as [|? ? Hws Hne']; subst.
    specialize (IH Hk' Hne'). rewrite group_of_cons.
    destruct (String.eqb_spec k h) as [->|Hkh].
    + split.
      * intros [Heq|Hin]; [injection Heq as ->; split; [reflexivity | exact Hws]|].
        exfalso. apply Hk0. apply in_map_iff. exists (h, vs). split; [reflexivity | exact Hin].
      * intros [<- _]. left. reflexivity.
    + rewrite <- IH. split; [intros [Heq|Hin]; [congruence | exact Hin] | intros Hin; right; exact Hin].
Qed.

Lemma filter_hash_nodup : forall h (rows : list image_row),
  NoDup (map hash rows) -> (length (filter (fun r => String.eqb (hash r) h) rows) <= 1)%nat.
Proof.
  intros h rows. induction rows as [|r rows IH]; intros Hnd; simpl; [lia|].
  inversion Hnd as [|? ? Hn Hnd']; subst.
  destruct (String.eqb_spec (hash r) h) as [<-|]; [|exact (IH Hnd')].
  assert (filter (fun r' => String.eqb (hash r') (hash r)) rows = []) as ->; [|simpl; lia].
  clear IH Hnd' Hnd. revert Hn. induction rows as [|r' rows IH']; intros Hn; simpl; [reflexivity|].
  destruct (String.eqb_spec (hash r') (hash r)) as [E|].
  - exfalso. apply Hn. left. exact E.
  - apply IH'. intros Hin. apply Hn. right. exact Hin.
Qed.

Lemma duplicates_in : forall (rows : list image_row) h vs,
  In (h, vs) (Catalog.duplicates rows) <->
  vs = map (fun r => (original_path r, filename r))
           (filter (fun r => String.eqb (hash r) h) rows) /\
  (1 < length vs)%nat.
Proof.
  intros rows h vs. unfold Catalog.duplicates. rewrite filter_In.
  rewrite (groups_ok_in _ h vs (hash_groups_ok rows)).
  unfold Catalog.hash_groups. rewrite fold_groups. cbn [snd].
  unfold Catalog.group_of at 1. simpl. rewrite Nat.ltb_lt.
  split.
  - intros [[<- _] H]. split; [reflexivity | exact H].
  - intros [-> H]. split; [split; [reflexivity|] | exact H].
    intros E. rewrite E in H. simpl in H. lia.
Qed.

Lemma duplicates_nil : forall rows : list image_row,
  NoDup (map hash rows) -> Catalog.duplicates rows = [].
Proof.
  intros rows Hnd. destruct (Catalog.duplicates rows) as [|[h vs] l] eqn:E; [reflexivity|].
  exfalso. assert (Hin : In (h, vs) (Catalog.duplicates rows)) by (rewrite E; left; reflexivity).
  apply duplicates_in in Hin as [-> Hlen]. rewrite length_map in Hlen.
  pose proof (filter_hash_nodup h rows Hnd). lia.
Qed.

Variable sha : string -> string.
Variable strp : string -> option string.

(** a property of the database that every file of a run keeps holds at
    the end of the run *)
Lemma run_preserves : forall P : db -> Prop,
  (forall total st f, P (st_db st) -> P (st_db (process_file sha strp total st f))) ->
  forall bs files d0, P d0 -> P (st_db (process_images sha strp bs files d0)).
Proof.
  intros P Hstep bs files d0 H0.
  destruct (Z.eq_dec bs 0) as [->|Hbs]; [exact H0|].
  rewrite (process_images_loop sha strp bs files d0 Hbs). cbv zeta. cbn [st_db].
  generalize (if (0 <? bs)%Z then files else []) as fs. intros fs.
  set (st0 := {| st_db := d0; processed := 0; skipped := 0; writes := _; outcomes := [] |}).
  assert (Hst0 : P (st_db st0)) by exact H0. clearbody st0.
  revert st0 Hst0. induction fs as [|f fs IH]; intros st Hst; simpl; [exact Hst|].
  apply IH, Hstep, Hst.
Qed.

Lemma process_file_hashes : forall total st f,
  NoDup (map hash (images (st_db st))) ->
  NoDup (map hash (images (st_db (process_file sha strp total st f)))).
Proof.
  intros total st f Hnd. unfold process_file.
  destruct (calculate_file_hash sha f) as [h|]; [|exact Hnd].
  destruct (hash_exists h (st_db st)) eqn:He; [exact Hnd|].
  destruct (copy_fails f); [exact Hnd|].
  unfold insert_image. cbn [hash]. rewrite He.
  unfold count_item. cbn [st_db images]. rewrite map_app.
  apply NoDup_snoc; [exact Hnd|]. cbn [map hash]. intros Hin.
  apply in_map_iff in Hin as [r [Hr Hin]].
  assert (hash_exists h (st_db st) = true)
    by (apply existsb_exists; exists r; split; [exact Hin | apply String.eqb_eq; exact Hr]).
  congruence.
Qed.

End Duplicates.

(** The Find Duplicates page lists the hash [h] with the files [vs]
    exactly when [vs] is the list of (original path, stored file name)
    of the records with hash [h], in table order, and there are at least
    two of them. *)
Theorem duplicates_spec : forall (rows : list Pipeline.image_row) h vs,
  In (h, vs) (Catalog.duplicates rows) <->
  vs = map (fun r => (Pipeline.original_path r, Pipeline.filename r))
           (filter (fun r => String.eqb (Pipeline.hash r) h) rows) /\
  (1 < length vs)%nat.
Proof. exact duplicates_in. Qed.

(** An import run never stores a second record with a hash already in
    the catalog, so on a catalog whose hashes were distinct the Find
    Duplicates page finds no group after the run. *)
Theorem import_no_duplicates :
  forall (sha : string -> string) (strp : string -> option string)
         (bs : Z) (files : list Pipeline.source_file) (d0 : Pipeline.db),
  NoDup (map Pipeline.hash (Pipeline.images d0)) ->
  NoDup (map Pipeline.hash
           (Pipeline.images (Pipeline.st_db (Pipeline.process_images sha strp bs files d0)))) /\
  Catalog.duplicates
    (Pipeline.images (Pipeline.st_db (Pipeline.process_images sha strp bs files d0))) = [].
Proof.
  intros sha strp bs files d0 Hnd.
  assert (H : NoDup (map Pipeline.hash
           (Pipeline.images (Pipeline.st_db (Pipeline.process_images sha strp bs files d0)))))
    by exact (run_preserves sha strp (fun d => NoDup (map Pipeline.hash (Pipeline.images d)))
                (process_file_hashes sha strp) bs files d0 Hnd).
  split; [exact H | exact (duplicates_nil _ H)].
Qed.

Lemma import_no_duplicates_witness :
  NoDup (map Pipeline.hash (Pipeline.images Pipeline.empty_db)) /\
  Catalog.duplicates (Pipeline.images (Pipeline.st_db (Pipeline.process_images
     Pipeline.toy_hex Meta.strptime_strict 20
     [Samples.ok_file; Samples.ok_file] Pipeline.empty_db))) = [].
Proof.
  assert (H0 : NoDup (map Pipeline.hash (Pipeline.images Pipeline.empty_db))) by constructor.
  split; [exact H0|].
  exact (proj2 (import_no_duplicates Pipeline.toy_hex Meta.strptime_strict 20
                  [Samples.ok_file; Samples.ok_file] Pipeline.empty_db H0)).
Defined.


(** ** Gallery pagination *)

Section Pagination.
Context {A : Type}.

Lemma firstn_app_skipn : forall (a b : nat) (l : list A),
  (firstn a l ++ firstn b (skipn a l))%list = firstn (a + b) l.
Proof.
  intros a. induction a as [|a IH]; intros b l; simpl; [reflexivity|].
  destruct l as [|x l]; simpl; [destruct b; reflexivity | rewrite IH; reflexivity].
Qed.

Lemma pages_concat : forall (rows : list A) per k s,
  concat (map (fun p => Catalog.page_rows rows p per) (seq s k))
  = firstn (k * per) (skipn (s * per) rows).
Proof.
  intros rows per k. induction k as [|k IH]; intros s; simpl; [reflexivity|].
  rewrite IH. unfold Catalog.page_rows.
  replace (S s * per)%nat with (per + s * per)%nat by lia.
  rewrite <- skipn_skipn, firstn_app_skipn. reflexivity.
Qed.

Lemma total_pages_bounds : forall n per : nat, (0 < per)%nat ->
  let t := Z.to_nat (Catalog.total_pages (Z.of_nat n) (Z.of_nat per)) in
  (n <= t * per)%nat /\ (forall p, (p < t)%nat -> (p * per < n)%nat).
Proof.
  intros n per Hper. cbv zeta. unfold Catalog.total_pages.
  assert (Hd := Z.div_mod (- Z.of_nat n) (Z.of_nat per) ltac:(lia)).
  assert (Hm := Z.mod_pos_bound (- Z.of_nat n) (Z.of_nat per) ltac:(lia)).
  set (q := (- Z.of_nat n / Z.of_nat per)%Z) in *.
  set (m := ((- Z.of_nat n) mod Z.of_nat per)%Z) in *.
  assert (Hq : (q <= 0)%Z) by nia.
  split.
  - apply Nat2Z.inj_le. rewrite Nat2Z.inj_mul, Z2Nat.id by lia. nia.
  - intros p Hp. apply Nat2Z.inj_lt in Hp. rewrite Z2Nat.id in Hp by lia.
    apply Nat2Z.inj_lt. rewrite Nat2Z.inj_mul. nia.
Qed.

End Pagination.

(** With [per_page > 0], the pages 0 .. total_pages - 1 that the
    Previous and Next buttons reach are each non-empty and together
    list every result row once, in order. *)
Theorem pagination_covers_rows : forall {A : Type} (rows : list A) (per_page : nat),
  (0 < per_page)%nat ->
  let pages := Z.to_nat (Catalog.total_pages (Z.of_nat (length rows)) (Z.of_nat per_page)) in
  concat (map (fun p => Catalog.page_rows rows p per_page) (seq 0 pages)) = rows /\
  (forall p, (p < pages)%nat -> Catalog.page_rows rows p per_page <> []).
Proof.
  intros A rows per Hper. cbv zeta.
  destruct (total_pages_bounds (length rows) per Hper) as [Hall Hlt].
  split.
  - rewrite pages_concat. simpl. apply firstn_all2. exact Hall.
  - intros p Hp. specialize (Hlt p Hp). unfold Catalog.page_rows.
    destruct (skipn (p * per) rows) as [|x l] eqn:E.
    + apply (f_equal (@length A)) in E. rewrite length_skipn in E. simpl in E. lia.
    + destruct per as [|per']; [lia|]. simpl. discriminate.
Qed.

Lemma pagination_covers_rows_witness :
  (0 < 60)%nat /\
  concat (map (fun p => Catalog.page_rows (seq 0 130) p 60)
              (seq 0 (Z.to_nat (Catalog.total_pages 130 60)))) = seq 0 130.
Proof.
  split; [lia|].
  exact (proj1 (pagination_covers_rows (seq 0 130) 60 ltac:(lia))).
Defined.

(** ** The SQL of get_images *)

(** [get_images] never fails on its own SQL text: for every filter
    combination the count query is built, each query has exactly as many
    [?] placeholders as it is given parameters, and the page query takes
    the count query's parameters followed by [LIMIT] and [OFFSET]. *)
Theorem get_images_params_match : forall (tag search_query : option string) (page per_page : Z),
  exists query params count_query count_params,
    Catalog.get_images_query tag search_query page per_page
      = Some (query, params, count_query, count_params) /\
    Catalog.placeholders query = length params /\
    Catalog.placeholders count_query = length count_params /\
    params = (count_params ++ [Catalog.PInt per_page; Catalog.PInt (page * per_page)])%list.
Proof.
  intros tag search_query page per_page. unfold Catalog.get_images_query.
  destruct (Catalog.opt_truthy tag), (Catalog.opt_truthy search_query);
    vm_compute; eexists _, _, _, _; (split; [reflexivity|]); vm_compute;
    repeat split; reflexivity.
Qed.

(** ** The gallery's tag filter *)

Section TagFilter.
Import Pipeline.

Lemma las_app : forall a b : string,
  list_ascii_of_string (a ++ b) = (list_ascii_of_string a ++ list_ascii_of_string b)%list.
Proof. intros a b. induction a as [|c a IH]; simpl; [reflexivity | rewrite IH; reflexivity]. Qed.

Lemma like_pct_cons : forall p x s,
  Catalog.like ("%"%char :: p) (x :: s) = Catalog.like p (x :: s) || Catalog.like ("%"%char :: p) s.
Proof. reflexivity. Qed.

Lemma like_pct_here : forall p s,
  Catalog.like p s = true -> Catalog.like ("%"%char :: p) s = true.
Proof.
  intros p s H. destruct s as [|x s].
  - simpl. rewrite H. reflexivity.
  - rewrite like_pct_cons, H. reflexivity.
Qed.

Lemma like_pct_skip : forall p a s,
  Catalog.like p s = true -> Catalog.like ("%"%char :: p) (a ++ s) = true.
Proof.
  intros p a s H. induction a as [|x a IH]; cbn [app].
  - exact (like_pct_here p s H).
  - rewrite like_pct_cons, IH, orb_true_r. reflexivity.
Qed.

Lemma like_pct_all : forall s, Catalog.like ["%"%char] s = true.
Proof.
  intros s. rewrite <- (app_nil_r s). apply like_pct_skip. reflexivity.
Qed.

Lemma like_lit : forall p x q s,
  Forall2 (fun c y => Catalog.lower_char c = Catalog.lower_char y) p x ->
  Catalog.like q s = true -> Catalog.like (p ++ q) (x ++ s) = true.
Proof.
  intros p x q s H Hq. induction H as [|c y p x Hcy _ IH]; simpl; [exact Hq|].
  destruct (Ascii.eqb c "%") eqn:Ep.
  - apply Ascii.eqb_eq in Ep. subst c.
    change (Catalog.like ("%"%char :: (p ++ q)) (y :: (x ++ s)) = true).
    rewrite like_pct_cons, (like_pct_here _ _ IH), orb_true_r. reflexivity.
  - rewrite Hcy, Ascii.eqb_refl, orb_true_r, IH. reflexivity.
Qed.

Lemma Forall2_of_map : forall (f : ascii -> ascii) l1 l2,
  map f l1 = map f l2 -> Forall2 (fun a b => f a = f b) l1 l2.
Proof.
  intros f l1. induction l1 as [|a l1 IH]; intros [|b l2] H; simpl in H;
    try discriminate; constructor.
  - injection H as Hab _. exact Hab.
  - injection H as _ Hl. exact (IH l2 Hl).
Qed.

Lemma concat_in : forall (sep x : string) l1 l2,
  exists A B, list_ascii_of_string (String.concat sep (l1 ++ x :: l2))
              = (A ++ list_ascii_of_string x ++ B)%list.
Proof.
  intros sep x l1 l2. induction l1 as [|a l1 IH].
  - simpl. destruct l2 as [|b l2].
    + exists [], []. rewrite app_nil_r. reflexivity.
    + exists []. eexists. simpl. rewrite las_app. reflexivity.
  - destruct IH as [A [B IH]].
    exists (list_ascii_of_string a ++ list_ascii_of_string sep ++ A)%list, B.
    replace (String.concat sep ((a :: l1) ++ x :: l2)%list)
      with (a ++ sep ++ String.concat sep (l1 ++ x :: l2)%list)
      by (simpl; destruct (l1 ++ x :: l2)%list eqn:E; [destruct l1; discriminate | reflexivity]).
    rewrite !las_app, IH, <- !app_assoc. reflexivity.
Qed.

Lemma json_chars_plain : forall l : list ascii,
  forallb (fun c => let n := nat_of_ascii c in
                    ((32 <=? n) && (n <=? 126) && negb (n =? 34)
                     && negb (Ascii.eqb c "\"))%nat) l = true ->
  list_ascii_of_string (String.concat "" (map Catalog.json_char l)) = l.
Proof.
  intros l H. induction l as [|c l IH]; [reflexivity|].
  cbn [forallb] in H. apply andb_prop in H as [Hc Ht].
  apply andb_prop in Hc as [Hc Hbs]. apply andb_prop in Hc as [Hc Hq].
  apply andb_prop in Hc as [Hlo Hhi].
  assert (Hj : Catalog.json_char c = String c EmptyString).
  { unfold Catalog.json_char. apply negb_true_iff in Hbs, Hq.
    rewrite Hbs, Hq, Hlo, Hhi. reflexivity. }
  destruct l as [|c' l].
  - cbn [map String.concat]. rewrite Hj. reflexivity.
  - replace (String.concat "" (map Catalog.json_char (c :: c' :: l)))
      with (Catalog.json_char c ++ String.concat "" (map Catalog.json_char (c' :: l)))
      by reflexivity.
    rewrite las_app, Hj, (IH Ht). reflexivity.
Qed.

Lemma json_str_plain : forall t, Catalog.json_plain t = true ->
  list_ascii_of_string (Catalog.json_str t)
  = (list_ascii_of_string Catalog.dq ++ list_ascii_of_string t ++
     list_ascii_of_string Catalog.dq)%list.
Proof.
  intros t H. unfold Catalog.json_str. rewrite !las_app, (json_chars_plain _ H). reflexivity.
Qed.

Lemma tag_filter_in : forall t t' r,
  Catalog.json_plain t = true -> In t (tags r) -> Catalog.lower t' = Catalog.lower t ->
  Catalog.tag_filter t' r = true.
Proof.
  intros t t' r Hp Hin Hl. unfold Catalog.tag_filter.
  assert (Hd : exists A B, list_ascii_of_string (Catalog.json_dumps (tags r))
     = (A ++ (list_ascii_of_string Catalog.dq ++ list_ascii_of_string t ++
              list_ascii_of_string Catalog.dq) ++ B)%list).
  { apply in_split in Hin as [l1 [l2 Hsplit]].
    unfold Catalog.json_dumps. rewrite Hsplit, map_app. cbn [map].
    destruct (concat_in ", " (Catalog.json_str t) (map Catalog.json_str l1)
                (map Catalog.json_str l2)) as [A [B HAB]].
    exists ("[" :: A)%char, (B ++ ["]"%char])%list.
    rewrite !las_app, HAB, (json_str_plain t Hp). simpl.
    repeat first [rewrite <- app_assoc | rewrite <- app_comm_cons]. reflexivity. }
  destruct Hd as [A [B ->]].
  assert (Hpat : list_ascii_of_string ("%" ++ Catalog.dq ++ t' ++ Catalog.dq ++ "%")
     = ("%"%char :: (list_ascii_of_string Catalog.dq ++ list_ascii_of_string t' ++
                     list_ascii_of_string Catalog.dq) ++ ["%"%char])%list).
  { rewrite !las_app. simpl.
    repeat first [rewrite <- app_assoc | rewrite <- app_comm_cons]. reflexivity. }
  rewrite Hpat. apply like_pct_skip, like_lit; [|apply like_pct_all].
  assert (Hm : map Catalog.lower_char (list_ascii_of_string t')
               = map Catalog.lower_char (list_ascii_of_string t)).
  { apply (f_equal list_ascii_of_string) in Hl. unfold Catalog.lower in Hl.
    rewrite !list_ascii_of_string_of_list_ascii in Hl. exact Hl. }
  apply Forall2_app; [apply Forall2_of_map; reflexivity|].
  apply Forall2_app; [apply Forall2_of_map; exact Hm|].
  apply Forall2_of_map; reflexivity.
Qed.

End TagFilter.

(** The gallery's tag filter [tags LIKE '%"tag"%'] selects every record
    holding the tag, whatever the letter case of the filter, when the
    stored tag is printable ASCII with no double quote or backslash
    (the characters [json.dumps] would escape). *)
Theorem tag_filter_finds_tagged : forall (t t' : string) (r : Pipeline.image_row),
  Catalog.json_plain t = true -> In t (Pipeline.tags r) ->
  Catalog.lower t' = Catalog.lower t ->
  Catalog.tag_filter t' r = true.
Proof. exact tag_filter_in. Qed.

Lemma tag_filter_finds_tagged_witness :
  Catalog.json_plain "cat" = true /\ In "cat" (Pipeline.tags Samples.sample_row) /\
  Catalog.lower "Cat" = Catalog.lower "cat" /\
  Catalog.tag_filter "Cat" Samples.sample_row = true.
Proof.
  assert (H1 : Catalog.json_plain "cat" = true) by reflexivity.
  assert (H2 : In "cat" (Pipeline.tags Samples.sample_row)) by (left; reflexivity).
  assert (H3 : Catalog.lower "Cat" = Catalog.lower "cat") by reflexivity.
  split; [exact H1 | split; [exact H2 | split; [exact H3|]]].
  exact (tag_filter_finds_tagged "cat" "Cat" Samples.sample_row H1 H2 H3).
Defined.

(** ** Saving the detail view unchanged *)

Section SameTags.
Import Pipeline.

Lemma find_row_id : forall (L : list image_row) r,
  NoDup (map row_id L) -> In r L -> find (fun x => Z.eqb (row_id x) (row_id r)) L = Some r.
Proof.
  intros L r. induction L as [|x L IH]; intros Hnd Hin; [destruct Hin|].
  inversion Hnd as [|? ? Hx Hnd']; subst. simpl.
  destruct (Z.eqb_spec (row_id x) (row_id r)) as [E|E].
  - destruct Hin as [->|Hin]; [reflexivity|].
    exfalso. apply Hx. rewrite E. apply in_map. exact Hin.
  - destruct Hin as [->|Hin]; [exfalso; apply E; reflexivity | exact (IH Hnd' Hin)].
Qed.

Lemma catalog_tag_exists : forall d r u,
  Catalog.catalog_ok d -> In r (images d) -> In u (tags r) -> tag_exists u (tags_tbl d) = true.
Proof.
  intros d r u [Hc _] Hin Hu.
  destruct (tag_exists u (tags_tbl d)) eqn:E; [reflexivity|].
  assert (Hu' : existsb (String.eqb u) (tags r) = true)
    by (apply existsb_exists; exists u; split; [exact Hu | apply String.eqb_refl]).
  pose proof (records_with_pos u d r Hin Hu') as Hp.
  rewrite <- Hc, (tag_count_missing u _ E) in Hp. lia.
Qed.

Lemma update_same_tags : forall d r,
  Catalog.catalog_ok d -> In r (images d) ->
  update_image_tags d (row_id r) (tags r) = d.
Proof.
  intros d r Hok Hin. pose proof Hok as [_ [Hid _]].
  unfold update_image_tags. cbv zeta. rewrite (find_row_id _ r Hid Hin).
  assert (H1 : forall l tbl, incl l (tags r) ->
    fold_left (fun tbl t => if existsb (String.eqb t) (tags r) then tbl
                            else tag_add t (-1) tbl) l tbl = tbl).
  { intros l. induction l as [|t l IH]; intros tbl Hl; simpl; [reflexivity|].
    assert (E : existsb (String.eqb t) (tags r) = true)
      by (apply existsb_exists; exists t; split; [apply Hl; left; reflexivity
                                                 | apply String.eqb_refl]).
    rewrite E. apply IH. intros x Hx. apply Hl. right. exact Hx. }
  rewrite (H1 (tags r) (tags_tbl d) (incl_refl _)).
  assert (H2 : forall l, incl l (tags r) ->
    fold_left (fun tbl t =>
      if tag_exists t tbl then
        (if existsb (String.eqb t) (tags r) then tbl else tag_add t 1 tbl)
      else (tbl ++ [(t, 1%Z)])%list) l (tags_tbl d) = tags_tbl d).
  { intros l. induction l as [|t l IH]; intros Hl; simpl; [reflexivity|].
    assert (Ht : In t (tags r)) by (apply Hl; left; reflexivity).
    assert (E : existsb (String.eqb t) (tags r) = true)
      by (apply existsb_exists; exists t; split; [exact Ht | apply String.eqb_refl]).
    rewrite (catalog_tag_exists d r t Hok Hin Ht), E.
    apply IH. intros x Hx. apply Hl. right. exact Hx. }
  rewrite (H2 (tags r) (incl_refl _)).
  rewrite map_ext_in with (g := fun x => x).
  2: { intros x Hx. destruct (Z.eqb_spec (row_id x) (row_id r)) as [E|]; [|reflexivity].
       assert (x = r) as ->.
       { pose proof (find_row_id _ x Hid Hx) as Fx. rewrite E, (find_row_id _ r Hid Hin) in Fx.
         injection Fx as Fx. symmetry. exact Fx. }
       destruct r; reflexivity. }
  rewrite map_id. destruct d; reflexivity.
Qed.

End SameTags.

(** Saving a record's tags unchanged in the detail view (calling
    [update_image_tags] with the tags it already has) leaves the whole
    database as it was, on a catalog whose counts agree with its
    records. *)
Theorem update_same_tags_no_change : forall (d : Pipeline.db) (r : Pipeline.image_row),
  Catalog.catalog_ok d -> In r (Pipeline.images d) ->
  Pipeline.update_image_tags d (Pipeline.row_id r) (Pipeline.tags r) = d.
Proof. exact update_same_tags. Qed.

Lemma update_same_tags_no_change_witness :
  Catalog.catalog_ok Samples.sample_db /\ In Samples.sample_row (Pipeline.images Samples.sample_db) /\
  Pipeline.update_image_tags Samples.sample_db 1 ["cat"] = Samples.sample_db.
Proof.
  assert (H0 : Catalog.catalog_ok Pipeline.empty_db).
  { split; [intros t; reflexivity | split; constructor]. }
  assert (H1 : Catalog.catalog_ok Samples.sample_db).
  { exact (catalog_ok_insert Pipeline.empty_db Samples.sample_row ["cat"] H0
             eq_refl eq_refl ltac:(repeat constructor; simpl; tauto)). }
  assert (H2 : In Samples.sample_row (Pipeline.images Samples.sample_db)) by (left; reflexivity).
  split; [exact H1 | split; [exact H2|]].
  exact (update_same_tags_no_change Samples.sample_db Samples.sample_row H1 H2).
Defined.

(** ** The scanner's image-name test *)

Section ImageNames.

Lemma las_length : forall s, List.length (list_ascii_of_string s) = String.length s.
Proof. intros s. induction s as [|c s IH]; simpl; [reflexivity | rewrite IH; reflexivity]. Qed.

Lemma las_inj : forall a b, list_ascii_of_string a = list_ascii_of_string b -> a = b.
Proof.
  intros a b H. rewrite <- (string_of_list_ascii_of_string a), <- (string_of_list_ascii_of_string b).
  rewrite H. reflexivity.
Qed.

Lemma las_substring : forall s n m,
  list_ascii_of_string (substring n m s) = firstn m (skipn n (list_ascii_of_string s)).
Proof.
  intros s. induction s as [|c s IH]; intros n m.
  - destruct n, m; reflexivity.
  - destruct n as [|n], m as [|m]; simpl; try reflexivity.
    + rewrite IH. reflexivity.
    + rewrite IH. reflexivity.
    + rewrite IH. reflexivity.
Qed.

Lemma las_lower : forall s,
  list_ascii_of_string (Catalog.lower s) = map Catalog.lower_char (list_ascii_of_string s).
Proof. intros s. unfold Catalog.lower. apply list_ascii_of_string_of_list_ascii. Qed.

Lemma lower_char_dot : forall c, Ascii.eqb (Catalog.lower_char c) "." = Ascii.eqb c ".".
Proof. intros [[] [] [] [] [] [] [] []]; reflexivity. Qed.

Lemma lower_char_slash : forall c, Ascii.eqb (Catalog.lower_char c) "/" = Ascii.eqb c "/".
Proof. intros [[] [] [] [] [] [] [] []]; reflexivity. Qed.

Lemma lower_char_backslash : forall c, Ascii.eqb (Catalog.lower_char c) "\" = Ascii.eqb c "\".
Proof. intros [[] [] [] [] [] [] [] []]; reflexivity. Qed.

Lemma rfind_acc_app : forall c l1 l2 i best,
  Catalog.rfind_acc c (l1 ++ l2) i best
  = Catalog.rfind_acc c l2 (i + Z.of_nat (List.length l1)) (Catalog.rfind_acc c l1 i best).
Proof.
  intros c l1. induction l1 as [|x l1 IH]; intros l2 i best; simpl.
  - rewrite Z.add_0_r. reflexivity.
  - rewrite IH. f_equal. lia.
Qed.

Lemma rfind_acc_absent : forall c l i best,
  existsb (fun x => Ascii.eqb x c) l = false -> Catalog.rfind_acc c l i best = best.
Proof.
  intros c l. induction l as [|x l IH]; intros i best H; simpl in *; [reflexivity|].
  apply orb_false_iff in H as [Hx Hl]. rewrite Hx. apply IH, Hl.
Qed.

Lemma rfind_acc_range : forall c l i best,
  Catalog.rfind_acc c l i best = best \/
  (i <= Catalog.rfind_acc c l i best < i + Z.of_nat (List.length l))%Z.
Proof.
  intros c l. induction l as [|x l IH]; intros i best; simpl; [left; reflexivity|].
  destruct (IH (i + 1)%Z (if Ascii.eqb x c then i else best)) as [E|E].
  - rewrite E. destruct (Ascii.eqb x c); [right; lia | left; reflexivity].
  - right. lia.
Qed.

Lemma ext_shape : forall e, In e Catalog.image_extensions ->
  exists R, list_ascii_of_string e = "."%char :: R /\
    existsb (fun x => Ascii.eqb x ".") R = false /\
    existsb (fun x => Ascii.eqb x "/") R = false /\
    existsb (fun x => Ascii.eqb x "\") R = false.
Proof.
  intros e H. simpl in H.
  repeat (destruct H as [<-|H]; [eexists; split; [reflexivity | repeat split; reflexivity]|]).
  destruct H.
Qed.

Lemma existsb_lower : forall (f : ascii -> bool) l,
  (forall c, f (Catalog.lower_char c) = f c) ->
  existsb f (map Catalog.lower_char l) = existsb f l.
Proof.
  intros f l Hf. induction l as [|c l IH]; simpl; [reflexivity|]. rewrite Hf, IH. reflexivity.
Qed.

Lemma is_image_name_iff : forall file,
  existsb (fun x => Ascii.eqb x "/") (list_ascii_of_string file) = false ->
  existsb (fun x => Ascii.eqb x "\") (list_ascii_of_string file) = false ->
  (Catalog.is_image_name file = true <->
   exists stem ext, file = (stem ++ ext)%string /\
     In (Catalog.lower ext) Catalog.image_extensions /\
     existsb (fun c => negb (Ascii.eqb c ".")) (list_ascii_of_string stem) = true).
Proof.
  intros file Hs Hb.
  set (P := list_ascii_of_string (Catalog.lower file)).
  assert (HP : P = map Catalog.lower_char (list_ascii_of_string file)) by apply las_lower.
  assert (Hs' : existsb (fun x => Ascii.eqb x "/") P = false)
    by (rewrite HP, existsb_lower; [exact Hs | exact lower_char_slash]).
  assert (Hb' : existsb (fun x => Ascii.eqb x "\") P = false)
    by (rewrite HP, existsb_lower; [exact Hb | exact lower_char_backslash]).
  assert (Hsep : Z.max (Catalog.rfind (Catalog.lower file) "\")
                       (Catalog.rfind (Catalog.lower file) "/") = (-1)%Z).
  { unfold Catalog.rfind. fold P. rewrite !rfind_acc_absent by assumption. reflexivity. }
  assert (HL : String.length (Catalog.lower file) = List.length P) by (symmetry; apply las_length).
  unfold Catalog.is_image_name, Catalog.splitext. rewrite Hsep. cbv zeta.
  unfold Catalog.rfind. fold P. rewrite HL.
  set (d := Catalog.rfind_acc "." P 0 (-1)).
  assert (Hmid : forall k, list_ascii_of_string
                  (substring (Z.to_nat (-1 + 1)) k (Catalog.lower file))
                = map Catalog.lower_char (firstn k (list_ascii_of_string file))).
  { intros k. rewrite las_substring. fold P. change (Z.to_nat (-1 + 1)) with 0%nat.
    cbn [skipn]. rewrite HP, firstn_map. reflexivity. }
  split.
  - intros H.
    destruct (-1 <? d)%Z eqn:Hd; [|cbn in H; discriminate].
    rewrite Hmid, existsb_lower in H by (intros c; rewrite lower_char_dot; reflexivity).
    destruct (existsb (fun c => negb (Ascii.eqb c ".")) (firstn (Z.to_nat (d - -1 - 1))
               (list_ascii_of_string file))) eqn:Hm;
      [|cbn in H; discriminate].
    apply Z.ltb_lt in Hd.
    assert (Hdr : (0 <= d < Z.of_nat (List.length P))%Z)
      by (destruct (rfind_acc_range "." P 0 (-1)) as [E|E]; fold d in E; lia).
    set (k := Z.to_nat d) in *.
    replace (Z.to_nat (d - -1 - 1)) with k in Hm by lia.
    exists (string_of_list_ascii (firstn k (list_ascii_of_string file))),
           (string_of_list_ascii (skipn k (list_ascii_of_string file))).
    split; [|split].
    + apply las_inj. rewrite las_app, !list_ascii_of_string_of_list_ascii, firstn_skipn.
      reflexivity.
    + apply existsb_exists in H as [e [He Heq]]. cbn [snd] in Heq.
      apply String.eqb_eq in Heq. rewrite <- Heq in He.
      replace (Catalog.lower (string_of_list_ascii (skipn k (list_ascii_of_string file))))
        with (substring k (List.length P - k) (Catalog.lower file)); [exact He|].
      apply las_inj. rewrite las_substring. fold P.
      rewrite las_lower, list_ascii_of_string_of_list_ascii.
      rewrite firstn_all2 by (rewrite length_skipn; lia).
      rewrite HP, skipn_map. reflexivity.
    + rewrite list_ascii_of_string_of_list_ascii. exact Hm.
  - intros [stem [ext [Hf [He Hst]]]].
    destruct (ext_shape _ He) as [R [HR [Rd _]]].
    set (S := map Catalog.lower_char (list_ascii_of_string stem)).
    assert (HP2 : P = (S ++ "."%char :: R)%list).
    { rewrite HP, Hf, las_app, map_app. unfold S. rewrite <- (las_lower ext), HR.
      reflexivity. }
    assert (Hd : d = Z.of_nat (List.length S)).
    { unfold d. rewrite HP2, rfind_acc_app. cbn [Catalog.rfind_acc].
      rewrite ?Ascii.eqb_refl. apply rfind_acc_absent, Rd. }
    rewrite Hd. replace (-1 <? Z.of_nat (List.length S))%Z with true by lia.
    replace (Z.to_nat (Z.of_nat (List.length S) - -1 - 1)) with (List.length S) by lia.
    rewrite Hmid, existsb_lower by (intros c; rewrite lower_char_dot; reflexivity).
    replace (firstn (List.length S) (list_ascii_of_string file)) with (list_ascii_of_string stem).
    2: { rewrite Hf, las_app. unfold S. rewrite length_map, firstn_app, firstn_all,
           Nat.sub_diag. simpl. rewrite app_nil_r. reflexivity. }
    rewrite Hst. cbn [snd]. apply existsb_exists. exists (Catalog.lower ext).
    split; [exact He|]. apply String.eqb_eq. apply las_inj.
    rewrite las_substring, Nat2Z.id. fold P. rewrite HP2, skipn_app, skipn_all,
      Nat.sub_diag. simpl. rewrite HR, firstn_all2; [reflexivity|].
    rewrite length_app. simpl. lia.
Qed.

End ImageNames.

(** For a file name without path separators, the scanner keeps the file
    exactly when the name is a stem followed by one of the seven image
    extensions in any letter case, the stem holding at least one
    character other than a dot (so [.jpg] or [..png] alone is skipped). *)
Theorem is_image_name_spec : forall file : string,
  existsb (fun x => Ascii.eqb x "/") (list_ascii_of_string file) = false ->
  existsb (fun x => Ascii.eqb x "\") (list_ascii_of_string file) = false ->
  (Catalog.is_image_name file = true <->
   exists stem ext, file = (stem ++ ext)%string /\
     In (Catalog.lower ext) Catalog.image_extensions /\
     existsb (fun c => negb (Ascii.eqb c ".")) (list_ascii_of_string stem) = true).
Proof. exact is_image_name_iff. Qed.

Lemma is_image_name_spec_witness :
  existsb (fun x => Ascii.eqb x "/") (list_ascii_of_string "Photo.JPG") = false /\
  existsb (fun x => Ascii.eqb x "\") (list_ascii_of_string "Photo.JPG") = false /\
  (Catalog.is_image_name "Photo.JPG" = true <->
   exists stem ext, "Photo.JPG" = (stem ++ ext)%string /\
     In (Catalog.lower ext) Catalog.image_extensions /\
     existsb (fun c => negb (Ascii.eqb c ".")) (list_ascii_of_string stem) = true).
Proof.
  split; [reflexivity | split; [reflexivity|]].
  exact (is_image_name_spec "Photo.JPG" eq_refl eq_refl).
Defined.

(** ** The date filter's month list *)

Section DateRangeProps.
Variable D : Type.
Variable fromisoformat : string -> option D.
Variable strftime_ym : D -> string.
Variable strftime_display : D -> string.

Lemma dated_with_snoc : forall k ds date,
  Catalog.dated_with D fromisoformat strftime_ym k (ds ++ [date])%list
  = (Catalog.dated_with D fromisoformat strftime_ym k ds +
     if Py.truthy date && match fromisoformat date with
                          | Some dt => String.eqb (strftime_ym dt) k
                          | None => false end then 1 else 0)%nat.
Proof.
  intros k ds date. unfold Catalog.dated_with.
  rewrite filter_app, length_app. simpl.
  destruct (Py.truthy date && _); reflexivity.
Qed.

Lemma keys_map_incr : forall ym (acc : list (string * (string * Z))),
  map fst (map (fun kv => if String.eqb (fst kv) ym
                          then (fst kv, (fst (snd kv), snd (snd kv) + 1)%Z) else kv) acc)
  = map fst acc.
Proof.
  intros ym acc. induction acc as [|[k' [ds c]] acc IH]; simpl; [reflexivity|].
  destruct (String.eqb k' ym); simpl; rewrite IH; reflexivity.
Qed.

Lemma has_key_in : forall k (acc : list (string * (string * Z))),
  existsb (fun kv => String.eqb (fst kv) k) acc = true <-> In k (map fst acc).
Proof.
  intros k acc. rewrite existsb_exists, in_map_iff. split.
  - intros [kv [Hin E]]. apply String.eqb_eq in E. exists kv. split; assumption.
  - intros [kv [E Hin]]. exists kv. split; [exact Hin | apply String.eqb_eq; exact E].
Qed.

(** the invariant of the [for date in dates] loop *)
Lemma ranges_inv : forall dates acc ds,
  NoDup (map fst acc) ->
  (forall k, In k (map fst acc) <->
             (0 < Catalog.dated_with D fromisoformat strftime_ym k ds)%nat) ->
  (forall k disp c, In (k, (disp, c)) acc ->
             c = Z.of_nat (Catalog.dated_with D fromisoformat strftime_ym k ds)) ->
  let acc' := fold_left (Catalog.add_range D fromisoformat strftime_ym strftime_display)
                dates acc in
  NoDup (map fst acc') /\
  (forall k, In k (map fst acc') <->
             (0 < Catalog.dated_with D fromisoformat strftime_ym k (ds ++ dates))%nat) /\
  (forall k disp c, In (k, (disp, c)) acc' ->
             c = Z.of_nat (Catalog.dated_with D fromisoformat strftime_ym k (ds ++ dates))).
Proof.
  intros dates. induction dates as [|date dates IH]; intros acc ds Hnd Hkey Hcnt; cbv zeta.
  - rewrite app_nil_r. simpl. split; [exact Hnd | split; assumption].
  - simpl. replace (ds ++ date :: dates)%list with ((ds ++ [date]) ++ dates)%list
      by (rewrite <- app_assoc; reflexivity).
    apply IH; unfold Catalog.add_range.
    + destruct (Py.truthy date); [|exact Hnd].
      destruct (fromisoformat date) as [dt|]; [|exact Hnd].
      destruct (existsb _ acc) eqn:E.
      * rewrite keys_map_incr. exact Hnd.
      * rewrite map_app. apply NoDup_snoc; [exact Hnd|]. simpl.
        rewrite <- has_key_in, E. discriminate.
    + intros k. rewrite dated_with_snoc.
      destruct (Py.truthy date); [|simpl; rewrite Nat.add_0_r; apply Hkey].
      destruct (fromisoformat date) as [dt|]; [|simpl; rewrite Nat.add_0_r; apply Hkey].
      cbn [andb]. destruct (existsb _ acc) eqn:E.
      * rewrite keys_map_incr, Hkey.
        destruct (String.eqb_spec (strftime_ym dt) k) as [<-|]; [|lia].
        apply has_key_in, Hkey in E. lia.
      * rewrite map_app, in_app_iff, Hkey. simpl.
        destruct (String.eqb_spec (strftime_ym dt) k) as [<-|Hne].
        -- split; [lia | intros _; right; left; reflexivity].
        -- rewrite Nat.add_0_r. split; [intros [H|[H|[]]]; [exact H | congruence]
                                       | intros H; left; exact H].
    + intros k disp c Hin. rewrite dated_with_snoc.
      destruct (Py.truthy date);
        [|simpl; rewrite Nat.add_0_r; exact (Hcnt k disp c Hin)].
      destruct (fromisoformat date) as [dt|];
        [|simpl; rewrite Nat.add_0_r; exact (Hcnt k disp c Hin)].
      cbn [andb]. destruct (existsb _ acc) eqn:E.
      * apply in_map_iff in Hin as [[k' [disp' c']] [Heq Hin']]. cbn [fst snd] in Heq.
        destruct (String.eqb_spec k' (strftime_ym dt)) as [->|Hne].
        -- injection Heq as <- <- <-. rewrite String.eqb_refl, (Hcnt _ _ _ Hin'). lia.
        -- injection Heq as <- <- <-. rewrite (Hcnt _ _ _ Hin').
           destruct (String.eqb_spec (strftime_ym dt) k'); [congruence | lia].
      * apply in_app_or in Hin as [Hin|[Heq|[]]].
        -- rewrite (Hcnt _ _ _ Hin).
           destruct (String.eqb_spec (strftime_ym dt) k) as [<-|]; [|lia].
           exfalso.
           assert (Hk : In (strftime_ym dt) (map fst acc))
             by (apply in_map_iff; exists (strftime_ym dt, (disp, c)); split;
                 [reflexivity | exact Hin]).
           apply has_key_in in Hk. congruence.
        -- injection Heq as <- <- <-. rewrite String.eqb_refl.
           assert (H0 : Catalog.dated_with D fromisoformat strftime_ym (strftime_ym dt) ds = 0%nat).
           { destruct (Catalog.dated_with D fromisoformat strftime_ym (strftime_ym dt) ds)
               eqn:Z0; [reflexivity|].
             assert (H1 : In (strftime_ym dt) (map fst acc)) by (apply Hkey; lia).
             apply has_key_in in H1. congruence. }
           rewrite H0. reflexivity.
Qed.

End DateRangeProps.

Section SortDesc.

Lemma insert_desc_in : forall x l y,
  In y (Catalog.insert_desc x l) <-> x = y \/ In y l.
Proof.
  intros x l y. induction l as [|z l IH]; simpl; [tauto|].
  destruct (String.compare (Catalog.range_key x) (Catalog.range_key z)); simpl;
    rewrite ?IH; tauto.
Qed.

Lemma sort_desc_in : forall l y, In y (Catalog.sort_desc l) <-> In y l.
Proof.
  intros l y. induction l as [|x l IH]; simpl; [tauto|].
  unfold Catalog.sort_desc in *. simpl. rewrite insert_desc_in, IH. tauto.
Qed.

Lemma key_notin : forall (x : string * string * Z) l l',
  (forall y, In y l' <-> In y l) ->
  ~ In (Catalog.range_key x) (map Catalog.range_key l) ->
  ~ In (Catalog.range_key x) (map Catalog.range_key l').
Proof.
  intros x l l' Heq Hn Hin. apply Hn. apply in_map_iff in Hin as [y [Hy Hin]].
  apply in_map_iff. exists y. split; [exact Hy | apply Heq, Hin].
Qed.

Lemma insert_desc_nodup : forall x l,
  NoDup (map Catalog.range_key l) -> ~ In (Catalog.range_key x) (map Catalog.range_key l) ->
  NoDup (map Catalog.range_key (Catalog.insert_desc x l)).
Proof.
  intros x l. induction l as [|z l IH]; intros Hnd Hn; simpl.
  - constructor; [intros [] | constructor].
  - destruct (String.compare (Catalog.range_key x) (Catalog.range_key z)).
    3: { constructor; [exact Hn | exact Hnd]. }
    all: inversion Hnd as [|? ? Hz Hnd']; subst; constructor;
      [ | apply IH; [exact Hnd' | intros H; apply Hn; right; exact H]];
      intros Hin; apply in_map_iff in Hin as [y [Hy Hin]];
      apply insert_desc_in in Hin as [->|Hin];
      [apply Hn; left; symmetry; exact Hy
      | apply Hz, in_map_iff; exists y; split; [exact Hy | exact Hin]].
Qed.

Lemma insert_desc_sorted : forall x l,
  Sorted (fun a b => String.compare (Catalog.range_key a) (Catalog.range_key b) = Gt) l ->
  ~ In (Catalog.range_key x) (map Catalog.range_key l) ->
  Sorted (fun a b => String.compare (Catalog.range_key a) (Catalog.range_key b) = Gt)
         (Catalog.insert_desc x l).
Proof.
  intros x l. induction l as [|z l IH]; intros Hs Hn; simpl.
  - constructor; constructor.
  - destruct (String.compare (Catalog.range_key x) (Catalog.range_key z)) eqn:C.
    + exfalso. apply Hn. left. symmetry. apply String.compare_eq_iff. exact C.
    + inversion Hs as [|? ? Hs' Hhd]; subst.
      assert (Czx : String.compare (Catalog.range_key z) (Catalog.range_key x) = Gt)
        by (rewrite String.compare_antisym, C; reflexivity).
      constructor; [apply IH; [exact Hs' | intros H; apply Hn; right; exact H]|].
      destruct l as [|w l]; simpl; [constructor; exact Czx|].
      destruct (String.compare (Catalog.range_key x) (Catalog.range_key w));
        constructor; [inversion Hhd; assumption | inversion Hhd; assumption | exact Czx].
    + constructor; [exact Hs | constructor; exact C].
Qed.

Lemma sort_desc_spec : forall l,
  NoDup (map Catalog.range_key l) ->
  NoDup (map Catalog.range_key (Catalog.sort_desc l)) /\
  Sorted (fun a b => String.compare (Catalog.range_key a) (Catalog.range_key b) = Gt)
         (Catalog.sort_desc l).
Proof.
  intros l. induction l as [|x l IH]; intros Hnd; [split; constructor|].
  inversion Hnd as [|? ? Hx Hnd']; subst. destruct (IH Hnd') as [N S].
  assert (Hn : ~ In (Catalog.range_key x) (map Catalog.range_key (Catalog.sort_desc l)))
    by (apply (key_notin x l); [apply sort_desc_in | exact Hx]).
  unfold Catalog.sort_desc in *. simpl.
  split; [apply insert_desc_nodup | apply insert_desc_sorted]; assumption.
Qed.

End SortDesc.

(** The date filter's month list ([get_date_ranges]) has strictly
    decreasing month keys (newest first, no month twice); it lists a
    month exactly when some stored date parses to that month, and the
    count shown for a month is the number of stored dates in it. *)
Theorem date_ranges_spec :
  forall (D : Type) (fromisoformat : string -> option D)
         (strftime_ym strftime_display : D -> string) (dates : list string),
  let R := Catalog.get_date_ranges D fromisoformat strftime_ym strftime_display dates in
  Sorted (fun a b => String.compare (Catalog.range_key a) (Catalog.range_key b) = Gt) R /\
  NoDup (map Catalog.range_key R) /\
  (forall k, In k (map Catalog.range_key R) <->
             (0 < Catalog.dated_with D fromisoformat strftime_ym k dates)%nat) /\
  (forall x, In x R ->
     Catalog.range_count x
     = Z.of_nat (Catalog.dated_with D fromisoformat strftime_ym (Catalog.range_key x) dates)).
Proof.
  intros D fromiso ym disp dates. cbv zeta.
  assert (HR : Catalog.get_date_ranges D fromiso ym disp dates
    = Catalog.sort_desc (map (fun kv => (fst kv, fst (snd kv), snd (snd kv)))
        (fold_left (Catalog.add_range D fromiso ym disp) dates [])))
    by (destruct dates; reflexivity).
  rewrite HR.
  destruct (ranges_inv D fromiso ym disp dates [] [] (NoDup_nil _)
              ltac:(intros k; simpl; split; [intros [] | unfold Catalog.dated_with; simpl; lia])
              ltac:(intros k disp' c [])) as [Hnd [Hkey Hcnt]].
  set (acc := fold_left (Catalog.add_range D fromiso ym disp) dates []) in *.
  assert (Hkeys : map Catalog.range_key (map (fun kv => (fst kv, fst (snd kv), snd (snd kv))) acc)
                  = map fst acc)
    by (rewrite map_map; reflexivity).
  assert (Hin : forall y, In y (Catalog.sort_desc (map (fun kv => (fst kv, fst (snd kv), snd (snd kv))) acc))
                          <-> In y (map (fun kv => (fst kv, fst (snd kv), snd (snd kv))) acc))
    by apply sort_desc_in.
  destruct (sort_desc_spec (map (fun kv => (fst kv, fst (snd kv), snd (snd kv))) acc))
    as [N S]; [rewrite Hkeys; exact Hnd|].
  split; [exact S | split; [exact N | split]].
  - intros k. simpl in Hkey. rewrite <- Hkey, <- Hkeys. split; intros H;
      apply in_map_iff in H as [y [Hy H]]; apply in_map_iff; exists y;
      (split; [exact Hy | apply Hin; exact H]).
  - intros x Hx. apply Hin, in_map_iff in Hx as [[k [dsp c]] [<- Hx]].
    exact (Hcnt k dsp c Hx).
Qed.

(** ** The shape of the classifier's tags *)

Section StripProps.

Lemma lstrip_split : forall s,
  exists p, list_ascii_of_string s = (p ++ list_ascii_of_string (Py.lstrip s))%list.
Proof.
  intros s. induction s as [|c r IH]; simpl; [exists []; reflexivity|].
  destruct (Py.isspace c).
  - destruct IH as [p Hp]. exists (c :: p). simpl. rewrite Hp. reflexivity.
  - exists []. reflexivity.
Qed.

Lemma lstrip_head : forall s,
  Py.lstrip s = EmptyString \/ exists c r, Py.lstrip s = String c r /\ Py.isspace c = false.
Proof.
  intros s. induction s as [|c r IH]; simpl; [left; reflexivity|].
  destruct (Py.isspace c) eqn:E; [exact IH | right; exists c, r; split; [reflexivity | exact E]].
Qed.

Lemma lstrip_fix : forall s,
  (s = EmptyString \/ exists c r, s = String c r /\ Py.isspace c = false) -> Py.lstrip s = s.
Proof. intros s [->|[c [r [-> E]]]]; simpl; [reflexivity | rewrite E; reflexivity]. Qed.

Lemma lstrip_idem : forall s, Py.lstrip (Py.lstrip s) = Py.lstrip s.
Proof. intros s. apply lstrip_fix, lstrip_head. Qed.

Lemma rstrip_idem : forall s, Py.rstrip (Py.rstrip s) = Py.rstrip s.
Proof.
  intros s. unfold Py.rstrip at 1 2.
  rewrite list_ascii_of_string_of_list_ascii, rev_involutive,
    string_of_list_ascii_of_string, lstrip_idem.
  reflexivity.
Qed.

Lemma lstrip_rstrip : forall s,
  (s = EmptyString \/ exists c r, s = String c r /\ Py.isspace c = false) ->
  Py.lstrip (Py.rstrip s) = Py.rstrip s.
Proof.
  intros s Hs. unfold Py.rstrip.
  destruct (lstrip_split (string_of_list_ascii (rev (list_ascii_of_string s)))) as [p Hp].
  rewrite list_ascii_of_string_of_list_ascii in Hp.
  set (C := list_ascii_of_string
              (Py.lstrip (string_of_list_ascii (rev (list_ascii_of_string s))))) in *.
  assert (Hs' : list_ascii_of_string s = (rev C ++ rev p)%list)
    by (rewrite <- rev_app_distr, <- Hp, rev_involutive; reflexivity).
  destruct (rev C) as [|c q] eqn:Ec; [reflexivity|].
  apply lstrip_fix. right. exists c, (string_of_list_ascii q). split; [reflexivity|].
  destruct Hs as [->|[c' [r [-> E]]]]; [discriminate|].
  simpl in Hs'. injection Hs' as <- _. exact E.
Qed.

Lemma strip_idem : forall s, Py.strip (Py.strip s) = Py.strip s.
Proof.
  intros s. unfold Py.strip.
  rewrite (lstrip_rstrip (Py.lstrip s) (lstrip_head s)), rstrip_idem. reflexivity.
Qed.

Lemma strip_chars : forall s c,
  In c (list_ascii_of_string (Py.strip s)) -> In c (list_ascii_of_string s).
Proof.
  intros s c H. unfold Py.strip, Py.rstrip in H.
  rewrite list_ascii_of_string_of_list_ascii, <- in_rev in H.
  destruct (lstrip_split (string_of_list_ascii (rev (list_ascii_of_string (Py.lstrip s)))))
    as [p Hp].
  rewrite list_ascii_of_string_of_list_ascii in Hp.
  assert (H1 : In c (list_ascii_of_string (Py.lstrip s)))
    by (rewrite in_rev, Hp; apply in_or_app; right; exact H).
  destruct (lstrip_split s) as [p' Hp']. rewrite Hp'. apply in_or_app. right. exact H1.
Qed.

Lemma split_acc_no_comma : forall s cur p,
  Py.contains "," cur = false -> In p (Py.split_acc "," s cur) -> Py.contains "," p = false.
Proof.
  intros s. induction s as [|c r IH]; intros cur p Hcur Hin; simpl in Hin.
  - destruct Hin as [<-|[]]. exact Hcur.
  - destruct (Ascii.eqb c ",") eqn:Ec.
    + destruct Hin as [<-|Hin]; [exact Hcur | exact (IH "" p eq_refl Hin)].
    + apply (IH (cur ++ String c "") p); [|exact Hin].
      unfold Py.contains in *. rewrite las_app, existsb_app, Hcur. simpl. rewrite Ec.
      reflexivity.
Qed.

Lemma strip_split_ok : forall text t,
  In t (Classifier.strip_split text) -> Py.contains "," t = false /\ Py.strip t = t.
Proof.
  intros text t Hin. unfold Classifier.strip_split in Hin.
  apply in_map_iff in Hin as [p [<- Hin]]. apply filter_In in Hin as [Hin _].
  split; [|apply strip_idem].
  pose proof (split_acc_no_comma text "" p eq_refl Hin) as Hp.
  unfold Py.contains in *. apply not_true_iff_false. intros Hc.
  apply existsb_exists in Hc as [c [Hc Hcc]]. apply strip_chars in Hc.
  assert (existsb (fun c => Ascii.eqb c ",") (list_ascii_of_string p) = true)
    by (apply existsb_exists; exists c; split; assumption).
  congruence.
Qed.

Lemma parse_tags_ok : forall txt,
  Forall (fun t => Catalog.tag_ok t = true) (Classifier.parse_tags txt).
Proof.
  intros txt. unfold Classifier.parse_tags.
  match goal with |- Forall _ (match ?L with _ => _ end) => destruct L as [|t0 rest] eqn:E end.
  - repeat constructor.
  - rewrite <- E. apply Forall_forall. intros t Ht. apply filter_In in Ht as [Hin Hf].
    apply andb_prop in Hf as [Ht Hsp].
    assert (Hs : Py.contains "," t = false /\ Py.strip t = t)
      by (destruct (0 <=? _)%Z; eapply strip_split_ok; exact Hin).
    destruct Hs as [Hc Hst]. unfold Catalog.tag_ok.
    rewrite Ht, Hc, Hsp, Hst, String.eqb_refl. reflexivity.
Qed.

Lemma classify_tags_ok : forall n env k,
  Forall (fun t => Catalog.tag_ok t = true) (fst (Ollama.classify n env k)).
Proof.
  induction n as [|n IH]; intros env k; simpl.
  - destruct (Ollama.attempt_body (env k)) as [tg| |[|]] eqn:E; simpl;
      try (repeat constructor; fail).
    unfold Ollama.attempt_body in E.
    destruct (negb (Ollama.image_readable (env k))); [discriminate|].
    destruct (Ollama.reply_of (env k)) as [|st b]; [discriminate|].
    destruct (Z.eqb st 200); [|discriminate].
    destruct b as [| |[[txt|]|]]; inversion E; subst; apply parse_tags_ok.
  - destruct (Ollama.attempt_body (env k)) as [tg| |[|]] eqn:E;
      try (destruct (Ollama.classify n env (S k)) as [t tr] eqn:Ec; simpl;
           specialize (IH env (S k)); rewrite Ec in IH; exact IH);
      simpl; try (repeat constructor; fail).
    unfold Ollama.attempt_body in E.
    destruct (negb (Ollama.image_readable (env k))); [discriminate|].
    destruct (Ollama.reply_of (env k)) as [|st b]; [discriminate|].
    destruct (Z.eqb st 200); [|discriminate].
    destruct b as [| |[[txt|]|]]; inversion E; subst; apply parse_tags_ok.
Qed.

End StripProps.

(** Whatever the Ollama endpoint does, [classify_image_with_ollama]
    returns a non-empty tag list whose tags are non-empty, hold no comma
    and no space character, and have no leading or trailing whitespace. *)
Theorem classifier_tags_well_formed : forall env : nat -> Ollama.attempt,
  fst (Ollama.classify_image_with_ollama env) <> [] /\
  Forall (fun t => Catalog.tag_ok t = true) (fst (Ollama.classify_image_with_ollama env)).
Proof.
  intros env. split.
  - exact (proj2 (classify_shape 2 env 0)).
  - apply classify_tags_ok.
Qed.

Section ImportTags.
Import Pipeline.
Variable sha : string -> string.
Variable strp : string -> option string.

Lemma process_file_new_tags_ok : forall (d0 : db) total st f,
  (exists new, images (st_db st) = (images d0 ++ new)%list /\
     Forall (fun r => tags r <> [] /\ Forall (fun t => Catalog.tag_ok t = true) (tags r)) new) ->
  exists new, images (st_db (process_file sha strp total st f)) = (images d0 ++ new)%list /\
     Forall (fun r => tags r <> [] /\ Forall (fun t => Catalog.tag_ok t = true) (tags r)) new.
Proof.
  intros d0 total st f H. unfold process_file.
  destruct (calculate_file_hash sha f) as [h|]; [|exact H].
  destruct (hash_exists h (st_db st)) eqn:He; [exact H|].
  destruct (copy_fails f); [exact H|].
  unfold insert_image. cbn [hash]. rewrite He.
  unfold count_item. cbn [st_db images].
  destruct H as [new [Hn Hf]]. eexists. rewrite Hn, <- app_assoc. split; [reflexivity|].
  apply Forall_app. split; [exact Hf|].
  constructor; [|constructor]. cbn [tags]. split.
  - exact (proj2 (classify_shape 2 (ollama_env f) 0)).
  - apply classify_tags_ok.
Qed.

End ImportTags.

(** Whatever the catalog held before, an import run only appends
    records, and every record it adds gets a non-empty tag list of
    well-formed tags (non-empty, no comma, no space, no surrounding
    whitespace). *)
Theorem import_tags_well_formed :
  forall (sha : string -> string) (strp : string -> option string)
         (bs : Z) (files : list Pipeline.source_file) (d0 : Pipeline.db),
  exists new,
    Pipeline.images (Pipeline.st_db (Pipeline.process_images sha strp bs files d0))
    = (Pipeline.images d0 ++ new)%list /\
    Forall (fun r => Pipeline.tags r <> [] /\
                     Forall (fun t => Catalog.tag_ok t = true) (Pipeline.tags r)) new.
Proof.
  intros sha strp bs files d0.
  apply (run_preserves sha strp
           (fun d => exists new, Pipeline.images d = (Pipeline.images d0 ++ new)%list /\
              Forall (fun r => Pipeline.tags r <> [] /\
                 Forall (fun t => Catalog.tag_ok t = true) (Pipeline.tags r)) new)).
  - intros total st f. apply (process_file_new_tags_ok sha strp d0).
  - exists []. rewrite app_nil_r. split; [reflexivity | constructor].
Qed.

(** ** Stability of the liveness check *)

(** Once [is_import_running] has answered False, every later call, at
    any time, answers False again and leaves the progress file as the
    first call left it: a stale run is marked completed once. *)
Theorem not_running_is_stable : forall (file : Progress.progress_file) (now now' : Q),
  fst (Progress.is_import_running file now) = false ->
  Progress.is_import_running (snd (Progress.is_import_running file now)) now'
  = (false, snd (Progress.is_import_running file now)).
Proof.
  intros file now now' H. destruct file as [| |p]; [reflexivity | reflexivity|].
  unfold Progress.is_import_running in *.
  destruct (Progress.not_completed p) eqn:Hnc; [|cbn [snd]; rewrite Hnc; reflexivity].
  destruct (Qlt_le_dec (now - Progress.last_update p) 300); [discriminate|].
  reflexivity.
Qed.

Lemma not_running_is_stable_witness :
  fst (Progress.is_import_running (Progress.Present Samples.stale_record) 1400) = false /\
  Progress.is_import_running
    (snd (Progress.is_import_running (Progress.Present Samples.stale_record) 1400)) 1401
  = (false, snd (Progress.is_import_running (Progress.Present Samples.stale_record) 1400)).
Proof.
  assert (H : fst (Progress.is_import_running (Progress.Present Samples.stale_record) 1400)
              = false) by reflexivity.
  split; [exact H|].
  exact (not_running_is_stable (Progress.Present Samples.stale_record) 1400 1401 H).
Defined.

(** ** update_image_tags on an id with no record *)

Section UnknownId.
Import Pipeline.

Lemma find_absent : forall (L : list image_row) id,
  ~ In id (map row_id L) -> find (fun r => Z.eqb (row_id r) id) L = None.
Proof.
  intros L id H. induction L as [|r L IH]; simpl; [reflexivity|].
  destruct (Z.eqb_spec (row_id r) id) as [E|E].
  - exfalso. apply H. left. exact E.
  - apply IH. intros Hin. apply H. right. exact Hin.
Qed.

Lemma fold_new_rows : forall u l tbl,
  view u (fold_left (fun tbl t => if tag_exists t tbl then tbl else (tbl ++ [(t, 1%Z)])%list)
            l tbl)
  = if existsb (String.eqb u) l then (if tag_exists u tbl then view u tbl else (1%Z, true))
    else view u tbl.
Proof.
  intros u l. induction l as [|t l IH]; intros tbl; simpl; [reflexivity|].
  rewrite IH.
  assert (Hstep : view u (if tag_exists t tbl then tbl else (tbl ++ [(t, 1%Z)])%list)
                  = if String.eqb u t
                    then (if tag_exists u tbl then view u tbl else (1%Z, true))
                    else view u tbl).
  { destruct (String.eqb_spec u t) as [<-|Hne].
    - destruct (tag_exists u tbl) eqn:E; [reflexivity|].
      unfold view. rewrite tag_count_snoc, tag_exists_snoc, E, String.eqb_refl. reflexivity.
    - destruct (tag_exists t tbl); [reflexivity|].
      apply view_snoc_other. intros H. apply Hne. symmetry. exact H. }
  assert (Hex : tag_exists u (if tag_exists t tbl then tbl else (tbl ++ [(t, 1%Z)])%list)
                = snd (view u (if tag_exists t tbl then tbl else (tbl ++ [(t, 1%Z)])%list)))
    by reflexivity.
  rewrite Hex, Hstep. clear Hex.
  destruct (String.eqb u t), (existsb (String.eqb u) l), (tag_exists u tbl) eqn:E;
    simpl; rewrite ?E; reflexivity.
Qed.

Lemma update_absent : forall d image_id new_tags,
  ~ In image_id (map row_id (images d)) ->
  images (update_image_tags d image_id new_tags) = images d /\
  (forall u, tag_exists u (tags_tbl d) = true ->
     tag_count u (tags_tbl (update_image_tags d image_id new_tags)) = tag_count u (tags_tbl d)) /\
  (forall u, tag_exists u (tags_tbl d) = false -> In u new_tags ->
     tag_count u (tags_tbl (update_image_tags d image_id new_tags)) = 1%Z).
Proof.
  intros d image_id new_tags H. unfold update_image_tags. cbv zeta.
  rewrite (find_absent _ _ H). cbn [images tags_tbl].
  split; [|split].
  - rewrite map_ext_in with (g := fun x => x); [apply map_id|].
    intros x Hx. destruct (Z.eqb_spec (row_id x) image_id) as [E|]; [|reflexivity].
    exfalso. apply H. rewrite <- E. apply in_map. exact Hx.
  - intros u Hu.
    change (tag_count u ?t) with (fst (view u t)). rewrite fold_new_rows, Hu.
    destruct (existsb (String.eqb u) new_tags); reflexivity.
  - intros u Hu Hin.
    change (tag_count u ?t) with (fst (view u t)). rewrite fold_new_rows, Hu.
    replace (existsb (String.eqb u) new_tags) with true; [reflexivity|].
    symmetry. apply existsb_exists. exists u. split; [exact Hin | apply String.eqb_refl].
Qed.

End UnknownId.

(** On an id that has no record, [update_image_tags] changes no record
    and no existing tag count, but still adds a row with count 1 for
    every new tag name not yet in the tag table. *)
Theorem update_unknown_id : forall (d : Pipeline.db) (image_id : Z) (new_tags : list string),
  ~ In image_id (map Pipeline.row_id (Pipeline.images d)) ->
  Pipeline.images (Pipeline.update_image_tags d image_id new_tags) = Pipeline.images d /\
  (forall u, Pipeline.tag_exists u (Pipeline.tags_tbl d) = true ->
     Pipeline.tag_count u (Pipeline.tags_tbl (Pipeline.update_image_tags d image_id new_tags))
     = Pipeline.tag_count u (Pipeline.tags_tbl d)) /\
  (forall u, Pipeline.tag_exists u (Pipeline.tags_tbl d) = false -> In u new_tags ->
     Pipeline.tag_count u (Pipeline.tags_tbl (Pipeline.update_image_tags d image_id new_tags))
     = 1%Z).
Proof. exact update_absent. Qed.

Lemma update_unknown_id_witness :
  ~ In 7%Z (map Pipeline.row_id (Pipeline.images Samples.sample_db)) /\
  Pipeline.images (Pipeline.update_image_tags Samples.sample_db 7 ["dog"])
  = Pipeline.images Samples.sample_db.
Proof.
  assert (H : ~ In 7%Z (map Pipeline.row_id (Pipeline.images Samples.sample_db)))
    by (simpl; intros [H|[]]; discriminate).
  split; [exact H|].
  exact (proj1 (update_unknown_id Samples.sample_db 7 ["dog"] H)).
Defined.

(** ** Hashing by chunks *)

Section ChunkedHash.

Lemma fold_update_app : forall (cs : list (list ascii)) msg,
  fold_left Hashing.update cs msg = (msg ++ concat cs)%list.
Proof.
  induction cs as [|c cs IH]; intros msg; simpl.
  - rewrite app_nil_r. reflexivity.
  - rewrite IH. unfold Hashing.update. rewrite app_assoc. reflexivity.
Qed.

Lemma read_chunks_concat : forall k l, concat (Hashing.read_chunks k l) = l.
Proof.
  intros k l. funelim (Hashing.read_chunks k l); [reflexivity|]. cbn [concat].
  rewrite H. apply firstn_skipn.
Qed.

Lemma read_chunks_sizes : forall k l,
  Forall (fun c => c <> [] /\ (length c <= S k)%nat) (Hashing.read_chunks k l).
Proof.
  intros k l. funelim (Hashing.read_chunks k l); constructor; auto.
  split; [simpl; discriminate | apply firstn_le_length].
Qed.

End ChunkedHash.

(** Reading the file in chunks of 8192 bytes hashes exactly the file's
    bytes: the chunks handed to [update] are non-empty, at most 8192 bytes
    long, and concatenate to the whole content, so the digest is the
    SHA-256 of the whole file (the import's whole-file hash), and [None]
    exactly when the file cannot be read. *)
Theorem chunked_hash_whole_file : forall (sha : list ascii -> string) (f : Pipeline.source_file),
  Hashing.calculate_file_hash sha (Pipeline.content f) =
  Pipeline.calculate_file_hash (fun c => sha (list_ascii_of_string c)) f /\
  (forall c, concat (Hashing.read_chunks 8191 (list_ascii_of_string c)) = list_ascii_of_string c /\
   Forall (fun ch => ch <> [] /\ (length ch <= 8192)%nat)
     (Hashing.read_chunks 8191 (list_ascii_of_string c))).
Proof.
  intros sha f. split.
  - unfold Pipeline.calculate_file_hash.
    destruct (Pipeline.content f) as [c|]; [|reflexivity]. unfold Hashing.calculate_file_hash.
    simpl. rewrite fold_update_app, read_chunks_concat. reflexivity.
  - intros c. split; [apply read_chunks_concat | apply read_chunks_sizes].
Qed.
